(** * Campaign targeting resolver

    A shallow embedding of the hierarchical targeting code of the campaign
    API: [app/routes/campaigns.py] ([active_by_station], the dashboard
    surface) and [app/routes/tablets.py] ([get_active_for_station], the
    tablet surface), with the models and [app/utils/regions.py] they use.

    Tables are lists of rows in the order the database hands them back;
    a query that fails raises.  Timestamps are integers (microseconds),
    UUIDs are natural numbers, strings are ASCII. *)

From Stdlib Require Import ZArith NArith Ascii String.
From stdpp Require Import base gmap sets list strings sorting.

Open Scope Z_scope.

(** ** Python values and control flow *)

Module Py.

Inductive exn : Type :=
| OperationalError            (* the database refused a query *)
| TypeError                   (* e.g. [x in 5] *)
| UnboundLocalError (name : string).

Inductive outcome (A : Type) : Type :=
| Ok (a : A)
| Raise (e : exn).
Arguments Ok {A} a.
Arguments Raise {A} e.

#[global] Instance outcome_ret : MRet outcome := λ A a, Ok a.
#[global] Instance outcome_bind : MBind outcome := λ A B f m,
  match m with Ok a => f a | Raise e => Raise e end.
#[global] Instance outcome_fmap : FMap outcome := λ A B f m,
  match m with Ok a => Ok (f a) | Raise e => Raise e end.

#[global] Instance exn_eq_dec : EqDecision exn.
Proof. solve_decision. Defined.

(** A [str] or [None]. *)
Definition pystr : Type := option string.

(** What a targeting column can hold when the handler reads it.  The ORM
    declares [ARRAY(String)], nullable: [None] or a list whose items are
    strings or NULLs.  The handlers never check the type, so one
    non-sequence case is kept to follow what Python does on it. *)
Inductive pyval : Type :=
| PyNone
| PyList (xs : list pystr)
| PyNum (n : Z).

(** [bool(v)] *)
Definition truthy (v : pyval) : bool :=
  match v with
  | PyNone => false
  | PyList [] => false
  | PyList (_ :: _) => true
  | PyNum n => negb (n =? 0)
  end.

(** [v or []] *)
Definition or_empty (v : pyval) : pyval :=
  if truthy v then v else PyList [].

(** [x in v]: membership by [==] on a list, [TypeError] on a value that
    is not a container. *)
Definition contains (x : pystr) (v : pyval) : outcome bool :=
  match v with
  | PyList xs => Ok (bool_decide (x ∈ xs))
  | PyNone | PyNum _ => Raise TypeError
  end.

(** [sorted(l, key=key, reverse=reverse)]: a stable sort; with
    [reverse=True] the order is descending and items whose keys are equal
    still keep their original relative order. *)
Section sorted.
Context {A K : Type} (ltb : K → K → bool) (key : A → K).

Fixpoint insort (reverse : bool) (x : A) (l : list A) : list A :=
  match l with
  | [] => [x]
  | y :: l' =>
      if (if reverse then ltb (key x) (key y) else ltb (key y) (key x))
      then y :: insort reverse x l'
      else x :: y :: l'
  end.

Definition sorted (reverse : bool) (l : list A) : list A :=
  foldr (insort reverse) [] l.

(** [ahead reverse a b]: [a] may stand before [b] in a sorted list. *)
Definition ahead (reverse : bool) (a b : A) : Prop :=
  if reverse then ltb (key a) (key b) = false
  else ltb (key b) (key a) = false.
End sorted.

(** [<] on tuples [(int, datetime)]: lexicographic. *)
Definition tuple_ltb (a b : Z * Z) : bool :=
  (a.1 <? b.1) || ((a.1 =? b.1) && (a.2 <? b.2)).

(** [str.upper()] on ASCII text. *)
Definition ascii_upper (c : ascii) : ascii :=
  let n := nat_of_ascii c in
  if ((97 <=? n) && (n <=? 122))%nat then ascii_of_nat (n - 32) else c.

Fixpoint upper (s : string) : string :=
  match s with
  | EmptyString => EmptyString
  | String c s' => String (ascii_upper c) (upper s')
  end.

End Py.
Import Py.

(** ** SQL predicates: three-valued logic over nullable columns *)

Module Sql.

Definition sql_bool : Type := option bool.

Definition sql_and (a b : sql_bool) : sql_bool :=
  match a, b with
  | Some false, _ | _, Some false => Some false
  | Some true, Some true => Some true
  | _, _ => None
  end.

(** [column == value] on a nullable column. *)
Definition sql_eq {A} `{EqDecision A} (col : option A) (v : A) : sql_bool :=
  (λ x, bool_decide (x = v)) <$> col.

(** A row is selected when the WHERE clause is TRUE (not FALSE, not NULL). *)
Definition sql_where (p : sql_bool) : bool :=
  match p with Some true => true | _ => false end.

End Sql.
Import Sql.

(** ** app/utils/regions.py *)

Module Regions.

Definition STATE_TO_REGION : gmap string string :=
  list_to_map
    [ ("AC", "Norte"); ("AP", "Norte"); ("AM", "Norte"); ("PA", "Norte");
      ("RO", "Norte"); ("RR", "Norte"); ("TO", "Norte");
      ("AL", "Nordeste"); ("BA", "Nordeste"); ("CE", "Nordeste");
      ("MA", "Nordeste"); ("PB", "Nordeste"); ("PE", "Nordeste");
      ("PI", "Nordeste"); ("RN", "Nordeste"); ("SE", "Nordeste");
      ("DF", "Centro-Oeste"); ("GO", "Centro-Oeste");
      ("MT", "Centro-Oeste"); ("MS", "Centro-Oeste");
      ("ES", "Sudeste"); ("MG", "Sudeste"); ("RJ", "Sudeste");
      ("SP", "Sudeste");
      ("PR", "Sul"); ("RS", "Sul"); ("SC", "Sul") ]%string.

Definition get_region_by_state (state : string) : pystr :=
  STATE_TO_REGION !! upper state.

Definition REGIONS : list string :=
  ["Norte"; "Nordeste"; "Centro-Oeste"; "Sudeste"; "Sul"]%string.

Definition REGION_TO_STATES : gmap string (list string) :=
  list_to_map
    [ ("Norte", ["AC"; "AP"; "AM"; "PA"; "RO"; "RR"; "TO"]);
      ("Nordeste", ["AL"; "BA"; "CE"; "MA"; "PB"; "PE"; "PI"; "RN"; "SE"]);
      ("Centro-Oeste", ["DF"; "GO"; "MT"; "MS"]);
      ("Sudeste", ["ES"; "MG"; "RJ"; "SP"]);
      ("Sul", ["PR"; "RS"; "SC"]) ]%string.

(** [REGION_TO_STATES.get(region, [])] *)
Definition get_states_by_region (region : string) : list string :=
  default [] (REGION_TO_STATES !! region).

(** [state.upper() in STATE_TO_REGION] *)
Definition is_valid_state (state : string) : bool :=
  bool_decide (is_Some (STATE_TO_REGION !! upper state)).

(** [region in REGIONS] *)
Definition is_valid_region (region : string) : bool :=
  bool_decide (region ∈ REGIONS).

End Regions.

(** ** app/models *)

Module Branch.
Record t : Type := mk
  { id : N;
    code : string;
    state : string;
    is_active : option bool }.

(** The [region] property. *)
Definition region (b : t) : pystr := Regions.get_region_by_state (state b).
End Branch.

Module Station.
(** [branch] is the loaded relationship; [branch_id] is not nullable, and
    the handlers still guard against a missing branch. *)
Record t : Type := mk
  { id : N;
    code : string;
    branch_id : N;
    is_active : option bool;
    branch : option Branch.t }.

(** [UniqueConstraint('branch_id', 'code')] *)
Definition _branch_station_uc (rows : list t) : Prop :=
  NoDup ((λ s, (branch_id s, code s)) <$> rows).
End Station.

Inductive CampaignStatus : Type := ACTIVE | SCHEDULED | PAUSED | EXPIRED.

#[global] Instance CampaignStatus_eq_dec : EqDecision CampaignStatus.
Proof. solve_decision. Defined.

(** Modelled from the spec: [created_at] is declared by [TimestampMixin]
    in app/models/base.py, which is not part of the tree; the
    specification lists a creation timestamp on every campaign and the
    initial migration declares the column NOT NULL, so it is a plain
    timestamp here.  [description], [created_by] and [updated_at] play no
    part in the resolution and are left out. *)
Module Campaign.
Record t : Type := mk
  { id : N;
    name : string;
    status : option CampaignStatus;
    start_date : Z;
    end_date : Z;
    default_display_time : option Z;
    branches : pyval;
    regions : pyval;
    stations : pyval;
    priority : option Z;
    is_deleted : option bool;
    created_at : Z }.
End Campaign.

Module CampaignImage.
Record t : Type := mk
  { id : N;
    campaign_id : N;
    order : Z;
    display_time : option Z;
    active : option bool }.
End CampaignImage.

(** The session: each table as the rows a query over it scans, or the
    error the query raises. *)
Record Db : Type := mkDb
  { q_stations : outcome (list Station.t);
    q_campaigns : outcome (list Campaign.t);
    q_images : outcome (list CampaignImage.t) }.

(** ** app/routes/campaigns.py: [active_by_station] *)

Module Campaigns.

(** The handler's local variables once the [try] statement is over.
    [None] is a name that was never bound: the [except] clause binds only
    [campaigns]. *)
Module Locals.
Record t : Type := mk
  { station : option (option Station.t);
    branch_code : option pystr;
    region : option pystr;
    campaigns : list Campaign.t }.
End Locals.

Module Item.
Record t : Type := mk
  { id : N;
    name : string;
    default_display_time : option Z;
    priority : option Z;
    targeting_level : string }.
End Item.

(** The returned dict, without its [timestamp] (the clock read again). *)
Module Response.
Record t : Type := mk
  { station_code : string;
    branch_code : pystr;
    region : pystr;
    campaigns : list Item.t;
    total : nat }.
End Response.

(** [db.query(Station).filter(Station.code == station_code,
    Station.is_active == True).first()] *)
Definition station_filter (station_code : string) (s : Station.t) : bool :=
  sql_where (sql_and (sql_eq (Some (Station.code s)) station_code)
                     (sql_eq (Station.is_active s) true)).

Definition station_query (db : Db) (station_code : string)
  : outcome (option Station.t) :=
  rows ← q_stations db;
  mret (head (List.filter (station_filter station_code) rows)).

(** [db.query(Campaign).filter(Campaign.is_deleted == False,
    Campaign.status == "active", Campaign.start_date <= now,
    Campaign.end_date >= now).all()] *)
Definition campaign_filter (now : Z) (c : Campaign.t) : bool :=
  sql_where
    (sql_and (sql_and (sql_and (sql_eq (Campaign.is_deleted c) false)
                               (sql_eq (Campaign.status c) ACTIVE))
                      (Some (Campaign.start_date c <=? now)))
             (Some (Campaign.end_date c >=? now))).

Definition campaign_query (db : Db) (now : Z) : outcome (list Campaign.t) :=
  rows ← q_campaigns db;
  mret (List.filter (campaign_filter now) rows).

(** One turn of the [for campaign in all_campaigns] loop: [true] when the
    campaign is appended. *)
Definition applies (station : option Station.t) (branch_code region : pystr)
    (station_code : string) (campaign : Campaign.t) : outcome bool :=
  let branches := or_empty (Campaign.branches campaign) in
  let regions := or_empty (Campaign.regions campaign) in
  let stations := or_empty (Campaign.stations campaign) in
  if negb (truthy branches) && negb (truthy regions) && negb (truthy stations)
  then mret true
  else match station with
  | None => mret false
  | Some _ =>
    if truthy regions && negb (truthy branches) && negb (truthy stations)
    then contains region regions
    else if truthy branches && negb (truthy stations)
    then contains branch_code branches
    else if truthy branches && truthy stations
    then (in_branches ← contains branch_code branches;
          if in_branches : bool then contains (Some station_code) stations
          else mret false)
    else mret false
  end.

Fixpoint filter_applicable (station : option Station.t)
    (branch_code region : pystr) (station_code : string)
    (all_campaigns : list Campaign.t) : outcome (list Campaign.t) :=
  match all_campaigns with
  | [] => mret []
  | campaign :: rest =>
      keep ← applies station branch_code region station_code campaign;
      campaigns ← filter_applicable station branch_code region station_code rest;
      mret (if keep : bool then campaign :: campaigns else campaigns)
  end.

(** [key=lambda x: (-x.priority if x.priority else 0, x.created_at)] *)
Definition sort_key (x : Campaign.t) : Z * Z :=
  (match Campaign.priority x with
   | Some p => if p =? 0 then 0 else - p
   | None => 0
   end,
   Campaign.created_at x).

(** The [seen] loop over the sorted list. *)
Fixpoint unique_loop (seen : gset N) (l : list Campaign.t) : list Campaign.t :=
  match l with
  | [] => []
  | c :: l' =>
      if decide (Campaign.id c ∈ seen) then unique_loop seen l'
      else c :: unique_loop ({[Campaign.id c]} ∪ seen) l'
  end.

Definition unique_campaigns (campaigns : list Campaign.t) : list Campaign.t :=
  unique_loop ∅ (sorted tuple_ltb sort_key true campaigns).

(** The [try] statement with its [except Exception] clause. *)
Definition resolve (db : Db) (station_code : string) (now : Z) : Locals.t :=
  match station_query db station_code with
  | Raise _ => Locals.mk None None None []
  | Ok station =>
    match campaign_query db now with
    | Raise _ => Locals.mk (Some station) None None []
    | Ok all_campaigns =>
      let '(branch_code, region) :=
        match station with
        | Some st =>
            let branch := Station.branch st in
            (match branch with Some b => Some (Branch.code b) | None => None end,
             match branch with Some b => Branch.region b | None => None end)
        | None => (None, None)
        end in
      match filter_applicable station branch_code region station_code
              all_campaigns with
      | Raise _ =>
          Locals.mk (Some station) (Some branch_code) (Some region) []
      | Ok campaigns =>
          Locals.mk (Some station) (Some branch_code) (Some region)
            (unique_campaigns campaigns)
      end
    end
  end.

Definition read_local {A} (name : string) (v : option A) : outcome A :=
  match v with
  | Some a => Ok a
  | None => Raise (UnboundLocalError name)
  end.

(** [x if station else None] *)
Definition if_station (fr : Locals.t) (name : string) (x : option pystr)
  : outcome pystr :=
  station ← read_local "station" (Locals.station fr);
  match station with
  | Some _ => read_local name x
  | None => mret None
  end.

Definition targeting_level (c : Campaign.t) : string :=
  if negb (truthy (Campaign.branches c)) && negb (truthy (Campaign.regions c))
     && negb (truthy (Campaign.stations c))
  then "global"
  else if truthy (Campaign.regions c) && negb (truthy (Campaign.branches c))
  then "regional"
  else if truthy (Campaign.branches c) && negb (truthy (Campaign.stations c))
  then "branch"
  else "station".

Definition item (c : Campaign.t) : Item.t :=
  {| Item.id := Campaign.id c;
     Item.name := Campaign.name c;
     Item.default_display_time := Campaign.default_display_time c;
     Item.priority := Campaign.priority c;
     Item.targeting_level := targeting_level c |}.

Definition active_by_station (db : Db) (station_code : string) (now : Z)
  : outcome Response.t :=
  let fr := resolve db station_code now in
  branch_code ← if_station fr "branch_code" (Locals.branch_code fr);
  region ← if_station fr "region" (Locals.region fr);
  mret {| Response.station_code := station_code;
          Response.branch_code := branch_code;
          Response.region := region;
          Response.campaigns := item <$> Locals.campaigns fr;
          Response.total := length (Locals.campaigns fr) |}.

End Campaigns.

(** ** app/routes/tablets.py: [get_active_for_station] *)

Module Tablets.

Module Locals.
Record t : Type := mk
  { station : option (option Station.t);
    branch_code : option pystr;
    region : option pystr;
    campaigns : list Campaign.t }.
End Locals.

(** One entry of [formatted_images]; [checksum], [download_url] and the
    size columns are copied from the row and are left out. *)
Module Image.
Record t : Type := mk
  { id : N;
    campaign_id : N;
    order_index : Z;
    display_time : option Z }.
End Image.

Module Item.
Record t : Type := mk
  { id : N;
    name : string;
    default_display_time : option Z;
    priority : Z;
    targeting_level : string;
    start_date : Z;
    end_date : Z;
    images : list Image.t }.
End Item.

Module Response.
Record t : Type := mk
  { station_code : string;
    branch_code : pystr;
    region : pystr;
    campaigns : list Item.t;
    total : nat;
    cache_ttl : Z }.
End Response.

Definition station_filter (station_code : string) (s : Station.t) : bool :=
  sql_where (sql_and (sql_eq (Some (Station.code s)) station_code)
                     (sql_eq (Station.is_active s) true)).

Definition station_query (db : Db) (station_code : string)
  : outcome (option Station.t) :=
  rows ← q_stations db;
  mret (head (List.filter (station_filter station_code) rows)).

Definition campaign_filter (now : Z) (c : Campaign.t) : bool :=
  sql_where
    (sql_and (sql_and (sql_and (sql_eq (Campaign.is_deleted c) false)
                               (sql_eq (Campaign.status c) ACTIVE))
                      (Some (Campaign.start_date c <=? now)))
             (Some (Campaign.end_date c >=? now))).

Definition campaign_query (db : Db) (now : Z) : outcome (list Campaign.t) :=
  rows ← q_campaigns db;
  mret (List.filter (campaign_filter now) rows).

Definition applies (station : option Station.t) (branch_code region : pystr)
    (station_code : string) (campaign : Campaign.t) : outcome bool :=
  let branches := or_empty (Campaign.branches campaign) in
  let regions := or_empty (Campaign.regions campaign) in
  let stations := or_empty (Campaign.stations campaign) in
  if negb (truthy branches) && negb (truthy regions) && negb (truthy stations)
  then mret true
  else match station with
  | None => mret false
  | Some _ =>
    if truthy regions && negb (truthy branches) && negb (truthy stations)
    then contains region regions
    else if truthy branches && negb (truthy stations)
    then contains branch_code branches
    else if truthy branches && truthy stations
    then (in_branches ← contains branch_code branches;
          if in_branches : bool then contains (Some station_code) stations
          else mret false)
    else mret false
  end.

Fixpoint filter_applicable (station : option Station.t)
    (branch_code region : pystr) (station_code : string)
    (all_campaigns : list Campaign.t) : outcome (list Campaign.t) :=
  match all_campaigns with
  | [] => mret []
  | campaign :: rest =>
      keep ← applies station branch_code region station_code campaign;
      campaigns ← filter_applicable station branch_code region station_code rest;
      mret (if keep : bool then campaign :: campaigns else campaigns)
  end.

Definition sort_key (x : Campaign.t) : Z * Z :=
  (match Campaign.priority x with
   | Some p => if p =? 0 then 0 else - p
   | None => 0
   end,
   Campaign.created_at x).

Fixpoint unique_loop (seen : gset N) (l : list Campaign.t) : list Campaign.t :=
  match l with
  | [] => []
  | c :: l' =>
      if decide (Campaign.id c ∈ seen) then unique_loop seen l'
      else c :: unique_loop ({[Campaign.id c]} ∪ seen) l'
  end.

Definition unique_campaigns (campaigns : list Campaign.t) : list Campaign.t :=
  unique_loop ∅ (sorted tuple_ltb sort_key true campaigns).

Definition resolve (db : Db) (station_code : string) (now : Z) : Locals.t :=
  match station_query db station_code with
  | Raise _ => Locals.mk None None None []
  | Ok station =>
    match campaign_query db now with
    | Raise _ => Locals.mk (Some station) None None []
    | Ok all_campaigns =>
      let '(branch_code, region) :=
        match station with
        | Some st =>
            let branch := Station.branch st in
            (match branch with Some b => Some (Branch.code b) | None => None end,
             match branch with Some b => Branch.region b | None => None end)
        | None => (None, None)
        end in
      match filter_applicable station branch_code region station_code
              all_campaigns with
      | Raise _ =>
          Locals.mk (Some station) (Some branch_code) (Some region) []
      | Ok campaigns =>
          Locals.mk (Some station) (Some branch_code) (Some region)
            (unique_campaigns campaigns)
      end
    end
  end.

(** [db.query(CampaignImage).filter(CampaignImage.campaign_id == c.id,
    CampaignImage.active == True).order_by(CampaignImage.order).all()];
    rows of equal [order] stay in scan order. *)
Definition image_filter (c : Campaign.t) (img : CampaignImage.t) : bool :=
  sql_where
    (sql_and (sql_eq (Some (CampaignImage.campaign_id img)) (Campaign.id c))
             (sql_eq (CampaignImage.active img) true)).

Definition image_query (db : Db) (c : Campaign.t)
  : outcome (list CampaignImage.t) :=
  rows ← q_images db;
  mret (sorted Z.ltb CampaignImage.order false
          (List.filter (image_filter c) rows)).

Definition format_image (c : Campaign.t) (img : CampaignImage.t) : Image.t :=
  {| Image.id := CampaignImage.id img;
     Image.campaign_id := Campaign.id c;
     Image.order_index := CampaignImage.order img;
     Image.display_time := CampaignImage.display_time img |}.

Definition targeting_level (c : Campaign.t) : string :=
  if negb (truthy (or_empty (Campaign.branches c)))
     && negb (truthy (or_empty (Campaign.regions c)))
     && negb (truthy (or_empty (Campaign.stations c)))
  then "global"
  else if truthy (or_empty (Campaign.regions c))
          && negb (truthy (or_empty (Campaign.branches c)))
  then "regional"
  else if truthy (or_empty (Campaign.branches c))
          && negb (truthy (or_empty (Campaign.stations c)))
  then "branch"
  else "station".

Definition item (c : Campaign.t) (formatted_images : list Image.t) : Item.t :=
  {| Item.id := Campaign.id c;
     Item.name := Campaign.name c;
     Item.default_display_time := Campaign.default_display_time c;
     Item.priority := default 0 (Campaign.priority c);
     Item.targeting_level := targeting_level c;
     Item.start_date := Campaign.start_date c;
     Item.end_date := Campaign.end_date c;
     Item.images := formatted_images |}.

(** The [for c in campaigns] loop after the [try] statement: a failing
    image query is not caught. *)
Fixpoint campaigns_with_images (db : Db) (campaigns : list Campaign.t)
  : outcome (list Item.t) :=
  match campaigns with
  | [] => mret []
  | c :: rest =>
      images ← image_query db c;
      let formatted_images := format_image c <$> images in
      items ← campaigns_with_images db rest;
      mret (item c formatted_images :: items)
  end.

Definition read_local {A} (name : string) (v : option A) : outcome A :=
  match v with
  | Some a => Ok a
  | None => Raise (UnboundLocalError name)
  end.

Definition if_station (fr : Locals.t) (name : string) (x : option pystr)
  : outcome pystr :=
  station ← read_local "station" (Locals.station fr);
  match station with
  | Some _ => read_local name x
  | None => mret None
  end.

Definition get_active_for_station (db : Db) (station_code : string) (now : Z)
  : outcome Response.t :=
  let fr := resolve db station_code now in
  items ← campaigns_with_images db (Locals.campaigns fr);
  branch_code ← if_station fr "branch_code" (Locals.branch_code fr);
  region ← if_station fr "region" (Locals.region fr);
  mret {| Response.station_code := station_code;
          Response.branch_code := branch_code;
          Response.region := region;
          Response.campaigns := items;
          Response.total := length (Locals.campaigns fr);
          Response.cache_ttl := 120 |}.

End Tablets.

(** ** The scenario of the specification, section 8.7 *)

Module Scenario.

Definition SP01 : Branch.t :=
  {| Branch.id := 1; Branch.code := "SP01"; Branch.state := "SP";
     Branch.is_active := Some true |}.

Definition station_001 : Station.t :=
  {| Station.id := 1; Station.code := "001"; Station.branch_id := 1;
     Station.is_active := Some true; Station.branch := Some SP01 |}.

Definition now : Z := 1000.

Definition campaign (id : N) (name : string)
    (branches regions stations : list string) (priority : Z) : Campaign.t :=
  {| Campaign.id := id; Campaign.name := name;
     Campaign.status := Some ACTIVE;
     Campaign.start_date := 0; Campaign.end_date := 2000;
     Campaign.default_display_time := Some 5000;
     Campaign.branches := PyList (Some <$> branches);
     Campaign.regions := PyList (Some <$> regions);
     Campaign.stations := PyList (Some <$> stations);
     Campaign.priority := Some priority;
     Campaign.is_deleted := Some false;
     Campaign.created_at := Z.of_N id |}.

Definition A := campaign 1 "A" [] [] [] 0.
Definition B := campaign 2 "B" [] ["Sudeste"] [] 5.
Definition C := campaign 3 "C" ["SP01"] [] [] 3.
Definition D := campaign 4 "D" ["SP01"] [] ["002"] 10.

Definition image (id campaign_id : N) (order : Z) (display_time : option Z)
    (active : bool) : CampaignImage.t :=
  {| CampaignImage.id := id; CampaignImage.campaign_id := campaign_id;
     CampaignImage.order := order;
     CampaignImage.display_time := display_time;
     CampaignImage.active := Some active |}.

Definition images : list CampaignImage.t :=
  [ image 11 3 2 (Some 8000) true;
    image 12 3 1 None true;
    image 13 3 0 None false;
    image 14 2 0 None true ].

Definition db : Db :=
  {| q_stations := Ok [station_001];
     q_campaigns := Ok [A; B; C; D];
     q_images := Ok images |}.

(** A station-level campaign for station "001", and the same station
    code under another branch. *)
Definition E := campaign 5 "E" ["SP01"] [] ["001"] 1.

Definition db_station : Db :=
  {| q_stations := Ok [station_001];
     q_campaigns := Ok [A; E];
     q_images := Ok images |}.

(** The same directory with station "001" owned by branch "020202". *)
Definition branch_020202 : Branch.t :=
  {| Branch.id := 2; Branch.code := "020202"; Branch.state := "RJ";
     Branch.is_active := Some true |}.

Definition station_001_of_020202 : Station.t :=
  {| Station.id := 2; Station.code := "001"; Station.branch_id := 2;
     Station.is_active := Some true; Station.branch := Some branch_020202 |}.

Definition F := campaign 6 "F" ["010101"] [] ["001"] 1.

Definition db_other_branch : Db :=
  {| q_stations := Ok [station_001_of_020202];
     q_campaigns := Ok [A; F];
     q_images := Ok images |}.


(** The catalog cannot be read while the station is known. *)
Definition db_catalog_down_known : Db :=
  {| q_stations := Ok [station_001];
     q_campaigns := Raise OperationalError;
     q_images := Ok images |}.



(** Station "001" exists under branch "010101" too. *)
Definition branch_010101 : Branch.t :=
  {| Branch.id := 3; Branch.code := "010101"; Branch.state := "SP";
     Branch.is_active := Some true |}.

Definition station_001_of_010101 : Station.t :=
  {| Station.id := 3; Station.code := "001"; Station.branch_id := 3;
     Station.is_active := Some true; Station.branch := Some branch_010101 |}.

Definition db_two_branches : Db :=
  {| q_stations := Ok [station_001_of_010101; station_001_of_020202];
     q_campaigns := Ok [F];
     q_images := Ok [] |}.

(** Rows the lookup of "001" passes over: another code, and an inactive
    station with the code. *)
Definition station_002 : Station.t :=
  {| Station.id := 4; Station.code := "002"; Station.branch_id := 1;
     Station.is_active := Some true; Station.branch := Some SP01 |}.

Definition station_001_closed : Station.t :=
  {| Station.id := 5; Station.code := "001"; Station.branch_id := 3;
     Station.is_active := Some false; Station.branch := Some branch_010101 |}.

(** Two global campaigns created in one transaction, with one priority;
    the catalog returns them in either order. *)
Definition X := campaign 8 "X" [] [] [] 2.
Definition Y : Campaign.t :=
  {| Campaign.id := 9; Campaign.name := "Y";
     Campaign.status := Some ACTIVE;
     Campaign.start_date := 0; Campaign.end_date := 2000;
     Campaign.default_display_time := Some 5000;
     Campaign.branches := PyList [];
     Campaign.regions := PyList [];
     Campaign.stations := PyList [];
     Campaign.priority := Some 2;
     Campaign.is_deleted := Some false;
     Campaign.created_at := 8 |}.

Definition db_xy : Db :=
  {| q_stations := Ok [station_001];
     q_campaigns := Ok [X; Y];
     q_images := Ok images |}.

Definition db_yx : Db :=
  {| q_stations := Ok [station_001];
     q_campaigns := Ok [Y; X];
     q_images := Ok images |}.

End Scenario.

(** ** Specification-side definitions *)

Module Spec.

(** The list a well-typed targeting column stands for: NULL is the empty
    array. *)
Definition array_of (v : pyval) : option (list pystr) :=
  match v with
  | PyNone => Some []
  | PyList xs => Some xs
  | PyNum _ => None
  end.

Definition nonempty (l : list pystr) : bool :=
  match l with [] => false | _ => true end.

(** The four rules of section 4.3, step 3, in the order of the text; the
    first rule whose condition holds decides, anything else is excluded.
    [location] is the resolved [(branch_code, region)], absent for an
    unknown station. *)
Definition tier_rule (location : option (pystr * pystr))
    (station_code : string) (branches regions stations : list pystr) : bool :=
  if negb (nonempty branches) && negb (nonempty regions)
     && negb (nonempty stations)
  then true
  else if nonempty regions && negb (nonempty branches)
          && negb (nonempty stations)
  then match location with
       | Some (_, region) => bool_decide (region ∈ regions)
       | None => false
       end
  else if nonempty branches && negb (nonempty stations)
  then match location with
       | Some (branch_code, _) => bool_decide (branch_code ∈ branches)
       | None => false
       end
  else if nonempty branches && nonempty stations
  then match location with
       | Some (branch_code, _) =>
           bool_decide (branch_code ∈ branches)
           && bool_decide (Some station_code ∈ stations)
       | None => false
       end
  else false.

(** The location the handlers derive from the looked-up station. *)
Definition branch_code_of (st : Station.t) : pystr :=
  Branch.code <$> Station.branch st.

Definition region_of (st : Station.t) : pystr :=
  Station.branch st ≫= Branch.region.

Definition location_of (station : option Station.t) : option (pystr * pystr) :=
  (λ st, (branch_code_of st, region_of st)) <$> station.

Definition branch_code_at (station : option Station.t) : pystr :=
  station ≫= branch_code_of.

Definition region_at (station : option Station.t) : pystr :=
  station ≫= region_of.

(** The station a code stands for, read on the columns: the first row, in
    scan order, whose code is the requested one and whose active flag is
    true. *)
Definition active_with_code (station_code : string) (s : Station.t) : bool :=
  bool_decide (Station.code s = station_code
               ∧ Station.is_active s = Some true).

Definition active_station (stations : list Station.t) (station_code : string)
  : option Station.t :=
  head (List.filter (active_with_code station_code) stations).

(** The rows of a table are typed as the ORM declares them:
    [ARRAY(String)], nullable. *)
Definition well_typed (c : Campaign.t) : Prop :=
  is_Some (array_of (Campaign.branches c))
  ∧ is_Some (array_of (Campaign.regions c))
  ∧ is_Some (array_of (Campaign.stations c)).

(** The four rules applied to a stored campaign. *)
Definition rule_includes (location : option (pystr * pystr))
    (station_code : string) (c : Campaign.t) : bool :=
  match array_of (Campaign.branches c), array_of (Campaign.regions c),
        array_of (Campaign.stations c) with
  | Some branches, Some regions, Some stations =>
      tier_rule location station_code branches regions stations
  | _, _, _ => false
  end.

(** A combination of targeting arrays that none of the four rules
    covers: stations without branches. *)
Definition undefined_combination (c : Campaign.t) : Prop :=
  ∃ rs ss, array_of (Campaign.branches c) = Some []
           ∧ array_of (Campaign.regions c) = Some rs
           ∧ array_of (Campaign.stations c) = Some ss ∧ ss ≠ [].

(** What one turn of the loop decided, an error counting as "no". *)
Definition kept (r : outcome bool) : bool :=
  match r with Ok b => b | Raise _ => false end.

Definition returns {A} (r : outcome A) : Prop :=
  match r with Ok _ => True | Raise _ => False end.

(** The images the tablet surface lists for a campaign. *)
Definition listed_images (rows : list CampaignImage.t) (c : Campaign.t)
  : list CampaignImage.t :=
  sorted Z.ltb CampaignImage.order false
    (List.filter (Tablets.image_filter c) rows).

(** A campaign whose three targeting columns are all empty. *)
Definition no_targets (c : Campaign.t) : bool :=
  negb (truthy (Campaign.branches c)) && negb (truthy (Campaign.regions c))
  && negb (truthy (Campaign.stations c)).

(** A candidate in the words of section 4.2. *)
Definition candidate (now : Z) (c : Campaign.t) : Prop :=
  Campaign.is_deleted c = Some false ∧ Campaign.status c = Some ACTIVE
  ∧ Campaign.start_date c ≤ now ≤ Campaign.end_date c.

(** A stored campaign is selected for a location when it is a candidate
    and the four rules include it. *)
Definition selected (rows : list Campaign.t) (now : Z)
    (location : option (pystr * pystr)) (station_code : string)
    (c : Campaign.t) : Prop :=
  c ∈ rows ∧ candidate now c ∧ rule_includes location station_code c = true.

(** The order the handlers leave the resolved list in, read on the
    columns: [a] may stand before [b] when its priority (NULL as 0) is
    lower, or equal with a creation time that is not older. *)
Definition priority_or_zero (c : Campaign.t) : Z :=
  default 0 (Campaign.priority c).

Definition listed_before (a b : Campaign.t) : Prop :=
  priority_or_zero a < priority_or_zero b
  ∨ (priority_or_zero a = priority_or_zero b
     ∧ Campaign.created_at b ≤ Campaign.created_at a).

(** What both surfaces say about the selection: the envelope, and for
    each campaign its identity and tier, in order. *)
Definition selection : Type :=
  string * pystr * pystr * list (N * string) * nat.

Definition dashboard_selection (r : Campaigns.Response.t) : selection :=
  (Campaigns.Response.station_code r, Campaigns.Response.branch_code r,
   Campaigns.Response.region r,
   (λ i, (Campaigns.Item.id i, Campaigns.Item.targeting_level i))
     <$> Campaigns.Response.campaigns r,
   Campaigns.Response.total r).

Definition tablet_selection (r : Tablets.Response.t) : selection :=
  (Tablets.Response.station_code r, Tablets.Response.branch_code r,
   Tablets.Response.region r,
   (λ i, (Tablets.Item.id i, Tablets.Item.targeting_level i))
     <$> Tablets.Response.campaigns r,
   Tablets.Response.total r).

(** The display time section 4.4 describes: the image's override, else
    the campaign's default. *)
Definition effective_display_time (c : Campaign.t) (img : CampaignImage.t)
  : option Z :=
  match CampaignImage.display_time img with
  | Some t => if t =? 0 then Campaign.default_display_time c else Some t
  | None => Campaign.default_display_time c
  end.

End Spec.
Import Spec.

(** * The code around the resolver *)

(** ** What a handler answers *)

Module Http.

(** A returned value, an [HTTPException], or an exception nobody handles
    (FastAPI answers 500). *)
Inductive reply (A : Type) : Type :=
| Returned (a : A)
| HTTPException (status_code : Z)
| Unhandled.
Arguments Returned {A} a.
Arguments HTTPException {A} status_code.
Arguments Unhandled {A}.

End Http.
Import Http.

(** ** The session's reads and writes by primary key *)

Module Orm.

(** [db.get(Model, id)], and [.filter(Model.id == id).first()] *)
Definition get {A} (pk : A → N) (id : N) (rows : list A) : option A :=
  head (List.filter (λ r, bool_decide (pk r = id)) rows).

(** The UPDATE a commit emits for a changed entity: [WHERE id = ...].  The
    list keeps the row where it was; where a later scan without ORDER BY
    meets the new version of the row is up to the database, so the
    properties below speak of which rows match, of the relative order of
    the rows left alone, or of listings sorted by a key, never of the
    position of an updated row. *)
Definition update {A} (pk : A → N) (id : N) (f : A → A) (rows : list A)
  : list A :=
  (λ r, if decide (pk r = id) then f r else r) <$> rows.

End Orm.

(** ** app/schemas/campaign.py *)

Module CampaignBase.

(** A parsed request body; [description] is left out. *)
Record t : Type := mk
  { name : string;
    status : option string;
    start_date : Z;
    end_date : Z;
    default_display_time : option Z;
    branches : list string;
    regions : list string;
    stations : list string;
    priority : option Z }.

(** The validators: [false] is the [ValueError]. *)
Fixpoint validate_regions (v : list string) : bool :=
  match v with
  | [] => true
  | region :: rest =>
      if negb (Regions.is_valid_region region) then false
      else validate_regions rest
  end.

(** [values_branches] is [values.get('branches')]. *)
Definition validate_stations_require_branches (v : list string)
    (values_branches : option (list string)) : bool :=
  match v, values_branches with
  | _ :: _, (None | Some []) => false
  | _, _ => true
  end.

Definition validate (p : t) : bool :=
  validate_regions (regions p)
  && validate_stations_require_branches (stations p) (Some (branches p)).

End CampaignBase.

Module CampaignUpdate.

(** A field of the body: left out, or given (possibly as null). *)
Inductive patch (A : Type) : Type :=
| Unset
| Given (v : option A).
Arguments Unset {A}.
Arguments Given {A} v.

(** The attribute's value: [None] when the field was left out. *)
Definition value {A} (p : patch A) : option A :=
  match p with Unset => None | Given v => v end.

Record t : Type := mk
  { name : patch string;
    status : patch string;
    start_date : patch Z;
    end_date : patch Z;
    default_display_time : patch Z;
    branches : patch (list string);
    regions : patch (list string);
    stations : patch (list string);
    priority : patch Z;
    is_deleted : patch bool }.

Definition validate_regions (v : option (list string)) : bool :=
  match v with
  | Some regions => CampaignBase.validate_regions regions
  | None => true
  end.

(** [if v and values.get('branches') is not None
       and not values.get('branches'): raise] *)
Definition validate_stations_require_branches (v : option (list string))
    (values_branches : option (list string)) : bool :=
  match v, values_branches with
  | Some (_ :: _), Some [] => false
  | _, _ => true
  end.

Definition validate (p : t) : bool :=
  validate_regions (value (regions p))
  && validate_stations_require_branches (value (stations p))
       (value (branches p)).

End CampaignUpdate.

Module CampaignResponse.

Record t : Type := mk
  { id : N;
    name : string;
    status : option CampaignStatus;
    start_date : Z;
    end_date : Z;
    default_display_time : Z;
    branches : list string;
    regions : list string;
    stations : list string;
    priority : Z;
    is_deleted : bool;
    created_at : Z }.

End CampaignResponse.

(** ** app/routes/campaigns.py: the other handlers *)

Module CampaignsCrud.

(** The labels of the [campaignstatus] enum; any other text is refused by
    the database when the row is written. *)
Definition status_of_label (s : string) : option CampaignStatus :=
  if decide (s = "active") then Some ACTIVE
  else if decide (s = "scheduled") then Some SCHEDULED
  else if decide (s = "paused") then Some PAUSED
  else if decide (s = "expired") then Some EXPIRED
  else None.

(** The column value for an optional label: [None] when the write fails. *)
Definition status_column (s : option string)
  : option (option CampaignStatus) :=
  match s with
  | None => Some None
  | Some label => Some <$> status_of_label label
  end.

Definition array (l : list string) : pyval := PyList (Some <$> l).

(** What the database refuses when a row is written: [Integer] holds 32
    bits, [name] is [String(255)], and no text holds a NUL character. *)
Definition int32 (v : Z) : bool := (-2147483648 <=? v) && (v <=? 2147483647).

Fixpoint storable (s : string) : bool :=
  match s with
  | EmptyString => true
  | String c s' => negb (Ascii.eqb c Ascii.zero) && storable s'
  end.

Definition storable_array (v : pyval) : bool :=
  match v with
  | PyList xs => forallb (λ x, default true (storable <$> x)) xs
  | PyNone | PyNum _ => true
  end.

Definition fits (c : Campaign.t) : bool :=
  (String.length (Campaign.name c) <=? 255)%nat
  && storable (Campaign.name c)
  && default true (int32 <$> Campaign.default_display_time c)
  && default true (int32 <$> Campaign.priority c)
  && storable_array (Campaign.branches c)
  && storable_array (Campaign.regions c)
  && storable_array (Campaign.stations c).

(** [create_campaign], for a body that passed validation; [id] is the
    [uuid4()] drawn and [created_at] the server's clock.  A null [status],
    [default_display_time] or [priority] is left out of the INSERT and
    takes the column default.  The answer goes through
    [response_model=CampaignResponse], which runs the validators of
    [CampaignBase] again on the same lists and so accepts what
    [CampaignCreate] accepted. *)
Definition create_campaign (payload : CampaignBase.t) (id : N)
    (created_at : Z) (rows : list Campaign.t)
  : reply (Campaign.t * list Campaign.t) :=
  match status_column (CampaignBase.status payload) with
  | None => Unhandled
  | Some status =>
      if bool_decide (id ∈ (Campaign.id <$> rows)) then Unhandled
      else
        let entity :=
          {| Campaign.id := id;
             Campaign.name := CampaignBase.name payload;
             Campaign.status :=
               Some (default SCHEDULED status);
             Campaign.start_date := CampaignBase.start_date payload;
             Campaign.end_date := CampaignBase.end_date payload;
             Campaign.default_display_time :=
               Some (default 5000 (CampaignBase.default_display_time payload));
             Campaign.branches := array (CampaignBase.branches payload);
             Campaign.regions := array (CampaignBase.regions payload);
             Campaign.stations := array (CampaignBase.stations payload);
             Campaign.priority :=
               Some (default 0 (CampaignBase.priority payload));
             Campaign.is_deleted := Some false;
             Campaign.created_at := created_at |} in
        if fits entity then Returned (entity, rows ++ [entity])
        else Unhandled
  end.

(** [entity.is_deleted] as a condition. *)
Definition deleted (c : Campaign.t) : bool :=
  match Campaign.is_deleted c with Some true => true | _ => false end.

(** The [setattr] loop over [model_dump(exclude_unset=True)], and what the
    commit makes of it: [None] when the database refuses the row (a NULL in
    a NOT NULL column, a text that is no status label, a value the column
    type cannot hold). *)
Definition set_required {A} (p : CampaignUpdate.patch A) (old : A)
  : option A :=
  match p with
  | CampaignUpdate.Unset => Some old
  | CampaignUpdate.Given None => None
  | CampaignUpdate.Given (Some v) => Some v
  end.

Definition set_nullable {A} (p : CampaignUpdate.patch A) (old : option A)
  : option A :=
  match p with
  | CampaignUpdate.Unset => old
  | CampaignUpdate.Given v => v
  end.

Definition set_array (p : CampaignUpdate.patch (list string)) (old : pyval)
  : pyval :=
  match p with
  | CampaignUpdate.Unset => old
  | CampaignUpdate.Given None => PyNone
  | CampaignUpdate.Given (Some l) => array l
  end.

Definition set_status (p : CampaignUpdate.patch string)
    (old : option CampaignStatus) : option (option CampaignStatus) :=
  match p with
  | CampaignUpdate.Unset => Some old
  | CampaignUpdate.Given s => status_column s
  end.

Definition apply_update (payload : CampaignUpdate.t) (entity : Campaign.t)
  : option Campaign.t :=
  name ← set_required (CampaignUpdate.name payload) (Campaign.name entity);
  status ← set_status (CampaignUpdate.status payload) (Campaign.status entity);
  start_date ← set_required (CampaignUpdate.start_date payload)
                 (Campaign.start_date entity);
  end_date ← set_required (CampaignUpdate.end_date payload)
               (Campaign.end_date entity);
  let default_display_time :=
    set_nullable (CampaignUpdate.default_display_time payload)
      (Campaign.default_display_time entity) in
  let priority :=
    set_nullable (CampaignUpdate.priority payload)
      (Campaign.priority entity) in
  let entity' :=
       {| Campaign.id := Campaign.id entity;
          Campaign.name := name;
          Campaign.status := status;
          Campaign.start_date := start_date;
          Campaign.end_date := end_date;
          Campaign.default_display_time := default_display_time;
          Campaign.branches :=
            set_array (CampaignUpdate.branches payload)
              (Campaign.branches entity);
          Campaign.regions :=
            set_array (CampaignUpdate.regions payload)
              (Campaign.regions entity);
          Campaign.stations :=
            set_array (CampaignUpdate.stations payload)
              (Campaign.stations entity);
          Campaign.priority := priority;
          Campaign.is_deleted :=
            set_nullable (CampaignUpdate.is_deleted payload)
              (Campaign.is_deleted entity);
          Campaign.created_at := Campaign.created_at entity |} in
  if fits entity' then Some entity' else None.

(** The strings a targeting column gives [CampaignResponse]: [None] when
    [List[str]] refuses it (a NULL item, a value that is no list). *)
Fixpoint strings (xs : list pystr) : option (list string) :=
  match xs with
  | [] => Some []
  | Some s :: rest => (s ::.) <$> strings rest
  | None :: _ => None
  end.

(** What [response_model=CampaignResponse] makes of the entity a handler
    returns, read attribute by attribute: [List[str]] refuses NULL and a
    NULL item, [bool] refuses NULL, and the validators of [CampaignBase]
    run on the stored lists.  [false] is the answer 500. *)
Definition serializable (entity : Campaign.t) : bool :=
  match Campaign.branches entity, Campaign.regions entity,
        Campaign.stations entity with
  | PyList bs, PyList rs, PyList ss =>
      match strings bs, strings rs, strings ss with
      | Some branches, Some regions, Some stations =>
          CampaignBase.validate_regions regions
          && CampaignBase.validate_stations_require_branches stations
               (Some branches)
          && bool_decide (is_Some (Campaign.is_deleted entity))
      | _, _, _ => false
      end
  | _, _, _ => false
  end.

(** [update_campaign], for a body that passed validation: the table it
    leaves and its answer.  The commit comes before the entity is
    returned, so a row the response model refuses is written all the
    same. *)
Definition update_campaign (campaign_id : N) (payload : CampaignUpdate.t)
    (rows : list Campaign.t) : list Campaign.t * reply Campaign.t :=
  match Orm.get Campaign.id campaign_id rows with
  | None => (rows, HTTPException 404)
  | Some entity =>
      if deleted entity then (rows, HTTPException 404)
      else match apply_update payload entity with
           | None => (rows, Unhandled)
           | Some entity' =>
               (Orm.update Campaign.id campaign_id (λ _, entity') rows,
                if serializable entity' then Returned entity' else Unhandled)
           end
  end.

Definition mark_deleted (c : Campaign.t) : Campaign.t :=
  {| Campaign.id := Campaign.id c;
     Campaign.name := Campaign.name c;
     Campaign.status := Campaign.status c;
     Campaign.start_date := Campaign.start_date c;
     Campaign.end_date := Campaign.end_date c;
     Campaign.default_display_time := Campaign.default_display_time c;
     Campaign.branches := Campaign.branches c;
     Campaign.regions := Campaign.regions c;
     Campaign.stations := Campaign.stations c;
     Campaign.priority := Campaign.priority c;
     Campaign.is_deleted := Some true;
     Campaign.created_at := Campaign.created_at c |}.

(** [delete_campaign]: the table it leaves (the reply is always 204). *)
Definition delete_campaign (campaign_id : N) (rows : list Campaign.t)
  : list Campaign.t :=
  match Orm.get Campaign.id campaign_id rows with
  | None => rows
  | Some entity =>
      if deleted entity then rows
      else Orm.update Campaign.id campaign_id mark_deleted rows
  end.

Definition list_of_str (v : pyval) : option (list string) :=
  match or_empty v with
  | PyList xs => strings xs
  | _ => None
  end.

(** [CampaignResponse] built from [campaign_dict]: [None] is the
    [ValidationError]
    (the validators of [CampaignBase] run on the stored values too). *)
Definition campaign_response (campaign : Campaign.t)
  : option CampaignResponse.t :=
  branches ← list_of_str (Campaign.branches campaign);
  regions ← list_of_str (Campaign.regions campaign);
  stations ← list_of_str (Campaign.stations campaign);
  if CampaignBase.validate_regions regions
     && CampaignBase.validate_stations_require_branches stations
          (Some branches)
  then Some {| CampaignResponse.id := Campaign.id campaign;
               CampaignResponse.name := Campaign.name campaign;
               CampaignResponse.status := Campaign.status campaign;
               CampaignResponse.start_date := Campaign.start_date campaign;
               CampaignResponse.end_date := Campaign.end_date campaign;
               CampaignResponse.default_display_time :=
                 match Campaign.default_display_time campaign with
                 | Some t => if t =? 0 then 5000 else t
                 | None => 5000
                 end;
               CampaignResponse.branches := branches;
               CampaignResponse.regions := regions;
               CampaignResponse.stations := stations;
               CampaignResponse.priority :=
                 default 0 (Campaign.priority campaign);
               CampaignResponse.is_deleted :=
                 match Campaign.is_deleted campaign with
                 | Some b => b
                 | None => false
                 end;
               CampaignResponse.created_at := Campaign.created_at campaign |}
  else None.

(** The loop of [list_campaigns]: the first row that fails is re-raised. *)
Fixpoint responses (items : list Campaign.t)
  : option (list CampaignResponse.t) :=
  match items with
  | [] => Some []
  | campaign :: rest =>
      r ← campaign_response campaign;
      result ← responses rest;
      Some (r :: result)
  end.

(** [db.query(Campaign).filter(Campaign.is_deleted == False)
      .order_by(Campaign.created_at.desc()).all()] *)
Definition not_deleted (c : Campaign.t) : bool :=
  sql_where (sql_eq (Campaign.is_deleted c) false).

Definition list_campaigns (rows : list Campaign.t)
  : reply (list CampaignResponse.t) :=
  let items :=
    sorted Z.ltb Campaign.created_at true (List.filter not_deleted rows) in
  match responses items with
  | Some result => Returned result
  | None => Unhandled
  end.

Definition get_campaign (id : N) (rows : list Campaign.t)
  : reply CampaignResponse.t :=
  match head (List.filter
                (λ c, sql_where (sql_and (sql_eq (Some (Campaign.id c)) id)
                                         (sql_eq (Campaign.is_deleted c) false)))
                rows) with
  | None => HTTPException 404
  | Some campaign =>
      match campaign_response campaign with
      | Some r => Returned r
      | None => Unhandled
      end
  end.

End CampaignsCrud.


(** ** app/routes/tablets.py: [get_tablet_image], up to its access checks *)

Module TabletImage.

(** The two lookups that open [get_tablet_image]: 404 without an active
    image of that id, 403 unless its campaign is stored as active and not
    deleted.  What follows in the handler reads files. *)
Definition image_lookup (image_id : N) (img : CampaignImage.t) : bool :=
  sql_where (sql_and (sql_eq (Some (CampaignImage.id img)) image_id)
                     (sql_eq (CampaignImage.active img) true)).

Definition campaign_lookup (image : CampaignImage.t) (c : Campaign.t) : bool :=
  sql_where
    (sql_and (sql_and (sql_eq (Some (Campaign.id c))
                         (CampaignImage.campaign_id image))
                      (sql_eq (Campaign.is_deleted c) false))
             (sql_eq (Campaign.status c) ACTIVE)).

Definition get_tablet_image_access (image_id : N)
    (images : list CampaignImage.t) (campaigns : list Campaign.t)
  : reply (CampaignImage.t * Campaign.t) :=
  match head (List.filter (image_lookup image_id) images) with
  | None => HTTPException 404
  | Some image =>
      match head (List.filter (campaign_lookup image) campaigns) with
      | None => HTTPException 403
      | Some campaign => Returned (image, campaign)
      end
  end.

End TabletImage.

(** ** app/routes/images.py and app/services/image_service.py *)

Module ImageUpdate.
(** A parsed body, each field left out or given; [title] and
    [description] are not modelled. *)
Record t : Type := mk
  { display_time : CampaignUpdate.patch Z;
    active : CampaignUpdate.patch bool }.
End ImageUpdate.

Module Images.

Definition set_active (active : option bool) (img : CampaignImage.t)
  : CampaignImage.t :=
  {| CampaignImage.id := CampaignImage.id img;
     CampaignImage.campaign_id := CampaignImage.campaign_id img;
     CampaignImage.order := CampaignImage.order img;
     CampaignImage.display_time := CampaignImage.display_time img;
     CampaignImage.active := active |}.

Definition set_order (order : Z) (img : CampaignImage.t) : CampaignImage.t :=
  {| CampaignImage.id := CampaignImage.id img;
     CampaignImage.campaign_id := CampaignImage.campaign_id img;
     CampaignImage.order := order;
     CampaignImage.display_time := CampaignImage.display_time img;
     CampaignImage.active := CampaignImage.active img |}.

Definition set_display_time (display_time : option Z) (img : CampaignImage.t)
  : CampaignImage.t :=
  {| CampaignImage.id := CampaignImage.id img;
     CampaignImage.campaign_id := CampaignImage.campaign_id img;
     CampaignImage.order := CampaignImage.order img;
     CampaignImage.display_time := display_time;
     CampaignImage.active := CampaignImage.active img |}.

(** [db.query(Campaign).filter(Campaign.id == campaign_id,
      Campaign.is_deleted == False).first()] *)
Definition campaign_lookup (campaign_id : N) (c : Campaign.t) : bool :=
  sql_where (sql_and (sql_eq (Some (Campaign.id c)) campaign_id)
                     (sql_eq (Campaign.is_deleted c) false)).

(** [.filter(CampaignImage.campaign_id == campaign_id,
      CampaignImage.active == True).order_by(CampaignImage.order).all()] *)
Definition active_of (campaign_id : N) (img : CampaignImage.t) : bool :=
  sql_where (sql_and (sql_eq (Some (CampaignImage.campaign_id img)) campaign_id)
                     (sql_eq (CampaignImage.active img) true)).

Definition active_images (campaign_id : N) (images : list CampaignImage.t)
  : list CampaignImage.t :=
  sorted Z.ltb CampaignImage.order false
    (List.filter (active_of campaign_id) images).

(** One entry of the dashboard's image list; the file columns are copied
    from the row and left out. *)
Module Entry.
Record t : Type := mk
  { id : N;
    order : Z;
    display_time : option Z;
    active : option bool }.
End Entry.

Module Listing.
Record t : Type := mk
  { campaign_id : N;
    default_display_time : option Z;
    total : nat;
    images : list Entry.t }.
End Listing.

(** [img.display_time or campaign.default_display_time] *)
Definition display_time_or_default (img : CampaignImage.t)
    (campaign : Campaign.t) : option Z :=
  match CampaignImage.display_time img with
  | Some t => if t =? 0 then Campaign.default_display_time campaign else Some t
  | None => Campaign.default_display_time campaign
  end.

Definition entry (campaign : Campaign.t) (img : CampaignImage.t) : Entry.t :=
  {| Entry.id := CampaignImage.id img;
     Entry.order := CampaignImage.order img;
     Entry.display_time := display_time_or_default img campaign;
     Entry.active := CampaignImage.active img |}.

Definition list_campaign_images (campaign_id : N)
    (campaigns : list Campaign.t) (images : list CampaignImage.t)
  : reply Listing.t :=
  match head (List.filter (campaign_lookup campaign_id) campaigns) with
  | None => HTTPException 404
  | Some campaign =>
      let images := active_images campaign_id images in
      Returned {| Listing.campaign_id := campaign_id;
                  Listing.default_display_time :=
                    Campaign.default_display_time campaign;
                  Listing.total := length images;
                  Listing.images := entry campaign <$> images |}
  end.

(** [for idx, img in enumerate(remaining_images): img.order = idx + 1],
    each change written back by primary key. *)
Fixpoint renumber (idx : Z) (remaining : list CampaignImage.t)
    (images : list CampaignImage.t) : list CampaignImage.t :=
  match remaining with
  | [] => images
  | img :: rest =>
      renumber (idx + 1) rest
        (Orm.update CampaignImage.id (CampaignImage.id img)
           (set_order (idx + 1)) images)
  end.

(** [delete_image]: the image table it leaves and [remaining_images]. *)
Definition delete_image (campaign_id image_id : N)
    (campaigns : list Campaign.t) (images : list CampaignImage.t)
  : reply (list CampaignImage.t * nat) :=
  match head (List.filter (campaign_lookup campaign_id) campaigns) with
  | None => HTTPException 404
  | Some _ =>
      match head (List.filter
                    (λ img, sql_where
                       (sql_and
                          (sql_and (sql_eq (Some (CampaignImage.id img)) image_id)
                                   (sql_eq (Some (CampaignImage.campaign_id img))
                                      campaign_id))
                          (sql_eq (CampaignImage.active img) true)))
                    images) with
      | None => HTTPException 404
      | Some image =>
          let images :=
            Orm.update CampaignImage.id (CampaignImage.id image)
              (set_active (Some false)) images in
          let remaining_images := active_images campaign_id images in
          Returned (renumber 0 remaining_images images,
                    length remaining_images)
      end
  end.

(** [ImageService.reorder_images]: [ordered_ids] holds the ids the
    request named; an id that is no image of the campaign is skipped and
    still takes its place in the count. *)
Fixpoint reorder_loop (campaign_id : N) (idx : Z) (ordered_ids : list N)
    (images : list CampaignImage.t) : list CampaignImage.t :=
  match ordered_ids with
  | [] => images
  | img_id :: rest =>
      reorder_loop campaign_id (idx + 1) rest
        (Orm.update CampaignImage.id img_id
           (λ img, if decide (CampaignImage.campaign_id img = campaign_id)
                   then set_order idx img else img)
           images)
  end.

Definition reorder_images (campaign_id : N) (ordered_ids : list N)
    (images : list CampaignImage.t) : list CampaignImage.t :=
  reorder_loop campaign_id 0 ordered_ids images.

(** The row [ImageService.upload_image] adds once the file is stored: the
    column defaults give it order 0, no display time and [active]. *)
Definition upload_image (campaign_id id : N) (campaigns : list Campaign.t)
    (images : list CampaignImage.t) : reply (list CampaignImage.t) :=
  match Orm.get Campaign.id campaign_id campaigns with
  | None => Unhandled
  | Some campaign =>
      if bool_decide (id ∈ (CampaignImage.id <$> images)) then Unhandled
      else Returned
             (images ++ [ {| CampaignImage.id := id;
                             CampaignImage.campaign_id := Campaign.id campaign;
                             CampaignImage.order := 0;
                             CampaignImage.display_time := None;
                             CampaignImage.active := Some true |} ])
  end.

(** The [setattr] loop of [update_image]. *)
Definition apply_update (update_data : ImageUpdate.t) (img : CampaignImage.t)
  : CampaignImage.t :=
  {| CampaignImage.id := CampaignImage.id img;
     CampaignImage.campaign_id := CampaignImage.campaign_id img;
     CampaignImage.order := CampaignImage.order img;
     CampaignImage.display_time :=
       CampaignsCrud.set_nullable (ImageUpdate.display_time update_data)
         (CampaignImage.display_time img);
     CampaignImage.active :=
       CampaignsCrud.set_nullable (ImageUpdate.active update_data)
         (CampaignImage.active img) |}.

(** [update_image]: the [display_time] of the answer and the image table
    it leaves. *)
Definition update_image (image_id : N) (update_data : ImageUpdate.t)
    (campaigns : list Campaign.t) (images : list CampaignImage.t)
  : reply (option Z * list CampaignImage.t) :=
  match Orm.get CampaignImage.id image_id images with
  | None => HTTPException 404
  | Some image =>
      let campaign :=
        Orm.get Campaign.id (CampaignImage.campaign_id image) campaigns in
      let refused :=
        match ImageUpdate.display_time update_data with
        | CampaignUpdate.Given (Some display_time) =>
            (display_time <? 1000) || (display_time >? 60000)
        | _ => false
        end in
      if refused then HTTPException 400
      else
        let image := apply_update update_data image in
        let fallback :=
          match campaign with
          | Some c => Campaign.default_display_time c
          | None => Some 5000
          end in
        Returned
          (match CampaignImage.display_time image with
           | Some t => if t =? 0 then fallback else Some t
           | None => fallback
           end,
           Orm.update CampaignImage.id image_id (apply_update update_data)
             images)
  end.

End Images.
(** ** app/routes/stations.py *)

Module StationCreate.
(** A parsed request body; [name] and [address] are left out. *)
Record t : Type := mk
  { code : string;
    branch_id : N;
    is_active : bool }.
End StationCreate.

Module Stations.



(** [value = ANY (column)] on a nullable array column. *)
Definition sql_any (value : string) (column : pyval) : sql_bool :=
  match column with
  | PyList xs =>
      if bool_decide (Some value ∈ xs) then Some true
      else if bool_decide (None ∈ xs) then None
      else Some false
  | PyNone | PyNum _ => None
  end.

(** The filter of the [active_campaigns] count. *)
Definition referenced (branch_code station_code : string) (c : Campaign.t)
  : bool :=
  sql_where
    (sql_and (sql_and (sql_and (sql_eq (Campaign.status c) ACTIVE)
                               (sql_eq (Campaign.is_deleted c) false))
                      (sql_any branch_code (Campaign.branches c)))
             (sql_any station_code (Campaign.stations c))).

Definition set_inactive (s : Station.t) : Station.t :=
  {| Station.id := Station.id s;
     Station.code := Station.code s;
     Station.branch_id := Station.branch_id s;
     Station.is_active := Some false;
     Station.branch := Station.branch s |}.

(** [delete_station]: [branch.code] on a missing branch is an
    [AttributeError]. *)
Definition delete_station (station_id : N) (stations : list Station.t)
    (campaigns : list Campaign.t) : reply (list Station.t) :=
  match Orm.get Station.id station_id stations with
  | None => HTTPException 404
  | Some station =>
      match Station.branch station with
      | None => Unhandled
      | Some branch =>
          let active_campaigns :=
            length (List.filter
                      (referenced (Branch.code branch) (Station.code station))
                      campaigns) in
          if (0 <? active_campaigns)%nat then HTTPException 409
          else Returned (Orm.update Station.id station_id set_inactive stations)
      end
  end.

End Stations.

(** ** app/dependencies/cache.py *)

Module Cache.

(** [cache(expire, key_prefix)] around a handler, for one request.
    [cached] is the value [client.get(key)] and [json.loads] give: [None]
    when the key is absent or has expired, or when Redis cannot be reached
    (the exception is passed over); the handler runs on [None] only.  What
    the request then stores under the key is not modelled. *)
Definition cache {A} (cached : option A) (func : A) : A :=
  match cached with
  | Some result => result
  | None => func
  end.

End Cache.

(** ** [get_all_active] of app/routes/campaigns.py and app/routes/tablets.py *)

Module ActiveAll.

(** [<] on a nullable integer column as PostgreSQL orders it: NULL is
    larger than every value, so [DESC] puts it first. *)
Definition null_ltb (a b : option Z) : bool :=
  match a, b with
  | Some x, Some y => x <? y
  | Some _, None => true
  | None, _ => false
  end.

Definition order_ltb (a b : option Z * Z) : bool :=
  null_ltb a.1 b.1 || (bool_decide (a.1 = b.1) && (a.2 <? b.2)).

Definition order_key (c : Campaign.t) : option Z * Z :=
  (Campaign.priority c, Campaign.created_at c).

(** [.filter(...).order_by(Campaign.priority.desc(),
    Campaign.created_at.desc()).all()] *)
Definition items (now : Z) (rows : list Campaign.t) : list Campaign.t :=
  sorted order_ltb order_key true
    (List.filter (Campaigns.campaign_filter now) rows).

(** What both handlers put in an entry; the dashboard adds [priority]. *)
Record Entry : Type := mkEntry
  { id : N;
    name : string;
    default_display_time : option Z;
    stations : pyval;
    priority : option (option Z) }.

Definition campaigns_entry (c : Campaign.t) : Entry :=
  {| id := Campaign.id c;
     name := Campaign.name c;
     default_display_time := Campaign.default_display_time c;
     stations := Campaign.stations c;
     priority := Some (Campaign.priority c) |}.

Definition tablets_entry (c : Campaign.t) : Entry :=
  {| id := Campaign.id c;
     name := Campaign.name c;
     default_display_time := Campaign.default_display_time c;
     stations := Campaign.stations c;
     priority := None |}.

(** The dashboard's [get_all_active], under
    [@cache(expire=120, key_prefix="active_all")]: [campaigns] and
    [total]. *)
Definition campaigns_get_all_active (cached : option (list Entry * nat))
    (now : Z) (rows : list Campaign.t) : list Entry * nat :=
  Cache.cache cached
    (campaigns_entry <$> items now rows, length (items now rows)).

(** The tablets' [get_all_active], under
    [@cache(expire=120, key_prefix="tablets_active_all")]. *)
Definition tablets_get_all_active (cached : option (list Entry))
    (now : Z) (rows : list Campaign.t) : list Entry :=
  Cache.cache cached (tablets_entry <$> items now rows).

End ActiveAll.


(** ** Reading aids for the properties of the surrounding code *)

Module Around.

(** The rule a targeting level names, on a parsed body. *)
Definition rule_named (level : string) (branch_code region : pystr)
    (station_code : string) (p : CampaignBase.t) : bool :=
  if String.eqb level "global" then true
  else if String.eqb level "regional"
  then bool_decide (region ∈ (Some <$> CampaignBase.regions p))
  else if String.eqb level "branch"
  then bool_decide (branch_code ∈ (Some <$> CampaignBase.branches p))
  else bool_decide (branch_code ∈ (Some <$> CampaignBase.branches p))
       && bool_decide (Some station_code ∈ (Some <$> CampaignBase.stations p)).

(** A body that sets [stations] and nothing else. *)
Definition only_stations (stations : list string) : CampaignUpdate.t :=
  {| CampaignUpdate.name := CampaignUpdate.Unset;
     CampaignUpdate.status := CampaignUpdate.Unset;
     CampaignUpdate.start_date := CampaignUpdate.Unset;
     CampaignUpdate.end_date := CampaignUpdate.Unset;
     CampaignUpdate.default_display_time := CampaignUpdate.Unset;
     CampaignUpdate.branches := CampaignUpdate.Unset;
     CampaignUpdate.regions := CampaignUpdate.Unset;
     CampaignUpdate.stations := CampaignUpdate.Given (Some stations);
     CampaignUpdate.priority := CampaignUpdate.Unset;
     CampaignUpdate.is_deleted := CampaignUpdate.Unset |}.

(** The resolved campaigns of a station over given tables. *)
Definition resolved (stations : list Station.t) (campaigns : list Campaign.t)
    (station_code : string) (now : Z) : list Campaign.t :=
  Campaigns.Locals.campaigns
    (Campaigns.resolve (mkDb (Ok stations) (Ok campaigns) (Ok []))
       station_code now).

Definition resolved_tablet (stations : list Station.t)
    (campaigns : list Campaign.t) (station_code : string) (now : Z)
  : list Campaign.t :=
  Tablets.Locals.campaigns
    (Tablets.resolve (mkDb (Ok stations) (Ok campaigns) (Ok []))
       station_code now).

(** The filter that drops campaign [id]. *)
Definition other_than (id : N) (c : Campaign.t) : bool :=
  bool_decide (Campaign.id c ≠ id).

(** The order [renumber] gives the image [id], counting on from [idx]. *)
Fixpoint new_order (idx : Z) (remaining : list CampaignImage.t) (id : N)
  : option Z :=
  match remaining with
  | [] => None
  | img :: rest =>
      if decide (CampaignImage.id img = id) then Some (idx + 1)
      else new_order (idx + 1) rest id
  end.

(** The images of a list with orders [idx + 1], [idx + 2], ... *)
Fixpoint numbered (idx : Z) (l : list CampaignImage.t)
  : list CampaignImage.t :=
  match l with
  | [] => []
  | img :: rest => Images.set_order (idx + 1) img :: numbered (idx + 1) rest
  end.

(** A row as [renumber] leaves it. *)
Definition reordered (idx : Z) (remaining : list CampaignImage.t)
    (r : CampaignImage.t) : CampaignImage.t :=
  match new_order idx remaining (CampaignImage.id r) with
  | Some o => Images.set_order o r
  | None => r
  end.

(** The place [reorder_images] gives the image [id]: its index in
    [ordered_ids], counting from [idx]. *)
Fixpoint position (idx : Z) (ordered_ids : list N) (id : N) : option Z :=
  match ordered_ids with
  | [] => None
  | i :: rest =>
      if decide (i = id) then Some idx else position (idx + 1) rest id
  end.

(** A row as [reorder_images] leaves it. *)
Definition placed (campaign_id : N) (idx : Z) (ordered_ids : list N)
    (r : CampaignImage.t) : CampaignImage.t :=
  if decide (CampaignImage.campaign_id r = campaign_id)
  then match position idx ordered_ids (CampaignImage.id r) with
       | Some o => Images.set_order o r
       | None => r
       end
  else r.

(** The images of [l] that [ordered_ids] names, in the order it names
    them, each with its index as order. *)
Fixpoint pick (idx : Z) (ordered_ids : list N) (l : list CampaignImage.t)
  : list CampaignImage.t :=
  match ordered_ids with
  | [] => []
  | i :: rest =>
      match Orm.get CampaignImage.id i l with
      | Some r => Images.set_order idx r :: pick (idx + 1) rest l
      | None => pick (idx + 1) rest l
      end
  end.

(** The filter that drops image [id]. *)
Definition other_image (id : N) (img : CampaignImage.t) : bool :=
  bool_decide (CampaignImage.id img ≠ id).

(** An image's own display time is absent or within the bounds
    [update_image] enforces. *)
Definition display_time_in_bounds (display_time : option Z) : Prop :=
  match display_time with
  | None => True
  | Some t => 1000 ≤ t ≤ 60000
  end.

(** One successful request of the image handlers, over any campaign
    table. *)
Inductive image_step (images : list CampaignImage.t)
  : list CampaignImage.t → Prop :=
| step_upload campaign_id id campaigns images' :
    Images.upload_image campaign_id id campaigns images = Returned images' →
    image_step images images'
| step_update image_id update_data campaigns shown images' :
    Images.update_image image_id update_data campaigns images
    = Returned (shown, images') →
    image_step images images'
| step_delete campaign_id image_id campaigns images' n :
    Images.delete_image campaign_id image_id campaigns images
    = Returned (images', n) →
    image_step images images'
| step_reorder campaign_id ordered_ids :
    image_step images (Images.reorder_images campaign_id ordered_ids images).

End Around.
Import Around.

(** ** Example requests over the tables of [Scenario] *)

Module Example.

Definition campaigns : list Campaign.t :=
  [Scenario.A; Scenario.B; Scenario.C; Scenario.D].

(** A body for a station-level campaign. *)
Definition body : CampaignBase.t :=
  {| CampaignBase.name := "E";
     CampaignBase.status := Some "active";
     CampaignBase.start_date := 0;
     CampaignBase.end_date := 2000;
     CampaignBase.default_display_time := Some 5000;
     CampaignBase.branches := ["SP01"];
     CampaignBase.regions := [];
     CampaignBase.stations := ["001"];
     CampaignBase.priority := Some 1 |}.

Definition created : Campaign.t * list Campaign.t :=
  Eval vm_compute in
    match CampaignsCrud.create_campaign body 5 5 [Scenario.A] with
    | Returned r => r
    | _ => (Scenario.A, [])
    end.

(** Image 12 of campaign 3 is deleted. *)
Definition after_delete : list CampaignImage.t * nat :=
  Eval vm_compute in
    match Images.delete_image 3 12 campaigns Scenario.images with
    | Returned r => r
    | _ => ([], 0%nat)
    end.

(** One more image for campaign 3, once its images are renumbered. *)
Definition after_upload : list CampaignImage.t :=
  Eval vm_compute in
    match Images.upload_image 3 15 campaigns after_delete.1 with
    | Returned r => r
    | _ => []
    end.

(** A campaign that ended before [Scenario.now]. *)
Definition ended : Campaign.t :=
  {| Campaign.id := 3; Campaign.name := "C";
     Campaign.status := Some ACTIVE;
     Campaign.start_date := 0; Campaign.end_date := 500;
     Campaign.default_display_time := Some 5000;
     Campaign.branches := PyList [Some "SP01"];
     Campaign.regions := PyList [];
     Campaign.stations := PyList [];
     Campaign.priority := Some 3;
     Campaign.is_deleted := Some false;
     Campaign.created_at := 3 |}.

(** A station "002" for branch 1. *)
Definition station_002 : StationCreate.t :=
  {| StationCreate.code := "002";
     StationCreate.branch_id := 1;
     StationCreate.is_active := true |}.

Definition stations_after_delete : list Station.t :=
  Eval vm_compute in
    match Stations.delete_station 1
            [Scenario.station_001; Scenario.station_001_of_020202]
            [Scenario.A; Scenario.F] with
    | Returned r => r
    | _ => []
    end.

(** A body that sets the display time of an image to eight seconds. *)
Definition eight_seconds : ImageUpdate.t :=
  {| ImageUpdate.display_time := CampaignUpdate.Given (Some 8000);
     ImageUpdate.active := CampaignUpdate.Unset |}.

(** The image table after one upload for campaign 3 and that update. *)
Definition built : list CampaignImage.t :=
  [Scenario.image 11 3 0 (Some 8000) true].

End Example.

(** * Properties *)

(** A decidable side condition, by evaluation. *)
Ltac by_evaluation := apply (bool_decide_unpack _); vm_compute; exact I.

(** ** [sorted]: a permutation, ordered, and unique on distinct keys *)

Section sorted_facts.
Context {A K : Type} (ltb : K → K → bool) (key : A → K).
Hypothesis ltb_asym : ∀ a b, ltb a b = true → ltb b a = false.
Hypothesis ltb_negtrans :
  ∀ a b c, ltb a b = false → ltb b c = false → ltb a c = false.

Lemma insort_Permutation reverse x l :
  insort ltb key reverse x l ≡ₚ x :: l.
Proof.
  induction l as [|y l IH]; simpl; [done|].
  destruct (if reverse then _ else _); [|done].
  rewrite IH. apply Permutation_swap.
Qed.

Lemma sorted_Permutation reverse l : sorted ltb key reverse l ≡ₚ l.
Proof.
  induction l as [|x l IH]; simpl; [done|].
  by rewrite insort_Permutation, IH.
Qed.

Lemma elem_of_sorted reverse l x : x ∈ sorted ltb key reverse l ↔ x ∈ l.
Proof. by rewrite sorted_Permutation. Qed.

Lemma insort_StronglySorted reverse x l :
  StronglySorted (ahead ltb key reverse) l →
  StronglySorted (ahead ltb key reverse) (insort ltb key reverse x l).
Proof.
  induction 1 as [|y l Hl IH Hy]; simpl.
  { repeat constructor. }
  destruct (if reverse then _ else _) eqn:Hcmp.
  - constructor; [done|].
    rewrite insort_Permutation. constructor; [|done].
    unfold ahead. destruct reverse; by apply ltb_asym.
  - constructor; [by constructor|].
    constructor; [by destruct reverse|].
    eapply Forall_impl; [exact Hy|]. intros z Hz. unfold ahead in *.
    destruct reverse; eauto.
Qed.

Lemma sorted_StronglySorted reverse l :
  StronglySorted (ahead ltb key reverse) (sorted ltb key reverse l).
Proof.
  induction l as [|x l IH]; simpl; [constructor|].
  by apply insort_StronglySorted.
Qed.

(** Stability: a tie is never reordered. *)
Lemma insort_tie reverse x l :
  Forall (λ y, ahead ltb key reverse x y) l → insort ltb key reverse x l = x :: l.
Proof.
  destruct 1 as [|y l Hy _]; simpl; [done|].
  unfold ahead in Hy. by destruct reverse; rewrite Hy.
Qed.

Lemma sorted_fixed reverse l :
  StronglySorted (ahead ltb key reverse) l → sorted ltb key reverse l = l.
Proof.
  induction 1 as [|x l Hl IH Hx]; simpl; [done|].
  rewrite IH. by apply insort_tie.
Qed.

(** Two orders of the same rows are sorted alike when equal keys mean
    equal rows. *)
Lemma sorted_unique reverse l1 l2 :
  (∀ a b, ltb a b = false → ltb b a = false → a = b) →
  (∀ x y, x ∈ l1 → y ∈ l1 → key x = key y → x = y) →
  l1 ≡ₚ l2 →
  sorted ltb key reverse l1 = sorted ltb key reverse l2.
Proof.
  intros Htotal Hinj Hperm.
  apply (StronglySorted_unique_strong (ahead ltb key reverse));
    [|apply sorted_StronglySorted..|by rewrite !sorted_Permutation].
  intros x y Hx Hy Hxy Hyx.
  apply elem_of_sorted in Hx. apply elem_of_sorted in Hy.
  rewrite <-Hperm in Hy. apply Hinj; [done..|].
  unfold ahead in *. destruct reverse; by apply Htotal.
Qed.

End sorted_facts.

Lemma tuple_ltb_asym a b : tuple_ltb a b = true → tuple_ltb b a = false.
Proof. destruct a, b; unfold tuple_ltb; simpl. lia. Qed.

Lemma tuple_ltb_negtrans a b c :
  tuple_ltb a b = false → tuple_ltb b c = false → tuple_ltb a c = false.
Proof. destruct a, b, c; unfold tuple_ltb; simpl. lia. Qed.

Lemma tuple_ltb_total a b :
  tuple_ltb a b = false → tuple_ltb b a = false → a = b.
Proof.
  destruct a, b; unfold tuple_ltb; simpl. intros. f_equal; lia.
Qed.

(** ** The two surfaces run the same resolution *)

Lemma applies_agree station branch_code region station_code c :
  Tablets.applies station branch_code region station_code c
  = Campaigns.applies station branch_code region station_code c.
Proof. reflexivity. Qed.

Lemma filter_applicable_agree station branch_code region station_code l :
  Tablets.filter_applicable station branch_code region station_code l
  = Campaigns.filter_applicable station branch_code region station_code l.
Proof.
  induction l as [|c l IH]; simpl; [done|].
  by rewrite applies_agree, IH.
Qed.

Lemma unique_loop_agree seen l :
  Tablets.unique_loop seen l = Campaigns.unique_loop seen l.
Proof.
  revert seen. induction l as [|c l IH]; intros seen; simpl; [done|].
  by rewrite !IH.
Qed.

Lemma unique_campaigns_agree l :
  Tablets.unique_campaigns l = Campaigns.unique_campaigns l.
Proof. apply unique_loop_agree. Qed.

Lemma resolve_agree db station_code now :
  let t := Tablets.resolve db station_code now in
  let d := Campaigns.resolve db station_code now in
  Tablets.Locals.station t = Campaigns.Locals.station d
  ∧ Tablets.Locals.branch_code t = Campaigns.Locals.branch_code d
  ∧ Tablets.Locals.region t = Campaigns.Locals.region d
  ∧ Tablets.Locals.campaigns t = Campaigns.Locals.campaigns d.
Proof.
  unfold Tablets.resolve, Campaigns.resolve.
  change (Tablets.station_query db station_code)
    with (Campaigns.station_query db station_code).
  change (Tablets.campaign_query db now) with (Campaigns.campaign_query db now).
  destruct (Campaigns.station_query _ _) as [station|]; simpl; [|done].
  destruct (Campaigns.campaign_query _ _) as [all|]; simpl; [|done].
  destruct station as [st|]; simpl;
    rewrite filter_applicable_agree;
    destruct (Campaigns.filter_applicable _ _ _ _ _); simpl;
    rewrite ?unique_campaigns_agree; done.
Qed.

Lemma truthy_or_empty v : truthy (or_empty v) = truthy v.
Proof. unfold or_empty. by destruct (truthy v) eqn:E. Qed.

Lemma targeting_level_agree c :
  Tablets.targeting_level c = Campaigns.targeting_level c.
Proof.
  unfold Tablets.targeting_level, Campaigns.targeting_level.
  by rewrite !truthy_or_empty.
Qed.

(** ** Lists *)

Lemma elem_of_List_filter {A} (f : A → bool) l x :
  x ∈ List.filter f l ↔ x ∈ l ∧ f x = true.
Proof. rewrite !list_elem_of_In. apply filter_In. Qed.

Lemma List_filter_Permutation {A} (f : A → bool) l1 l2 :
  l1 ≡ₚ l2 → List.filter f l1 ≡ₚ List.filter f l2.
Proof.
  induction 1 as [|x l1 l2 _ IH|x y l|l1 l2 l3 _ IH1 _ IH2]; simpl.
  - done.
  - destruct (f x); by rewrite IH.
  - destruct (f x), (f y); try done. apply Permutation_swap.
  - by rewrite IH1.
Qed.

(** ** The selection loop *)

Section filter_applicable_facts.
Context (station : option Station.t) (branch_code region : pystr)
        (station_code : string).

Abbreviation applies := (Campaigns.applies station branch_code region station_code).
Abbreviation filter_applicable :=
  (Campaigns.filter_applicable station branch_code region station_code).

Lemma filter_applicable_Ok l out :
  filter_applicable l = Ok out ↔
  Forall (λ c, returns (applies c)) l
  ∧ out = List.filter (λ c, kept (applies c)) l.
Proof.
  revert out. induction l as [|c l IH]; intros out; simpl.
  { split; [intros [= <-]; by split|intros [_ ->]; done]. }
  rewrite Forall_cons.
  destruct (applies c) as [b|e] eqn:Hc; simpl.
  2:{ split; [done|]. by intros [[[] _] _]. }
  destruct (filter_applicable l) as [tl|e]; simpl.
  - destruct (IH tl) as [[Hl ->] _]; [done|]. split.
    + intros [= <-]. split; [by split|]. by destruct b.
    + intros [_ ->]. by destruct b.
  - split; [done|]. intros [[_ Hl] _].
    destruct (IH (List.filter (λ c, kept (applies c)) l)) as [_ IH'].
    by specialize (IH' (conj Hl eq_refl)).
Qed.

Lemma filter_applicable_Permutation l1 l2 out1 :
  l1 ≡ₚ l2 → filter_applicable l1 = Ok out1 →
  ∃ out2, filter_applicable l2 = Ok out2 ∧ out1 ≡ₚ out2.
Proof.
  intros Hperm [Hall ->]%filter_applicable_Ok.
  exists (List.filter (λ c, kept (applies c)) l2). split.
  - apply filter_applicable_Ok. split; [by rewrite <-Hperm|done].
  - by apply List_filter_Permutation.
Qed.

Lemma filter_applicable_elem_of l out c :
  filter_applicable l = Ok out →
  (c ∈ out ↔ c ∈ l ∧ applies c = Ok true).
Proof.
  intros [Hall ->]%filter_applicable_Ok.
  rewrite elem_of_List_filter. split; intros [Hc Hk]; (split; [done|]).
  - by destruct (applies c) as [[]|].
  - by rewrite Hk.
Qed.

End filter_applicable_facts.

(** ** The [seen] loop *)

Lemma unique_loop_sub seen l c :
  c ∈ Campaigns.unique_loop seen l → c ∈ l.
Proof.
  revert seen. induction l as [|x l IH]; intros seen; simpl; [done|].
  destruct (decide _); [|rewrite elem_of_cons]; set_solver.
Qed.

Lemma unique_loop_ids seen l i :
  i ∈ (Campaign.id <$> Campaigns.unique_loop seen l) ↔
  (i ∉ seen) ∧ i ∈ (Campaign.id <$> l).
Proof.
  revert seen. induction l as [|x l IH]; intros seen; simpl.
  { set_solver. }
  destruct (decide _); rewrite ?fmap_cons, ?elem_of_cons, IH, ?elem_of_cons.
  - set_solver.
  - destruct (decide (i = Campaign.id x)); set_solver.
Qed.

Lemma unique_campaigns_sub l c :
  c ∈ Campaigns.unique_campaigns l → c ∈ l.
Proof.
  intros Hc%unique_loop_sub. by apply elem_of_sorted in Hc.
Qed.

Lemma unique_campaigns_ids l i :
  i ∈ (Campaign.id <$> Campaigns.unique_campaigns l) ↔ i ∈ (Campaign.id <$> l).
Proof.
  unfold Campaigns.unique_campaigns. rewrite unique_loop_ids.
  rewrite (sorted_Permutation tuple_ltb Campaigns.sort_key true l). set_solver.
Qed.

(** A primary key leaves the [seen] loop nothing to drop. *)
Lemma unique_loop_NoDup seen l :
  NoDup (Campaign.id <$> l) →
  (∀ c, c ∈ l → Campaign.id c ∉ seen) →
  Campaigns.unique_loop seen l = l.
Proof.
  revert seen. induction l as [|x l IH]; intros seen Hnd Hseen; simpl; [done|].
  apply NoDup_cons in Hnd as [Hx Hnd].
  destruct (decide _) as [Hin|_].
  { exfalso. eapply Hseen; [left|done]. }
  f_equal. apply IH; [done|]. intros c Hc.
  rewrite elem_of_union, elem_of_singleton. intros [Heq|Hin].
  - apply Hx. rewrite <-Heq. by apply list_elem_of_fmap_2.
  - eapply Hseen; [by right|done].
Qed.

(** ** The image loop of the tablet surface *)

Lemma campaigns_with_images_Ok db rows l :
  q_images db = Ok rows →
  Tablets.campaigns_with_images db l
  = Ok ((λ c, Tablets.item c (Tablets.format_image c <$> listed_images rows c))
          <$> l).
Proof.
  intros Hrows. induction l as [|c l IH]; simpl; [done|].
  unfold Tablets.image_query. rewrite Hrows, IH. done.
Qed.

(** ** C8 *)

Lemma responses_same_selection db station_code now rows :
  q_images db = Ok rows →
  dashboard_selection <$> Campaigns.active_by_station db station_code now
  = tablet_selection <$> Tablets.get_active_for_station db station_code now.
Proof.
  intros Himg.
  unfold Campaigns.active_by_station, Tablets.get_active_for_station.
  destruct (resolve_agree db station_code now) as (Hs & Hb & Hr & Hc).
  simpl in Hs, Hb, Hr, Hc.
  rewrite (campaigns_with_images_Ok _ _ _ Himg). simpl.
  unfold Tablets.if_station, Campaigns.if_station.
  rewrite Hs, Hb, Hr, Hc.
  destruct (Campaigns.Locals.station _) as [[st|]|]; simpl; [| |done].
  - destruct (Campaigns.Locals.branch_code _) as [bc|]; simpl; [|done].
    destruct (Campaigns.Locals.region _) as [rg|]; simpl; [|done].
    unfold dashboard_selection, tablet_selection; simpl.
    rewrite <-!list_fmap_compose. do 3 f_equal.
    apply list_fmap_ext; intros i c _; simpl.
    by rewrite targeting_level_agree.
  - unfold dashboard_selection, tablet_selection; simpl.
    rewrite <-!list_fmap_compose. do 3 f_equal.
    apply list_fmap_ext; intros i c _; simpl.
    by rewrite targeting_level_agree.
Qed.

(** C8: for every station code, timestamp and database state the two
    handlers resolve the same station, branch code, region and list of
    campaigns, in the same order, and give every campaign the same
    targeting level; whenever the tablet surface can read its images the
    two responses carry the same envelope and the same campaigns with the
    same levels (or fail alike). *)
Theorem dashboard_tablet_same_selection
    (db : Db) (station_code : string) (now : Z) :
  Tablets.Locals.station (Tablets.resolve db station_code now)
  = Campaigns.Locals.station (Campaigns.resolve db station_code now)
  ∧ Tablets.Locals.branch_code (Tablets.resolve db station_code now)
    = Campaigns.Locals.branch_code (Campaigns.resolve db station_code now)
  ∧ Tablets.Locals.region (Tablets.resolve db station_code now)
    = Campaigns.Locals.region (Campaigns.resolve db station_code now)
  ∧ Tablets.Locals.campaigns (Tablets.resolve db station_code now)
    = Campaigns.Locals.campaigns (Campaigns.resolve db station_code now)
  ∧ (∀ c, Tablets.targeting_level c = Campaigns.targeting_level c)
  ∧ (∀ rows,
       q_images db = Ok rows →
       dashboard_selection <$> Campaigns.active_by_station db station_code now
       = tablet_selection
         <$> Tablets.get_active_for_station db station_code now).
Proof.
  destruct (resolve_agree db station_code now) as (Hs & Hb & Hr & Hc).
  do 4 (split; [done|]). split.
  - apply targeting_level_agree.
  - apply responses_same_selection.
Qed.

Lemma dashboard_tablet_same_selection_witness :
  dashboard_selection
    <$> Campaigns.active_by_station Scenario.db "001" Scenario.now
  = tablet_selection
    <$> Tablets.get_active_for_station Scenario.db "001" Scenario.now.
Proof.
  exact (proj2 (proj2 (proj2 (proj2 (proj2
           (dashboard_tablet_same_selection Scenario.db "001"
              Scenario.now)))))
           Scenario.images eq_refl).
Defined.

(** ** The [try] statement, case by case *)

Lemma resolve_Ok db station_code now station all out :
  Campaigns.station_query db station_code = Ok station →
  Campaigns.campaign_query db now = Ok all →
  Campaigns.filter_applicable station (branch_code_at station)
    (region_at station) station_code all = Ok out →
  Campaigns.resolve db station_code now
  = Campaigns.Locals.mk (Some station) (Some (branch_code_at station))
      (Some (region_at station)) (Campaigns.unique_campaigns out).
Proof.
  intros Hs Hc Hf. unfold Campaigns.resolve. rewrite Hs, Hc.
  destruct station as [[? ? ? ? [b|]]|];
    unfold branch_code_at, region_at, branch_code_of, region_of in *;
    simpl in *; by rewrite Hf.
Qed.

Lemma resolve_classification_error db station_code now station all e :
  Campaigns.station_query db station_code = Ok station →
  Campaigns.campaign_query db now = Ok all →
  Campaigns.filter_applicable station (branch_code_at station)
    (region_at station) station_code all = Raise e →
  Campaigns.resolve db station_code now
  = Campaigns.Locals.mk (Some station) (Some (branch_code_at station))
      (Some (region_at station)) [].
Proof.
  intros Hs Hc Hf. unfold Campaigns.resolve. rewrite Hs, Hc.
  destruct station as [[? ? ? ? [b|]]|];
    unfold branch_code_at, region_at, branch_code_of, region_of in *;
    simpl in *; by rewrite Hf.
Qed.

Lemma resolve_fetch_error db station_code now station e :
  Campaigns.station_query db station_code = Ok station →
  Campaigns.campaign_query db now = Raise e →
  Campaigns.resolve db station_code now
  = Campaigns.Locals.mk (Some station) None None [].
Proof. intros Hs Hc. unfold Campaigns.resolve. by rewrite Hs, Hc. Qed.

(** Whatever is in the resolved list was fetched, is a candidate row and
    was kept by the loop. *)
Lemma resolve_elem_of db station_code now c :
  c ∈ Campaigns.Locals.campaigns (Campaigns.resolve db station_code now) →
  ∃ station rows,
    Campaigns.station_query db station_code = Ok station
    ∧ q_campaigns db = Ok rows ∧ c ∈ rows
    ∧ Campaigns.campaign_filter now c = true
    ∧ Campaigns.applies station (branch_code_at station) (region_at station)
        station_code c = Ok true.
Proof.
  destruct (Campaigns.station_query db station_code) as [station|e] eqn:Hs.
  2:{ unfold Campaigns.resolve. rewrite Hs. simpl. by intros ?%elem_of_nil. }
  destruct (Campaigns.campaign_query db now) as [all|e] eqn:Hc.
  2:{ rewrite (resolve_fetch_error _ _ _ _ _ Hs Hc). simpl.
      by intros ?%elem_of_nil. }
  destruct (Campaigns.filter_applicable station (branch_code_at station)
              (region_at station) station_code all) as [out|e] eqn:Hf.
  2:{ rewrite (resolve_classification_error _ _ _ _ _ _ Hs Hc Hf). simpl.
      by intros ?%elem_of_nil. }
  rewrite (resolve_Ok _ _ _ _ _ _ Hs Hc Hf). simpl.
  intros Hin%unique_campaigns_sub.
  apply (filter_applicable_elem_of _ _ _ _ _ _ _ Hf) in Hin as [Hin Happ].
  unfold Campaigns.campaign_query in Hc.
  destruct (q_campaigns db) as [rows|] eqn:Hrows; simpl in Hc; [|done].
  injection Hc as <-. apply elem_of_List_filter in Hin as [Hin Hcand].
  by exists station, rows.
Qed.

(** ** C1 *)

Lemma sort_key_fst c : (Campaigns.sort_key c).1 = - priority_or_zero c.
Proof.
  unfold Campaigns.sort_key, priority_or_zero.
  destruct (Campaign.priority c) as [p|]; simpl; [|done].
  by destruct (Z.eqb_spec p 0) as [->|].
Qed.

Lemma ahead_listed_before a b :
  ahead tuple_ltb Campaigns.sort_key true a b ↔ listed_before a b.
Proof.
  unfold ahead, tuple_ltb, listed_before.
  rewrite orb_false_iff, andb_false_iff, !Z.ltb_ge, Z.eqb_neq, !sort_key_fst.
  simpl. lia.
Qed.

Lemma unique_loop_StronglySorted (R : relation Campaign.t) seen l :
  StronglySorted R l → StronglySorted R (Campaigns.unique_loop seen l).
Proof.
  intros Hl. revert seen.
  induction Hl as [|x l Hl IH Hx]; intros seen; simpl; [constructor|].
  destruct (decide _); [done|]. constructor; [done|].
  apply Forall_forall. intros y Hy%unique_loop_sub.
  by eapply Forall_forall in Hx.
Qed.

(** What the ranking does in general: on both surfaces the resolved list
    runs from the lowest priority to the highest, newest first among
    equal priorities. *)
Lemma resolved_campaigns_lowest_priority_first db station_code now :
  StronglySorted listed_before
    (Campaigns.Locals.campaigns (Campaigns.resolve db station_code now))
  ∧ StronglySorted listed_before
      (Tablets.Locals.campaigns (Tablets.resolve db station_code now)).
Proof.
  assert (StronglySorted listed_before
            (Campaigns.Locals.campaigns
               (Campaigns.resolve db station_code now))) as Hd.
  { unfold Campaigns.resolve.
    destruct (Campaigns.station_query _ _) as [station|]; [|constructor].
    destruct (Campaigns.campaign_query _ _) as [all|]; [|constructor].
    destruct (match station with Some _ => _ | None => _ end) as [bc rg].
    destruct (Campaigns.filter_applicable _ _ _ _ _) as [out|];
      [|constructor].
    simpl. apply unique_loop_StronglySorted.
    pose proof (sorted_StronglySorted tuple_ltb Campaigns.sort_key
                  tuple_ltb_asym tuple_ltb_negtrans true out) as Hs.
    apply (StronglySorted_fmap id _ listed_before) in Hs.
    - by rewrite list_fmap_id in Hs.
    - intros x y. apply ahead_listed_before. }
  split; [done|].
  destruct (resolve_agree db station_code now) as (_ & _ & _ & Hc).
  simpl in Hc. by rewrite Hc.
Qed.

(** C1 (defect in the code): in the scenario of section 8.7 both surfaces
    rank the resolved campaigns [A; C; B]: lowest priority first, where
    the specification requires [B; C; A].  The sort key negates the
    priority and [reverse=True] then inverts the order once more. *)
Theorem scenario_ranked_lowest_priority_first :
  Campaigns.Locals.campaigns
    (Campaigns.resolve Scenario.db "001" Scenario.now)
  = [Scenario.A; Scenario.C; Scenario.B]
  ∧ Tablets.Locals.campaigns
      (Tablets.resolve Scenario.db "001" Scenario.now)
    = [Scenario.A; Scenario.C; Scenario.B].
Proof. split; vm_compute; reflexivity. Qed.

(** ** C3 *)

Lemma campaign_filter_candidate now c :
  Campaigns.campaign_filter now c = true ↔ candidate now c.
Proof.
  unfold Campaigns.campaign_filter, candidate, sql_eq.
  destruct (Campaign.is_deleted c) as [[]|], (Campaign.status c) as [[]|];
    simpl;
    destruct (Z.leb_spec (Campaign.start_date c) now),
             (Z.geb_spec (Campaign.end_date c) now); simpl;
    split; try done; try (intros (? & ? & ?); done || lia).
Qed.

(** C3: on both surfaces a fetched row is a candidate exactly when
    [is_deleted] is false, the stored status is "active" and
    [start_date <= now <= end_date], both bounds included: a campaign that
    starts now or ends now is a candidate, one that ended before now is
    not, and a paused campaign never is. *)
Theorem candidates_are_live_active_and_in_window (now : Z) (c : Campaign.t) :
  (Campaigns.campaign_filter now c = true ↔ candidate now c)
  ∧ (Tablets.campaign_filter now c = true ↔ candidate now c)
  ∧ (∀ stations images rows,
       Campaigns.campaign_query (mkDb stations (Ok rows) images) now
       = Ok (List.filter (Campaigns.campaign_filter now) rows)
       ∧ Tablets.campaign_query (mkDb stations (Ok rows) images) now
         = Ok (List.filter (Campaigns.campaign_filter now) rows)
       ∧ (c ∈ List.filter (Campaigns.campaign_filter now) rows
          ↔ c ∈ rows ∧ candidate now c))
  ∧ (Campaign.is_deleted c = Some false → Campaign.status c = Some ACTIVE →
     Campaign.start_date c = now → now ≤ Campaign.end_date c →
     Campaigns.campaign_filter now c = true)
  ∧ (Campaign.is_deleted c = Some false → Campaign.status c = Some ACTIVE →
     Campaign.end_date c = now → Campaign.start_date c ≤ now →
     Campaigns.campaign_filter now c = true)
  ∧ (Campaign.end_date c < now → Campaigns.campaign_filter now c = false)
  ∧ (Campaign.status c = Some PAUSED →
     Campaigns.campaign_filter now c = false).
Proof.
  pose proof (campaign_filter_candidate now c) as Hiff.
  split; [done|]. split; [done|]. split.
  { intros stations images rows. split; [done|]. split; [done|].
    by rewrite elem_of_List_filter, Hiff. }
  split; [|split; [|split]].
  - intros. apply Hiff. unfold candidate. repeat split; (done || lia).
  - intros. apply Hiff. unfold candidate. repeat split; (done || lia).
  - intros Hlt. apply not_true_is_false. rewrite Hiff.
    unfold candidate. lia.
  - intros Hp. apply not_true_is_false. rewrite Hiff.
    unfold candidate. rewrite Hp. by intros (_ & [=] & _).
Qed.

(** ** The handlers, read on the columns *)


Lemma array_of_inv v xs :
  array_of v = Some xs → or_empty v = PyList xs ∧ truthy v = nonempty xs.
Proof.
  destruct v as [|[|x l]|n]; simpl; intros [= <-]; by split.
Qed.


Lemma applies_station_level station branch_code region station_code c bs ss :
  Campaign.branches c = PyList bs → Campaign.stations c = PyList ss →
  bs ≠ [] → ss ≠ [] →
  Campaigns.applies station branch_code region station_code c = Ok true →
  is_Some station ∧ branch_code ∈ bs ∧ Some station_code ∈ ss.
Proof.
  intros Hb Hs Hbs Hss. unfold Campaigns.applies. rewrite Hb, Hs.
  destruct bs as [|b bs]; [done|]. destruct ss as [|s ss]; [done|].
  simpl. destruct station as [st|]; [|done].
  destruct (truthy (or_empty (Campaign.regions c))); simpl;
    (destruct (bool_decide (branch_code ∈ b :: bs)) eqn:Hin; simpl; [|done]);
    intros [= Hin']; apply bool_decide_eq_true in Hin, Hin'; by repeat split.
Qed.


Lemma station_filter_spec station_code s :
  Campaigns.station_filter station_code s = true ↔
  Station.code s = station_code ∧ Station.is_active s = Some true.
Proof.
  unfold Campaigns.station_filter, sql_eq. simpl.
  destruct (Station.is_active s) as [[]|]; simpl;
    case_bool_decide; split; try done; by intros [? ?].
Qed.

Lemma station_query_unknown db station_code stations :
  q_stations db = Ok stations →
  (∀ s, s ∈ stations →
        ¬ (Station.code s = station_code ∧ Station.is_active s = Some true)) →
  Campaigns.station_query db station_code = Ok None.
Proof.
  intros Hq Hnone. unfold Campaigns.station_query. rewrite Hq. simpl.
  do 2 f_equal. clear Hq.
  induction stations as [|s l IH]; simpl; [done|].
  destruct (Campaigns.station_filter station_code s) eqn:Hf.
  - exfalso. apply (Hnone s); [left|].
    by apply station_filter_spec.
  - apply IH. intros s' Hs'. apply Hnone. by right.
Qed.

Lemma filter_applicable_unknown station_code l :
  Campaigns.filter_applicable None None None station_code l
  = Ok (List.filter no_targets l).
Proof.
  induction l as [|c l IH]; simpl; [done|]. rewrite IH.
  unfold Campaigns.applies, no_targets. rewrite !truthy_or_empty.
  by destruct (negb _ && negb _ && negb _).
Qed.


(** The tablet handler, read over the locals of the dashboard's [try]
    statement. *)
Lemma get_active_for_station_unfold db station_code now :
  Tablets.get_active_for_station db station_code now
  = (let fr := Campaigns.resolve db station_code now in
     items ← Tablets.campaigns_with_images db (Campaigns.Locals.campaigns fr);
     branch_code ← Campaigns.if_station fr "branch_code"
                      (Campaigns.Locals.branch_code fr);
     region ← Campaigns.if_station fr "region" (Campaigns.Locals.region fr);
     mret {| Tablets.Response.station_code := station_code;
             Tablets.Response.branch_code := branch_code;
             Tablets.Response.region := region;
             Tablets.Response.campaigns := items;
             Tablets.Response.total :=
               length (Campaigns.Locals.campaigns fr);
             Tablets.Response.cache_ttl := 120 |}).
Proof.
  unfold Tablets.get_active_for_station.
  destruct (resolve_agree db station_code now) as (Hs & Hb & Hr & Hc).
  simpl in *. unfold Tablets.if_station, Campaigns.if_station.
  by rewrite Hs, Hb, Hr, Hc.
Qed.


Lemma resolve_location db station_code now station all :
  Campaigns.station_query db station_code = Ok station →
  Campaigns.campaign_query db now = Ok all →
  let fr := Campaigns.resolve db station_code now in
  Campaigns.Locals.station fr = Some station
  ∧ Campaigns.Locals.branch_code fr = Some (branch_code_at station)
  ∧ Campaigns.Locals.region fr = Some (region_at station).
Proof.
  intros Hs Hc.
  destruct (Campaigns.filter_applicable station (branch_code_at station)
              (region_at station) station_code all) as [out|e] eqn:Hf.
  - by rewrite (resolve_Ok _ _ _ _ _ _ Hs Hc Hf).
  - by rewrite (resolve_classification_error _ _ _ _ _ _ Hs Hc Hf).
Qed.

Lemma head_List_filter_Some {A} (f : A → bool) l x :
  head (List.filter f l) = Some x → x ∈ l ∧ f x = true.
Proof.
  intros Hhd. apply elem_of_List_filter.
  destruct (List.filter f l); simplify_eq/=. by left.
Qed.

Lemma head_filter_None {A} (f : A → bool) l :
  head (List.filter f l) = None ↔ ∀ x, x ∈ l → f x = false.
Proof.
  destruct (List.filter f l) as [|y l'] eqn:Hf; simpl.
  - split; [|done]. intros _ x Hx. destruct (f x) eqn:Hfx; [|done].
    assert (x ∈ List.filter f l) as Hin by by apply elem_of_List_filter.
    rewrite Hf in Hin. by apply elem_of_nil in Hin.
  - split; [done|]. intros Hall.
    assert (y ∈ List.filter f l) as [Hy Hfy]%elem_of_List_filter
      by (rewrite Hf; left).
    rewrite (Hall y Hy) in Hfy. done.
Qed.

Lemma NoDup_fmap_eq {A B} (f : A → B) l x y :
  NoDup (f <$> l) → x ∈ l → y ∈ l → f x = f y → x = y.
Proof.
  induction l as [|z l IH]; [by intros _ ?%elem_of_nil|].
  rewrite fmap_cons. intros [Hz Hnd]%NoDup_cons.
  intros [->|Hx]%elem_of_cons [->|Hy]%elem_of_cons Heq; try done.
  - exfalso. apply Hz. rewrite Heq. by apply list_elem_of_fmap_2.
  - exfalso. apply Hz. rewrite <-Heq. by apply list_elem_of_fmap_2.
  - by apply IH.
Qed.

Lemma NoDup_fmap_List_filter {A B} (f : A → B) (p : A → bool) l :
  NoDup (f <$> l) → NoDup (f <$> List.filter p l).
Proof.
  induction l as [|r l IH]; [done|]. rewrite fmap_cons.
  intros [Hr Hnd]%NoDup_cons. cbn [List.filter].
  destruct (p r); [|by apply IH]. rewrite fmap_cons. apply NoDup_cons.
  split; [|by apply IH].
  intros (y & Hy & [Hin _]%elem_of_List_filter)%list_elem_of_fmap.
  apply Hr. rewrite Hy. by apply list_elem_of_fmap_2.
Qed.

Lemma station_filter_active_with_code station_code s :
  Campaigns.station_filter station_code s = active_with_code station_code s.
Proof.
  apply eq_true_iff_eq. rewrite station_filter_spec.
  unfold active_with_code. by rewrite bool_decide_eq_true.
Qed.

Lemma station_query_active_station db station_code stations :
  q_stations db = Ok stations →
  Campaigns.station_query db station_code
  = Ok (active_station stations station_code).
Proof.
  intros Hq. unfold Campaigns.station_query, active_station. rewrite Hq.
  simpl. do 2 f_equal. apply List.filter_ext.
  intros s. apply station_filter_active_with_code.
Qed.

Lemma active_station_Some stations station_code st :
  active_station stations station_code = Some st →
  st ∈ stations ∧ Station.code st = station_code
  ∧ Station.is_active st = Some true.
Proof.
  intros [Hin Hf]%head_List_filter_Some.
  by apply bool_decide_eq_true in Hf.
Qed.

Lemma active_station_None stations station_code :
  active_station stations station_code = None ↔
  ∀ s, s ∈ stations →
       ¬ (Station.code s = station_code ∧ Station.is_active s = Some true).
Proof.
  unfold active_station. rewrite head_filter_None.
  apply forall_proper. intros s. unfold active_with_code.
  by rewrite bool_decide_eq_false.
Qed.

Lemma active_station_first stations station_code pre s post :
  stations = pre ++ s :: post →
  Forall (λ x, Station.code x ≠ station_code
               ∨ Station.is_active x ≠ Some true) pre →
  Station.code s = station_code → Station.is_active s = Some true →
  active_station stations station_code = Some s.
Proof.
  intros -> Hpre Hcode Hact. unfold active_station.
  induction Hpre as [|x pre Hx _ IH]; simpl.
  - unfold active_with_code. by rewrite bool_decide_eq_true_2.
  - unfold active_with_code at 1. rewrite bool_decide_eq_false_2; [done|].
    intros [? ?]. by destruct Hx.
Qed.

(** One turn of the loop, on a typed row: the decision of the four
    rules. *)
Lemma applies_rule station station_code c :
  well_typed c →
  Campaigns.applies station (branch_code_at station) (region_at station)
    station_code c
  = Ok (rule_includes (location_of station) station_code c).
Proof.
  intros ([bs Hb] & [rs Hr] & [ss Hs]).
  unfold rule_includes. rewrite Hb, Hr, Hs.
  apply array_of_inv in Hb as [Hb Hbt], Hr as [Hr Hrt], Hs as [Hs Hst].
  unfold Campaigns.applies, tier_rule. rewrite Hb, Hr, Hs. simpl.
  destruct bs as [|b bs], rs as [|r rs], ss as [|s ss], station as [st|];
    simpl; try reflexivity;
    by destruct (bool_decide (branch_code_of st ∈ b :: bs)).
Qed.

Lemma elem_of_unique_campaigns l c :
  NoDup (Campaign.id <$> l) →
  c ∈ Campaigns.unique_campaigns l ↔ c ∈ l.
Proof.
  intros Hnd. unfold Campaigns.unique_campaigns.
  rewrite unique_loop_NoDup.
  - apply elem_of_sorted.
  - by rewrite (sorted_Permutation tuple_ltb Campaigns.sort_key true l).
  - intros ? _. set_solver.
Qed.

(** The locals after the [try] statement when both queries succeed and
    the candidate rows are typed: nothing is raised, and the campaigns are
    the candidates the rules include, ranked. *)
Lemma resolve_on_columns db station_code now stations rows :
  q_stations db = Ok stations → q_campaigns db = Ok rows →
  (∀ c, c ∈ rows → candidate now c → well_typed c) →
  let station := active_station stations station_code in
  Campaigns.resolve db station_code now
  = Campaigns.Locals.mk (Some station) (Some (branch_code_at station))
      (Some (region_at station))
      (Campaigns.unique_campaigns
         (List.filter (rule_includes (location_of station) station_code)
            (List.filter (Campaigns.campaign_filter now) rows))).
Proof.
  intros Hst Hrows Htyped station.
  apply (resolve_Ok _ _ _ _
           (List.filter (Campaigns.campaign_filter now) rows)).
  - by apply station_query_active_station.
  - unfold Campaigns.campaign_query. by rewrite Hrows.
  - apply filter_applicable_Ok. split.
    + apply Forall_forall. intros c [Hc Hf]%elem_of_List_filter.
      apply campaign_filter_candidate in Hf.
      by rewrite applies_rule by by apply Htyped.
    + apply List.filter_ext_in. intros c Hc.
      apply list_elem_of_In, elem_of_List_filter in Hc as [Hc Hf].
      apply campaign_filter_candidate in Hf.
      by rewrite applies_rule by by apply Htyped.
Qed.

Lemma resolved_on_columns db station_code now stations rows c :
  q_stations db = Ok stations → q_campaigns db = Ok rows →
  (∀ c, c ∈ rows → candidate now c → well_typed c) →
  NoDup (Campaign.id <$> rows) →
  c ∈ Campaigns.Locals.campaigns (Campaigns.resolve db station_code now)
  ↔ c ∈ rows ∧ candidate now c
    ∧ rule_includes (location_of (active_station stations station_code))
        station_code c = true.
Proof.
  intros Hst Hrows Htyped Hnd.
  rewrite (resolve_on_columns _ _ _ _ _ Hst Hrows Htyped). simpl.
  rewrite elem_of_unique_campaigns
    by by do 2 apply NoDup_fmap_List_filter.
  rewrite !elem_of_List_filter, campaign_filter_candidate. tauto.
Qed.

Lemma tablet_resolve_eq db station_code now :
  Tablets.Locals.campaigns (Tablets.resolve db station_code now)
  = Campaigns.Locals.campaigns (Campaigns.resolve db station_code now).
Proof. by destruct (resolve_agree db station_code now) as (_ & _ & _ & ->). Qed.

Lemma List_filter_comm {A} (p q : A → bool) l :
  List.filter p (List.filter q l) = List.filter q (List.filter p l).
Proof.
  induction l as [|x l IH]; simpl; [done|].
  destruct (p x) eqn:Hp, (q x) eqn:Hq; simpl; rewrite ?Hp, ?Hq, IH; done.
Qed.

Lemma List_filter_all {A} (p : A → bool) l :
  Forall (λ x, p x = true) l → List.filter p l = l.
Proof. induction 1 as [|x l Hx _ IH]; simpl; [done|]. by rewrite Hx, IH. Qed.


Lemma active_by_station_on_columns db station_code now stations rows :
  q_stations db = Ok stations → q_campaigns db = Ok rows →
  (∀ c, c ∈ rows → candidate now c → well_typed c) →
  let station := active_station stations station_code in
  let resolved :=
    Campaigns.Locals.campaigns (Campaigns.resolve db station_code now) in
  Campaigns.active_by_station db station_code now
  = Ok {| Campaigns.Response.station_code := station_code;
          Campaigns.Response.branch_code := branch_code_at station;
          Campaigns.Response.region := region_at station;
          Campaigns.Response.campaigns := Campaigns.item <$> resolved;
          Campaigns.Response.total := length resolved |}.
Proof.
  intros Hst Hrows Htyped station resolved. subst resolved.
  unfold Campaigns.active_by_station.
  rewrite (resolve_on_columns _ _ _ _ _ Hst Hrows Htyped). simpl.
  fold station. by destruct station.
Qed.

Lemma get_active_for_station_on_columns db station_code now stations rows
    images :
  q_stations db = Ok stations → q_campaigns db = Ok rows →
  q_images db = Ok images →
  (∀ c, c ∈ rows → candidate now c → well_typed c) →
  let station := active_station stations station_code in
  let resolved :=
    Campaigns.Locals.campaigns (Campaigns.resolve db station_code now) in
  Tablets.get_active_for_station db station_code now
  = Ok {| Tablets.Response.station_code := station_code;
          Tablets.Response.branch_code := branch_code_at station;
          Tablets.Response.region := region_at station;
          Tablets.Response.campaigns :=
            (λ c, Tablets.item c
                    (Tablets.format_image c <$> listed_images images c))
              <$> resolved;
          Tablets.Response.total := length resolved;
          Tablets.Response.cache_ttl := 120 |}.
Proof.
  intros Hst Hrows Himg Htyped station resolved. subst resolved.
  rewrite get_active_for_station_unfold.
  rewrite (resolve_on_columns _ _ _ _ _ Hst Hrows Htyped). simpl.
  rewrite (campaigns_with_images_Ok _ _ _ Himg). simpl.
  fold station. by destruct station.
Qed.

(** ** C2 *)

(** C2: with both queries answered and the candidate rows typed as the
    columns are declared, the campaigns each surface resolves, and the
    entries of each response, are exactly the candidates the four rules
    include, the rules being read in their fixed order (global, regional,
    branch-wide, station-specific) on the location of the station the
    code stands for; a campaign with stations and no branches is resolved
    for no station; and one turn of the selection loop returns the
    decision of the rules without raising. *)
Theorem classification_follows_the_four_rules
    (db : Db) (station_code : string) (now : Z)
    (stations : list Station.t) (rows : list Campaign.t)
    (images : list CampaignImage.t) :
  q_stations db = Ok stations → q_campaigns db = Ok rows →
  q_images db = Ok images →
  NoDup (Campaign.id <$> rows) →
  (∀ c, c ∈ rows → candidate now c → well_typed c) →
  let location := location_of (active_station stations station_code) in
  (∀ c, c ∈ Campaigns.Locals.campaigns
              (Campaigns.resolve db station_code now)
        ↔ selected rows now location station_code c)
  ∧ (∀ c, c ∈ Tablets.Locals.campaigns (Tablets.resolve db station_code now)
          ↔ selected rows now location station_code c)
  ∧ (∃ resp,
       Campaigns.active_by_station db station_code now = Ok resp
       ∧ ∀ i, i ∈ (Campaigns.Item.id <$> Campaigns.Response.campaigns resp)
              ↔ ∃ c, selected rows now location station_code c
                     ∧ Campaign.id c = i)
  ∧ (∃ resp,
       Tablets.get_active_for_station db station_code now = Ok resp
       ∧ ∀ i, i ∈ (Tablets.Item.id <$> Tablets.Response.campaigns resp)
              ↔ ∃ c, selected rows now location station_code c
                     ∧ Campaign.id c = i)
  ∧ (∀ c, undefined_combination c →
          (c ∉ Campaigns.Locals.campaigns
                 (Campaigns.resolve db station_code now))
          ∧ (c ∉ Tablets.Locals.campaigns
                   (Tablets.resolve db station_code now)))
  ∧ (∀ station c,
       well_typed c →
       Campaigns.applies station (branch_code_at station) (region_at station)
         station_code c
       = Ok (rule_includes (location_of station) station_code c)
       ∧ Tablets.applies station (branch_code_at station) (region_at station)
           station_code c
         = Ok (rule_includes (location_of station) station_code c)).
Proof.
  intros Hst Hrows Himg Hnd Htyped location.
  assert (∀ c, c ∈ Campaigns.Locals.campaigns
                     (Campaigns.resolve db station_code now)
               ↔ selected rows now location station_code c) as Hdash.
  { intros c. by apply resolved_on_columns. }
  split; [done|]. split; [|split; [|split; [|split]]].
  - intros c.
    pose proof (tablet_resolve_eq db station_code now) as Heq.
    rewrite Heq. apply Hdash.
  - eexists. split; [by eapply active_by_station_on_columns|].
    simpl. intros i. rewrite <-list_fmap_compose, list_elem_of_fmap.
    split.
    + intros (c & -> & Hc%Hdash). by exists c.
    + intros (c & Hc%Hdash & <-). by exists c.
  - eexists. split; [by eapply get_active_for_station_on_columns|].
    simpl. intros i. rewrite <-list_fmap_compose, list_elem_of_fmap.
    split.
    + intros (c & -> & Hc%Hdash). by exists c.
    + intros (c & Hc%Hdash & <-). by exists c.
  - intros c (rs & ss & Hb & Hr & Hs & Hss).
    pose proof (tablet_resolve_eq db station_code now) as Heq.
    rewrite Heq.
    assert (c ∉ Campaigns.Locals.campaigns
                  (Campaigns.resolve db station_code now)) as Hc; [|done].
    intros (_ & _ & Hrule)%Hdash.
    unfold rule_includes in Hrule. rewrite Hb, Hr, Hs in Hrule.
    unfold tier_rule in Hrule. by destruct rs, ss.
  - intros station c Hc. split; [by apply applies_rule|].
    etrans; [apply applies_agree|by apply applies_rule].
Qed.

Lemma classification_follows_the_four_rules_witness :
  Scenario.B ∈ Campaigns.Locals.campaigns
                 (Campaigns.resolve Scenario.db "001" Scenario.now)
  ∧ Scenario.D ∉ Campaigns.Locals.campaigns
                   (Campaigns.resolve Scenario.db "001" Scenario.now).
Proof.
  destruct (classification_follows_the_four_rules Scenario.db "001"
              Scenario.now [Scenario.station_001]
              [Scenario.A; Scenario.B; Scenario.C; Scenario.D]
              Scenario.images eq_refl eq_refl eq_refl)
    as (Hdash & _).
  - by_evaluation.
  - intros c Hc _. apply list_elem_of_In in Hc. simpl in Hc.
    destruct Hc as [<-|[<-|[<-|[<-|[]]]]]; repeat split; by eexists.
  - split.
    + apply Hdash. split; [|split; [|reflexivity]].
      * apply list_elem_of_In. simpl. auto.
      * repeat split; vm_compute; congruence.
    + intros (_ & _ & Hrule)%Hdash. discriminate Hrule.
Defined.

(** ** C4 *)

(** C4, as the code has it: a campaign with both [branches] and [stations]
    non-empty is resolved, on either surface, only if the station the code
    stands for (the first active row with the code) has its branch code in
    [branches] and the requested code, as given, is in [stations]; so it is
    resolved for no request whose code belongs only to active stations of
    branches outside [branches]; and a candidate that meets both conditions
    is resolved. *)
Theorem station_level_needs_branch_and_station
    (db : Db) (station_code : string) (now : Z) (stations : list Station.t)
    (c : Campaign.t) (bs ss : list pystr) :
  q_stations db = Ok stations →
  Campaign.branches c = PyList bs → Campaign.stations c = PyList ss →
  bs ≠ [] → ss ≠ [] →
  let served :=
    c ∈ Campaigns.Locals.campaigns (Campaigns.resolve db station_code now)
    ∨ c ∈ Tablets.Locals.campaigns (Tablets.resolve db station_code now) in
  (served →
   ∃ st, active_station stations station_code = Some st
         ∧ Station.code st = station_code
         ∧ Station.is_active st = Some true
         ∧ branch_code_of st ∈ bs ∧ Some station_code ∈ ss)
  ∧ ((∀ s, s ∈ stations → Station.code s = station_code →
           Station.is_active s = Some true → branch_code_of s ∉ bs) →
     ¬ served)
  ∧ (∀ rows st,
       q_campaigns db = Ok rows → NoDup (Campaign.id <$> rows) →
       (∀ c', c' ∈ rows → candidate now c' → well_typed c') →
       c ∈ rows → candidate now c →
       active_station stations station_code = Some st →
       branch_code_of st ∈ bs → Some station_code ∈ ss →
       c ∈ Campaigns.Locals.campaigns (Campaigns.resolve db station_code now)
       ∧ c ∈ Tablets.Locals.campaigns (Tablets.resolve db station_code now)).
Proof.
  intros Hst Hb Hs Hbs Hss served.
  assert (served →
          ∃ st, active_station stations station_code = Some st
                ∧ Station.code st = station_code
                ∧ Station.is_active st = Some true
                ∧ branch_code_of st ∈ bs ∧ Some station_code ∈ ss) as Hgen.
  { intros Hin.
    assert (c ∈ Campaigns.Locals.campaigns
                  (Campaigns.resolve db station_code now)) as Hdash.
    { destruct Hin as [Hin|Hin]; [done|].
      by rewrite (tablet_resolve_eq db station_code now) in Hin. }
    apply resolve_elem_of in Hdash
      as (station & rows & Hq & _ & _ & _ & Happ).
    rewrite (station_query_active_station _ _ _ Hst) in Hq.
    injection Hq as <-.
    apply (applies_station_level _ _ _ _ _ bs ss) in Happ
      as ([st Hfound] & Hbc & Hsc); [|done..].
    exists st. rewrite Hfound in Hbc.
    destruct (active_station_Some _ _ _ Hfound) as (_ & Hcode & Hact).
    done. }
  split; [exact Hgen|]. split.
  - intros Hnone Hin.
    destruct (Hgen Hin) as (st & Hfound & Hcode & Hact & Hbc & _).
    destruct (active_station_Some _ _ _ Hfound) as (Hmem & _).
    by apply (Hnone st).
  - intros rows st Hrows Hnd Htyped Hc Hcand Hfound Hbc Hsc.
    assert (c ∈ Campaigns.Locals.campaigns
                  (Campaigns.resolve db station_code now)) as Hdash.
    { apply (resolved_on_columns _ _ _ _ _ _ Hst Hrows Htyped Hnd).
      split; [done|]. split; [done|].
      destruct (Htyped c Hc Hcand) as (_ & [rs Hr] & _).
      unfold rule_includes. rewrite Hb, Hs, Hr, Hfound. simpl.
      unfold tier_rule. destruct bs as [|b bs']; [done|].
      destruct ss as [|s0 ss']; [done|]. simpl.
      rewrite !andb_false_r. simpl.
      by rewrite !bool_decide_eq_true_2. }
    split; [done|].
    by rewrite (tablet_resolve_eq db station_code now).
Qed.

Lemma station_level_needs_branch_and_station_witness :
  (∃ st, active_station [Scenario.station_001] "001" = Some st
         ∧ Station.code st = "001"
         ∧ Station.is_active st = Some true
         ∧ branch_code_of st ∈ [Some "SP01"]
         ∧ Some "001" ∈ [Some "001"])
  ∧ ¬ (Scenario.F ∈ Campaigns.Locals.campaigns
                      (Campaigns.resolve Scenario.db_other_branch "001"
                         Scenario.now)
       ∨ Scenario.F ∈ Tablets.Locals.campaigns
                        (Tablets.resolve Scenario.db_other_branch "001"
                           Scenario.now)).
Proof.
  split.
  - apply (proj1 (station_level_needs_branch_and_station Scenario.db_station
                    "001" Scenario.now [Scenario.station_001] Scenario.E
                    [Some "SP01"] [Some "001"]
                    eq_refl eq_refl eq_refl ltac:(done) ltac:(done))).
    left. vm_compute. apply list_elem_of_In. right. left. reflexivity.
  - apply (proj2 (station_level_needs_branch_and_station
                    Scenario.db_other_branch "001" Scenario.now
                    [Scenario.station_001_of_020202] Scenario.F
                    [Some "010101"] [Some "001"]
                    eq_refl eq_refl eq_refl ltac:(done) ltac:(done))).
    intros s ->%list_elem_of_singleton _ _ [=]%list_elem_of_singleton.
Defined.

(** The claim of C4 fails on the code: the station "001" of branch
    "020202" is active, the directory satisfies the unique constraint, and
    a request for "001" is served the campaign of branch "010101",
    station "001", because the lookup returns the station "001" of branch
    "010101". *)
Lemma shared_station_code_is_served_the_other_branch :
  q_stations Scenario.db_two_branches
  = Ok [Scenario.station_001_of_010101; Scenario.station_001_of_020202]
  ∧ Station._branch_station_uc
      [Scenario.station_001_of_010101; Scenario.station_001_of_020202]
  ∧ Station.code Scenario.station_001_of_020202 = "001"
  ∧ Station.is_active Scenario.station_001_of_020202 = Some true
  ∧ branch_code_of Scenario.station_001_of_020202 = Some "020202"
  ∧ Campaign.branches Scenario.F = PyList [Some "010101"]
  ∧ Campaign.stations Scenario.F = PyList [Some "001"]
  ∧ Campaigns.Locals.campaigns
      (Campaigns.resolve Scenario.db_two_branches "001" Scenario.now)
    = [Scenario.F]
  ∧ (fmap Campaigns.Item.id ∘ Campaigns.Response.campaigns)
      <$> Campaigns.active_by_station Scenario.db_two_branches "001"
            Scenario.now
    = Ok [6%N]
  ∧ (fmap Tablets.Item.id ∘ Tablets.Response.campaigns)
      <$> Tablets.get_active_for_station Scenario.db_two_branches "001"
            Scenario.now
    = Ok [6%N].
Proof.
  split; [reflexivity|]. split; [by_evaluation|]. repeat split.
Qed.

(** ** C7 *)

(** C7: when no active station has the requested code the dashboard
    handler returns normally, with a null [branch_code] and [region]; the
    entries of the response are built, in order, from the columns of the
    resolved campaigns, each at level "global"; and the resolved campaigns
    are the ranked candidates whose three targeting columns are all
    empty: every resolved campaign is such a candidate, every such
    candidate is resolved, and the ids of the response are exactly
    theirs. *)
Theorem unknown_station_gets_the_global_campaigns
    (db : Db) (station_code : string) (now : Z)
    (stations : list Station.t) (rows : list Campaign.t) :
  q_stations db = Ok stations →
  (∀ s, s ∈ stations →
        ¬ (Station.code s = station_code ∧ Station.is_active s = Some true)) →
  q_campaigns db = Ok rows →
  let resolved :=
    Campaigns.Locals.campaigns (Campaigns.resolve db station_code now) in
  let entry c :=
    {| Campaigns.Item.id := Campaign.id c;
       Campaigns.Item.name := Campaign.name c;
       Campaigns.Item.default_display_time := Campaign.default_display_time c;
       Campaigns.Item.priority := Campaign.priority c;
       Campaigns.Item.targeting_level := "global" |} in
  Campaigns.active_by_station db station_code now
  = Ok {| Campaigns.Response.station_code := station_code;
          Campaigns.Response.branch_code := None;
          Campaigns.Response.region := None;
          Campaigns.Response.campaigns := entry <$> resolved;
          Campaigns.Response.total := length resolved |}
  ∧ resolved
    = Campaigns.unique_campaigns
        (List.filter no_targets
           (List.filter (Campaigns.campaign_filter now) rows))
  ∧ (∀ c, c ∈ resolved → c ∈ rows ∧ candidate now c ∧ no_targets c = true)
  ∧ (∀ c, c ∈ rows → candidate now c → no_targets c = true →
          Campaign.id c ∈ (Campaign.id <$> resolved))
  ∧ (∀ i, i ∈ (Campaigns.Item.id <$> (entry <$> resolved))
          ↔ ∃ c, c ∈ rows ∧ candidate now c ∧ no_targets c = true
                 ∧ Campaign.id c = i)
  ∧ (∀ c, well_typed c →
          no_targets c = true
          ↔ array_of (Campaign.branches c) = Some []
            ∧ array_of (Campaign.regions c) = Some []
            ∧ array_of (Campaign.stations c) = Some []).
Proof.
  intros Hst Hnone Hrows resolved entry.
  pose proof (station_query_unknown _ _ _ Hst Hnone) as Hq.
  assert (Campaigns.campaign_query db now
          = Ok (List.filter (Campaigns.campaign_filter now) rows)) as Hc.
  { unfold Campaigns.campaign_query. by rewrite Hrows. }
  pose proof (resolve_Ok db station_code now None _ _ Hq Hc
                (filter_applicable_unknown station_code _)) as Hres.
  assert (resolved
          = Campaigns.unique_campaigns
              (List.filter no_targets
                 (List.filter (Campaigns.campaign_filter now) rows))) as Hdef.
  { unfold resolved. by rewrite Hres. }
  assert (∀ c, c ∈ resolved →
               c ∈ rows ∧ candidate now c ∧ no_targets c = true) as Hsound.
  { intros c Hin. rewrite Hdef in Hin. apply unique_campaigns_sub in Hin.
    apply elem_of_List_filter in Hin as [Hin Hg].
    apply elem_of_List_filter in Hin as [Hin Hcand].
    by apply campaign_filter_candidate in Hcand. }
  assert (∀ c, c ∈ rows → candidate now c → no_targets c = true →
               Campaign.id c ∈ (Campaign.id <$> resolved)) as Hcomplete.
  { intros c Hin Hcand Hg. rewrite Hdef, unique_campaigns_ids.
    apply list_elem_of_fmap_2. rewrite !elem_of_List_filter.
    by apply campaign_filter_candidate in Hcand. }
  split; [|split; [done|split; [done|split; [done|split]]]].
  - unfold Campaigns.active_by_station. fold resolved. rewrite Hres. simpl.
    do 2 f_equal. apply list_fmap_ext. intros k c Hk%list_elem_of_lookup_2.
    destruct (Hsound c) as (_ & _ & Hg);
      [first [done | by rewrite Hdef | by rewrite <-Hdef]|].
    unfold Campaigns.item, entry, Campaigns.targeting_level.
    unfold no_targets in Hg. by rewrite Hg.
  - intros i. rewrite <-list_fmap_compose. split.
    + intros (c & -> & Hin)%list_elem_of_fmap.
      exists c. by destruct (Hsound c Hin) as (? & ? & ?).
    + intros (c & Hin & Hcand & Hg & <-).
      by apply (Hcomplete c).
  - intros c ([bs Hb] & [rs Hr] & [ss Hs]). unfold no_targets.
    rewrite Hb, Hr, Hs.
    apply array_of_inv in Hb as [_ ->], Hr as [_ ->], Hs as [_ ->].
    destruct bs, rs, ss; simpl; naive_solver.
Qed.

Lemma unknown_station_gets_the_global_campaigns_witness :
  Campaigns.active_by_station Scenario.db "does-not-exist" Scenario.now
  = Ok {| Campaigns.Response.station_code := "does-not-exist";
          Campaigns.Response.branch_code := None;
          Campaigns.Response.region := None;
          Campaigns.Response.campaigns :=
            [ {| Campaigns.Item.id := 1;
                 Campaigns.Item.name := "A";
                 Campaigns.Item.default_display_time := Some 5000;
                 Campaigns.Item.priority := Some 0;
                 Campaigns.Item.targeting_level := "global" |} ];
          Campaigns.Response.total := 1 |}.
Proof.
  refine (proj1 (unknown_station_gets_the_global_campaigns Scenario.db
                   "does-not-exist" Scenario.now [Scenario.station_001]
                   [Scenario.A; Scenario.B; Scenario.C; Scenario.D]
                   eq_refl _ eq_refl)).
  intros s ->%list_elem_of_singleton [Hcode _]. discriminate Hcode.
Defined.

(** ** C5 *)





(** With the station known, the failed fetch leaves [branch_code] unbound
    and building the response raises. *)
Example catalog_failure_with_known_station :
  Campaigns.active_by_station Scenario.db_catalog_down_known "001" Scenario.now
  = Raise (UnboundLocalError "branch_code")
  ∧ Tablets.get_active_for_station Scenario.db_catalog_down_known "001"
      Scenario.now
    = Raise (UnboundLocalError "branch_code").
Proof. repeat split. Qed.

(** ** C9 *)

Lemma image_filter_spec c img :
  Tablets.image_filter c img = true ↔
  CampaignImage.campaign_id img = Campaign.id c
  ∧ CampaignImage.active img = Some true.
Proof.
  unfold Tablets.image_filter, sql_eq. simpl.
  destruct (CampaignImage.active img) as [[]|]; simpl;
    case_bool_decide; split; try done; by intros [? ?].
Qed.

Lemma elem_of_listed_images rows c img :
  img ∈ listed_images rows c ↔
  img ∈ rows ∧ CampaignImage.campaign_id img = Campaign.id c
  ∧ CampaignImage.active img = Some true.
Proof.
  unfold listed_images.
  by rewrite elem_of_sorted, elem_of_List_filter, image_filter_spec.
Qed.

Lemma listed_images_ordered rows c :
  StronglySorted Z.le (CampaignImage.order <$> listed_images rows c).
Proof.
  apply (StronglySorted_fmap _ (ahead Z.ltb CampaignImage.order false)).
  { unfold ahead. intros x y. lia. }
  apply sorted_StronglySorted; intros; lia.
Qed.

Lemma campaigns_with_images_inv db l items it :
  Tablets.campaigns_with_images db l = Ok items → it ∈ items →
  ∃ c rows, c ∈ l ∧ q_images db = Ok rows
            ∧ it = Tablets.item c
                     (Tablets.format_image c <$> listed_images rows c).
Proof.
  intros Hitems Hin. destruct (q_images db) as [rows|e] eqn:Himg.
  - rewrite (campaigns_with_images_Ok _ _ _ Himg) in Hitems.
    injection Hitems as <-.
    apply list_elem_of_fmap in Hin as (c & -> & Hc). by exists c, rows.
  - destruct l as [|c l]; simpl in Hitems.
    + injection Hitems as <-. by apply elem_of_nil in Hin.
    + unfold Tablets.image_query in Hitems. rewrite Himg in Hitems.
      discriminate Hitems.
Qed.

(** C9, as the code has it: on the tablet surface every campaign of the
    response is a resolved campaign carrying exactly its active images, in
    ascending [order]; each image exposes its own stored [display_time],
    which is null when the image has no override (the campaign's default
    is exposed once, on the campaign). *)
Theorem tablet_images_active_ordered_with_stored_display_time
    (db : Db) (station_code : string) (now : Z)
    (resp : Tablets.Response.t) (it : Tablets.Item.t) :
  Tablets.get_active_for_station db station_code now = Ok resp →
  it ∈ Tablets.Response.campaigns resp →
  ∃ c rows,
    c ∈ Tablets.Locals.campaigns (Tablets.resolve db station_code now)
    ∧ q_images db = Ok rows
    ∧ Tablets.Item.id it = Campaign.id c
    ∧ Tablets.Item.default_display_time it = Campaign.default_display_time c
    ∧ Tablets.Item.images it
      ≡ₚ Tablets.format_image c <$> List.filter (Tablets.image_filter c) rows
    ∧ (∀ img, img ∈ List.filter (Tablets.image_filter c) rows ↔
              img ∈ rows ∧ CampaignImage.campaign_id img = Campaign.id c
              ∧ CampaignImage.active img = Some true)
    ∧ StronglySorted Z.le (Tablets.Image.order_index <$> Tablets.Item.images it)
    ∧ (∀ fi, fi ∈ Tablets.Item.images it →
             ∃ img, img ∈ rows
                    ∧ CampaignImage.campaign_id img = Campaign.id c
                    ∧ CampaignImage.active img = Some true
                    ∧ Tablets.Image.id fi = CampaignImage.id img
                    ∧ Tablets.Image.order_index fi = CampaignImage.order img
                    ∧ Tablets.Image.display_time fi
                      = CampaignImage.display_time img).
Proof.
  intros Hresp Hin. unfold Tablets.get_active_for_station in Hresp.
  destruct (Tablets.campaigns_with_images db _) as [items|e] eqn:Hitems;
    [|discriminate Hresp].
  simpl in Hresp.
  destruct (Tablets.if_station _ _ (Tablets.Locals.branch_code _));
    [|discriminate Hresp].
  destruct (Tablets.if_station _ _ (Tablets.Locals.region _));
    [|discriminate Hresp].
  injection Hresp as <-. simpl in Hin.
  destruct (campaigns_with_images_inv _ _ _ _ Hitems Hin)
    as (c & rows & Hc & Himg & ->).
  exists c, rows. simpl. do 4 (split; [done|]).
  split; [|split; [|split]].
  - unfold listed_images. by rewrite sorted_Permutation.
  - intros img. by rewrite elem_of_List_filter, image_filter_spec.
  - rewrite <-list_fmap_compose. apply listed_images_ordered.
  - intros fi (img & -> & Himg')%list_elem_of_fmap.
    apply elem_of_listed_images in Himg' as (? & ? & ?). by exists img.
Qed.

Lemma tablet_images_active_ordered_with_stored_display_time_witness :
  ∃ c rows,
    c ∈ Tablets.Locals.campaigns
          (Tablets.resolve Scenario.db "001" Scenario.now)
    ∧ q_images Scenario.db = Ok rows
    ∧ 3%N = Campaign.id c
    ∧ Some 5000 = Campaign.default_display_time c
    ∧ [Tablets.Image.mk 12 3 1 None; Tablets.Image.mk 11 3 2 (Some 8000)]
      ≡ₚ Tablets.format_image c <$> List.filter (Tablets.image_filter c) rows
    ∧ (∀ img, img ∈ List.filter (Tablets.image_filter c) rows ↔
              img ∈ rows ∧ CampaignImage.campaign_id img = Campaign.id c
              ∧ CampaignImage.active img = Some true)
    ∧ StronglySorted Z.le [1; 2]
    ∧ (∀ fi,
         fi ∈ [Tablets.Image.mk 12 3 1 None;
               Tablets.Image.mk 11 3 2 (Some 8000)] →
         ∃ img, img ∈ rows
                ∧ CampaignImage.campaign_id img = Campaign.id c
                ∧ CampaignImage.active img = Some true
                ∧ Tablets.Image.id fi = CampaignImage.id img
                ∧ Tablets.Image.order_index fi = CampaignImage.order img
                ∧ Tablets.Image.display_time fi
                  = CampaignImage.display_time img).
Proof.
  refine (tablet_images_active_ordered_with_stored_display_time
            Scenario.db "001" Scenario.now _
            (Tablets.item Scenario.C
               [Tablets.Image.mk 12 3 1 None;
                Tablets.Image.mk 11 3 2 (Some 8000)])
            eq_refl _).
  apply list_elem_of_In. right. left. reflexivity.
Defined.

(** The claim of C9 fails on the code: image 12 of campaign [C] has no
    override, the campaign's default is 5000, and the response exposes a
    null [display_time] for it. *)
Lemma image_without_override_is_exposed_as_null :
  (fmap (fmap Tablets.Image.display_time ∘ Tablets.Item.images)
     ∘ Tablets.Response.campaigns)
    <$> Tablets.get_active_for_station Scenario.db "001" Scenario.now
  = Ok [[]; [None; Some 8000]; [None]]
  ∧ effective_display_time Scenario.C (Scenario.image 12 3 1 None true)
    = Some 5000.
Proof. split; reflexivity. Qed.

(** ** C6 *)

Lemma unique_campaigns_Permutation l1 l2 :
  (∀ x y, x ∈ l1 → y ∈ l1 →
          Campaigns.sort_key x = Campaigns.sort_key y → x = y) →
  l1 ≡ₚ l2 →
  Campaigns.unique_campaigns l1 = Campaigns.unique_campaigns l2.
Proof.
  intros Hinj Hperm. unfold Campaigns.unique_campaigns. f_equal.
  apply sorted_unique;
    eauto using tuple_ltb_asym, tuple_ltb_negtrans, tuple_ltb_total.
Qed.

Lemma active_station_Permutation stations1 stations2 station_code :
  stations1 ≡ₚ stations2 →
  (∀ s s', s ∈ stations1 → s' ∈ stations1 →
           Station.code s = station_code → Station.is_active s = Some true →
           Station.code s' = station_code → Station.is_active s' = Some true →
           s = s') →
  active_station stations1 station_code
  = active_station stations2 station_code.
Proof.
  intros Hperm Hone. unfold active_station.
  pose proof (List_filter_Permutation (active_with_code station_code)
                _ _ Hperm) as Hf.
  destruct (List.filter _ stations1) as [|a l1] eqn:H1.
  { apply Permutation_nil_l in Hf. by rewrite Hf. }
  destruct (List.filter _ stations2) as [|b l2] eqn:H2.
  { by apply Permutation_nil_r in Hf. }
  simpl. f_equal.
  assert (a ∈ List.filter (active_with_code station_code) stations1)
    as [Ha Hpa]%elem_of_List_filter by (rewrite H1; left).
  assert (b ∈ List.filter (active_with_code station_code) stations1)
    as [Hb Hpb]%elem_of_List_filter by (rewrite H1, Hf; left).
  apply bool_decide_eq_true in Hpa as [? ?], Hpb as [? ?].
  by apply Hone.
Qed.

Lemma resolve_Permutation db1 db2 station_code now rows1 rows2 :
  Campaigns.station_query db1 station_code
  = Campaigns.station_query db2 station_code →
  q_campaigns db1 = Ok rows1 → q_campaigns db2 = Ok rows2 →
  rows1 ≡ₚ rows2 →
  (∀ x y, x ∈ rows1 → y ∈ rows1 → candidate now x → candidate now y →
          Campaigns.sort_key x = Campaigns.sort_key y → x = y) →
  Campaigns.resolve db1 station_code now
  = Campaigns.resolve db2 station_code now.
Proof.
  intros Hq Hr1 Hr2 Hperm Hinj.
  assert (Campaigns.campaign_query db1 now
          = Ok (List.filter (Campaigns.campaign_filter now) rows1)) as Hc1.
  { unfold Campaigns.campaign_query. by rewrite Hr1. }
  assert (Campaigns.campaign_query db2 now
          = Ok (List.filter (Campaigns.campaign_filter now) rows2)) as Hc2.
  { unfold Campaigns.campaign_query. by rewrite Hr2. }
  pose proof (List_filter_Permutation (Campaigns.campaign_filter now)
                _ _ Hperm) as Hall.
  destruct (Campaigns.station_query db1 station_code) as [station|e] eqn:Hs1.
  2:{ unfold Campaigns.resolve. by rewrite Hs1, <-Hq. }
  symmetry in Hq.
  destruct (Campaigns.filter_applicable station (branch_code_at station)
              (region_at station) station_code
              (List.filter (Campaigns.campaign_filter now) rows1))
    as [out1|e1] eqn:Hf1.
  - destruct (filter_applicable_Permutation _ _ _ _ _ _ _ Hall Hf1)
      as (out2 & Hf2 & Hout).
    rewrite (resolve_Ok _ _ _ _ _ _ Hs1 Hc1 Hf1).
    rewrite (resolve_Ok _ _ _ _ _ _ Hq Hc2 Hf2).
    f_equal. apply unique_campaigns_Permutation; [|done].
    intros x y Hx Hy.
    apply (filter_applicable_elem_of _ _ _ _ _ _ _ Hf1) in Hx as [Hx _].
    apply (filter_applicable_elem_of _ _ _ _ _ _ _ Hf1) in Hy as [Hy _].
    apply elem_of_List_filter in Hx as [Hx Hcx].
    apply elem_of_List_filter in Hy as [Hy Hcy].
    apply campaign_filter_candidate in Hcx, Hcy. by apply Hinj.
  - destruct (Campaigns.filter_applicable station (branch_code_at station)
                (region_at station) station_code
                (List.filter (Campaigns.campaign_filter now) rows2))
      as [out2|e2] eqn:Hf2.
    + symmetry in Hall.
      destruct (filter_applicable_Permutation _ _ _ _ _ _ _ Hall Hf2)
        as (out1 & Hf1' & _).
      rewrite Hf1 in Hf1'. discriminate Hf1'.
    + rewrite (resolve_classification_error _ _ _ _ _ _ Hs1 Hc1 Hf1).
      by rewrite (resolve_classification_error _ _ _ _ _ _ Hq Hc2 Hf2).
Qed.

Lemma image_query_Permutation db1 db2 images1 images2 c :
  q_images db1 = Ok images1 → q_images db2 = Ok images2 →
  images1 ≡ₚ images2 →
  (∀ x y, x ∈ images1 → y ∈ images1 →
          CampaignImage.campaign_id x = CampaignImage.campaign_id y →
          CampaignImage.active x = Some true →
          CampaignImage.active y = Some true →
          CampaignImage.order x = CampaignImage.order y → x = y) →
  Tablets.image_query db1 c = Tablets.image_query db2 c.
Proof.
  intros H1 H2 Hperm Hinj. unfold Tablets.image_query. rewrite H1, H2. simpl.
  f_equal. apply sorted_unique.
  - intros a b. lia.
  - intros a b c'. lia.
  - intros a b. lia.
  - intros x y [Hx Hfx]%elem_of_List_filter [Hy Hfy]%elem_of_List_filter.
    apply image_filter_spec in Hfx as [Hcx Hax], Hfy as [Hcy Hay].
    apply Hinj; congruence.
  - by apply List_filter_Permutation.
Qed.

Lemma campaigns_with_images_ext db1 db2 l :
  (∀ c, Tablets.image_query db1 c = Tablets.image_query db2 c) →
  Tablets.campaigns_with_images db1 l = Tablets.campaigns_with_images db2 l.
Proof.
  intros Himg. induction l as [|c l IH]; simpl; [done|].
  by rewrite Himg, IH.
Qed.

(** C6, as the code has it: two reads of the same tables give the same
    responses when the database hands the rows back in the same order;
    when it hands them back in another order the responses are still the
    same provided at most one active station has the requested code, no
    two distinct candidate rows share their sort key (priority and creation
    time) and, for the image lists of the tablet surface, no two distinct
    active images of one campaign share their order. *)
Theorem ranking_is_repeatable_on_distinct_sort_keys
    (db1 db2 : Db) (station_code : string) (now : Z)
    (rows1 rows2 : list Campaign.t) :
  q_stations db1 = q_stations db2
  ∨ (∃ stations1 stations2,
       q_stations db1 = Ok stations1 ∧ q_stations db2 = Ok stations2
       ∧ stations1 ≡ₚ stations2
       ∧ ∀ s s', s ∈ stations1 → s' ∈ stations1 →
                 Station.code s = station_code →
                 Station.is_active s = Some true →
                 Station.code s' = station_code →
                 Station.is_active s' = Some true → s = s') →
  q_campaigns db1 = Ok rows1 →
  q_campaigns db2 = Ok rows2 →
  rows1 = rows2
  ∨ (rows1 ≡ₚ rows2
     ∧ ∀ x y, x ∈ rows1 → y ∈ rows1 → candidate now x → candidate now y →
              Campaigns.sort_key x = Campaigns.sort_key y → x = y) →
  Campaigns.active_by_station db1 station_code now
  = Campaigns.active_by_station db2 station_code now
  ∧ (q_images db1 = q_images db2
     ∨ (∃ images1 images2,
          q_images db1 = Ok images1 ∧ q_images db2 = Ok images2
          ∧ images1 ≡ₚ images2
          ∧ ∀ x y, x ∈ images1 → y ∈ images1 →
                   CampaignImage.campaign_id x = CampaignImage.campaign_id y →
                   CampaignImage.active x = Some true →
                   CampaignImage.active y = Some true →
                   CampaignImage.order x = CampaignImage.order y → x = y) →
     Tablets.get_active_for_station db1 station_code now
     = Tablets.get_active_for_station db2 station_code now).
Proof.
  intros Hst Hr1 Hr2 Horder.
  assert (Campaigns.station_query db1 station_code
          = Campaigns.station_query db2 station_code) as Hq.
  { destruct Hst as [Hst|(stations1 & stations2 & H1 & H2 & Hperm & Hone)].
    - unfold Campaigns.station_query. by rewrite Hst.
    - rewrite (station_query_active_station _ _ _ H1).
      rewrite (station_query_active_station _ _ _ H2).
      f_equal. by apply active_station_Permutation. }
  assert (Campaigns.resolve db1 station_code now
          = Campaigns.resolve db2 station_code now) as Hres.
  { destruct Horder as [<-|[Hperm Hinj]].
    - unfold Campaigns.resolve, Campaigns.campaign_query.
      by rewrite Hq, Hr1, Hr2.
    - by eapply resolve_Permutation. }
  split.
  - unfold Campaigns.active_by_station. by rewrite Hres.
  - intros Himg. rewrite !get_active_for_station_unfold, Hres. simpl.
    rewrite (campaigns_with_images_ext db1 db2); [done|].
    intros c.
    destruct Himg as [Himg|(images1 & images2 & H1 & H2 & Hperm & Hinj)].
    + unfold Tablets.image_query. by rewrite Himg.
    + by eapply image_query_Permutation.
Qed.

Lemma ranking_is_repeatable_on_distinct_sort_keys_witness :
  Campaigns.active_by_station
    (mkDb (Ok [Scenario.station_002; Scenario.station_001])
          (Ok [Scenario.A; Scenario.B; Scenario.C; Scenario.D])
          (Ok Scenario.images))
    "001" Scenario.now
  = Campaigns.active_by_station
      (mkDb (Ok [Scenario.station_001; Scenario.station_002])
            (Ok [Scenario.D; Scenario.C; Scenario.B; Scenario.A])
            (Ok (reverse Scenario.images)))
      "001" Scenario.now
  ∧ Tablets.get_active_for_station
      (mkDb (Ok [Scenario.station_002; Scenario.station_001])
            (Ok [Scenario.A; Scenario.B; Scenario.C; Scenario.D])
            (Ok Scenario.images))
      "001" Scenario.now
    = Tablets.get_active_for_station
        (mkDb (Ok [Scenario.station_001; Scenario.station_002])
              (Ok [Scenario.D; Scenario.C; Scenario.B; Scenario.A])
              (Ok (reverse Scenario.images)))
        "001" Scenario.now.
Proof.
  destruct (ranking_is_repeatable_on_distinct_sort_keys
              (mkDb (Ok [Scenario.station_002; Scenario.station_001])
                    (Ok [Scenario.A; Scenario.B; Scenario.C; Scenario.D])
                    (Ok Scenario.images))
              (mkDb (Ok [Scenario.station_001; Scenario.station_002])
                    (Ok [Scenario.D; Scenario.C; Scenario.B; Scenario.A])
                    (Ok (reverse Scenario.images)))
              "001" Scenario.now
              [Scenario.A; Scenario.B; Scenario.C; Scenario.D]
              [Scenario.D; Scenario.C; Scenario.B; Scenario.A])
    as [Hdash Htablet].
  - right.
    exists [Scenario.station_002; Scenario.station_001],
           [Scenario.station_001; Scenario.station_002].
    split; [reflexivity|]. split; [reflexivity|]. split.
    + apply Permutation_swap.
    + intros s s' Hs Hs' Hcode _ Hcode' _.
      repeat (apply elem_of_cons in Hs as [->|Hs]);
        [..|by apply elem_of_nil in Hs];
        (repeat (apply elem_of_cons in Hs' as [->|Hs']);
         [..|by apply elem_of_nil in Hs']);
        first [reflexivity | discriminate Hcode | discriminate Hcode'].
  - reflexivity.
  - reflexivity.
  - right. split.
    + symmetry.
      exact (reverse_Permutation
               [Scenario.A; Scenario.B; Scenario.C; Scenario.D]).
    + intros x y Hx Hy _ _ Hkey.
      repeat (apply elem_of_cons in Hx as [->|Hx]);
        [..|by apply elem_of_nil in Hx];
        (repeat (apply elem_of_cons in Hy as [->|Hy]);
         [..|by apply elem_of_nil in Hy]);
        first [reflexivity | discriminate Hkey].
  - split; [exact Hdash|]. apply Htablet. right.
    exists Scenario.images, (reverse Scenario.images).
    split; [reflexivity|]. split; [reflexivity|]. split.
    + symmetry. apply reverse_Permutation.
    + intros x y Hx Hy Hc Hax Hay Ho.
      repeat (apply elem_of_cons in Hx as [->|Hx]);
        [..|by apply elem_of_nil in Hx];
        (repeat (apply elem_of_cons in Hy as [->|Hy]);
         [..|by apply elem_of_nil in Hy]);
        first [reflexivity | discriminate Hc | discriminate Hax
              | discriminate Hay | discriminate Ho].
Defined.

(** The claim of C6 fails on the code: [X] and [Y] have the same priority
    and creation time, and the response lists them in the order the
    catalog returned them. *)
Lemma tied_campaigns_follow_the_fetch_order :
  q_campaigns Scenario.db_xy = Ok [Scenario.X; Scenario.Y]
  ∧ q_campaigns Scenario.db_yx = Ok [Scenario.Y; Scenario.X]
  ∧ Campaigns.sort_key Scenario.X = Campaigns.sort_key Scenario.Y
  ∧ (fmap Campaigns.Item.name ∘ Campaigns.Response.campaigns)
      <$> Campaigns.active_by_station Scenario.db_xy "001" Scenario.now
    = Ok ["X"; "Y"]
  ∧ (fmap Campaigns.Item.name ∘ Campaigns.Response.campaigns)
      <$> Campaigns.active_by_station Scenario.db_yx "001" Scenario.now
    = Ok ["Y"; "X"]
  ∧ (fmap Tablets.Item.name ∘ Tablets.Response.campaigns)
      <$> Tablets.get_active_for_station Scenario.db_xy "001" Scenario.now
    = Ok ["X"; "Y"]
  ∧ (fmap Tablets.Item.name ∘ Tablets.Response.campaigns)
      <$> Tablets.get_active_for_station Scenario.db_yx "001" Scenario.now
    = Ok ["Y"; "X"].
Proof. repeat split. Qed.

(** The same holds of the rows of the other two tables.  Two uploaded
    images of campaign [C] both have order 0, and the tablet lists them in
    the order the database returned them. *)
Example tied_images_follow_the_fetch_order :
  (fmap (fmap Tablets.Image.id ∘ Tablets.Item.images)
     ∘ Tablets.Response.campaigns)
    <$> Tablets.get_active_for_station
          (mkDb (Ok [Scenario.station_001]) (Ok [Scenario.C])
                (Ok [Scenario.image 21 3 0 None true;
                     Scenario.image 22 3 0 None true]))
          "001" Scenario.now
  = Ok [[21%N; 22%N]]
  ∧ (fmap (fmap Tablets.Image.id ∘ Tablets.Item.images)
       ∘ Tablets.Response.campaigns)
      <$> Tablets.get_active_for_station
            (mkDb (Ok [Scenario.station_001]) (Ok [Scenario.C])
                  (Ok [Scenario.image 22 3 0 None true;
                       Scenario.image 21 3 0 None true]))
            "001" Scenario.now
    = Ok [[22%N; 21%N]].
Proof. repeat split. Qed.

(** ** C10 *)

(** C10: the station is looked up by code and active flag only.  The rows
    the scan passes over are those with another code or not active, and
    whatever follows the first row with the code and the flag is ignored,
    whatever branch it belongs to: the station, branch code and region
    used for targeting, on both surfaces, are those of that row.  The
    unique constraint allows two active stations "001" under different
    branches, and for such a directory the same request is resolved
    against one branch or the other as the scan order goes. *)
Theorem station_lookup_takes_the_first_matching_row :
  (∀ db station_code now pre s post rows,
     q_stations db = Ok (pre ++ s :: post) →
     Forall (λ x, Station.code x ≠ station_code
                  ∨ Station.is_active x ≠ Some true) pre →
     Station.code s = station_code → Station.is_active s = Some true →
     q_campaigns db = Ok rows →
     let d := Campaigns.resolve db station_code now in
     let t := Tablets.resolve db station_code now in
     Campaigns.Locals.station d = Some (Some s)
     ∧ Campaigns.Locals.branch_code d = Some (branch_code_of s)
     ∧ Campaigns.Locals.region d = Some (region_of s)
     ∧ Tablets.Locals.station t = Some (Some s)
     ∧ Tablets.Locals.branch_code t = Some (branch_code_of s)
     ∧ Tablets.Locals.region t = Some (region_of s)
     ∧ Campaigns.Response.branch_code
         <$> Campaigns.active_by_station db station_code now
       = Ok (branch_code_of s)
     ∧ Campaigns.Response.region
         <$> Campaigns.active_by_station db station_code now
       = Ok (region_of s))
  ∧ (∃ s1 s2,
       Station.code s1 = Station.code s2
       ∧ Station.is_active s1 = Some true ∧ Station.is_active s2 = Some true
       ∧ Station.branch_id s1 ≠ Station.branch_id s2
       ∧ Station._branch_station_uc [s1; s2]
       ∧ branch_code_of s1 ≠ branch_code_of s2
       ∧ ∀ campaigns images now,
           Campaigns.Response.branch_code
             <$> Campaigns.active_by_station
                   (mkDb (Ok [s1; s2]) (Ok campaigns) images)
                   (Station.code s1) now
           = Ok (branch_code_of s1)
           ∧ Campaigns.Response.branch_code
               <$> Campaigns.active_by_station
                     (mkDb (Ok [s2; s1]) (Ok campaigns) images)
                     (Station.code s1) now
             = Ok (branch_code_of s2)).
Proof.
  assert (∀ db station_code now pre s post rows,
     q_stations db = Ok (pre ++ s :: post) →
     Forall (λ x, Station.code x ≠ station_code
                  ∨ Station.is_active x ≠ Some true) pre →
     Station.code s = station_code → Station.is_active s = Some true →
     q_campaigns db = Ok rows →
     let d := Campaigns.resolve db station_code now in
     Campaigns.Locals.station d = Some (Some s)
     ∧ Campaigns.Locals.branch_code d = Some (branch_code_of s)
     ∧ Campaigns.Locals.region d = Some (region_of s)) as Hfirst.
  { intros db station_code now pre s post rows Hq Hpre Hcode Hact Hc.
    apply (resolve_location _ _ _ (Some s)
             (List.filter (Campaigns.campaign_filter now) rows)).
    - rewrite (station_query_active_station _ _ _ Hq). f_equal.
      by apply (active_station_first _ _ pre s post).
    - unfold Campaigns.campaign_query. by rewrite Hc. }
  assert (∀ db station_code now pre s post rows,
     q_stations db = Ok (pre ++ s :: post) →
     Forall (λ x, Station.code x ≠ station_code
                  ∨ Station.is_active x ≠ Some true) pre →
     Station.code s = station_code → Station.is_active s = Some true →
     q_campaigns db = Ok rows →
     Campaigns.Response.branch_code
       <$> Campaigns.active_by_station db station_code now
     = Ok (branch_code_of s)
     ∧ Campaigns.Response.region
         <$> Campaigns.active_by_station db station_code now
       = Ok (region_of s)) as Hresp.
  { intros db station_code now pre s post rows Hq Hpre Hcode Hact Hc.
    destruct (Hfirst _ _ now _ _ _ _ Hq Hpre Hcode Hact Hc) as (Hs & Hb & Hr).
    simpl in Hs, Hb, Hr.
    unfold Campaigns.active_by_station, Campaigns.if_station.
    by rewrite Hs, Hb, Hr. }
  split.
  - intros db station_code now pre s post rows Hq Hpre Hcode Hact Hc d t.
    destruct (Hfirst _ _ now _ _ _ _ Hq Hpre Hcode Hact Hc) as (Hs & Hb & Hr).
    destruct (Hresp _ _ now _ _ _ _ Hq Hpre Hcode Hact Hc) as (Hrb & Hrr).
    destruct (resolve_agree db station_code now) as (Hs' & Hb' & Hr' & _).
    simpl in Hs', Hb', Hr'. subst d t. by rewrite Hs', Hb', Hr'.
  - exists Scenario.station_001, Scenario.station_001_of_020202.
    do 3 (split; [done|]). split; [done|].
    split. { unfold Station._branch_station_uc. simpl.
             apply NoDup_cons. split; [|apply NoDup_singleton].
             by intros [=]%list_elem_of_singleton. }
    split; [done|].
    intros campaigns images now. split.
    + by apply (Hresp (mkDb (Ok [Scenario.station_001;
                                 Scenario.station_001_of_020202])
                            (Ok campaigns) images)
                  "001" now [] Scenario.station_001
                  [Scenario.station_001_of_020202] campaigns).
    + by apply (Hresp (mkDb (Ok [Scenario.station_001_of_020202;
                                 Scenario.station_001])
                            (Ok campaigns) images)
                  "001" now [] Scenario.station_001_of_020202
                  [Scenario.station_001] campaigns).
Qed.

Lemma station_lookup_takes_the_first_matching_row_witness :
  Campaigns.Locals.branch_code
    (Campaigns.resolve
       (mkDb (Ok [Scenario.station_002; Scenario.station_001_closed;
                  Scenario.station_001_of_020202; Scenario.station_001])
             (Ok [Scenario.A]) (Ok []))
       "001" Scenario.now)
  = Some (Some "020202").
Proof.
  refine (proj1 (proj2 (proj1 station_lookup_takes_the_first_matching_row
           (mkDb (Ok [Scenario.station_002; Scenario.station_001_closed;
                      Scenario.station_001_of_020202; Scenario.station_001])
                 (Ok [Scenario.A]) (Ok []))
           "001" Scenario.now
           [Scenario.station_002; Scenario.station_001_closed]
           Scenario.station_001_of_020202
           [Scenario.station_001] [Scenario.A]
           eq_refl _ eq_refl eq_refl eq_refl))).
  apply Forall_cons. split; [left; discriminate|].
  apply Forall_cons. split; [right; discriminate|].
  apply Forall_nil_2.
Defined.

(** * The code around the resolver *)


(** ** app/utils/regions.py: the two tables *)

Lemma ascii_upper_idemp c : ascii_upper (ascii_upper c) = ascii_upper c.
Proof. by destruct c as [[] [] [] [] [] [] [] []]. Qed.

Lemma upper_idemp s : upper (upper s) = upper s.
Proof.
  induction s as [|c s IH]; simpl; [done|].
  by rewrite ascii_upper_idemp, IH.
Qed.

Lemma STATE_TO_REGION_lookup s r :
  Regions.STATE_TO_REGION !! s = Some r ↔
  (s, r) ∈ map_to_list Regions.STATE_TO_REGION.
Proof. by rewrite elem_of_map_to_list. Qed.

Lemma state_listed_under_its_region s r :
  Regions.STATE_TO_REGION !! s = Some r → s ∈ Regions.get_states_by_region r.
Proof.
  intros H%elem_of_map_to_list.
  assert (Forall (λ p, p.1 ∈ Regions.get_states_by_region p.2)
            (map_to_list Regions.STATE_TO_REGION)) as HF.
  { apply (bool_decide_unpack _). by vm_compute. }
  by apply (proj1 (Forall_forall _ _) HF (s, r)).
Qed.

Lemma listed_state_has_the_region s r :
  s ∈ Regions.get_states_by_region r → Regions.STATE_TO_REGION !! s = Some r.
Proof.
  unfold Regions.get_states_by_region.
  destruct (Regions.REGION_TO_STATES !! r) as [l|] eqn:Hl; simpl;
    [|by intros ?%elem_of_nil].
  apply elem_of_map_to_list in Hl.
  assert (Forall (λ p, Forall (λ s, Regions.STATE_TO_REGION !! s = Some p.1)
                         p.2)
            (map_to_list Regions.REGION_TO_STATES)) as HF.
  { apply (bool_decide_unpack _). by vm_compute. }
  intros Hs.
  pose proof (proj1 (Forall_forall _ _) HF (r, l) Hl) as Hall. simpl in Hall.
  by apply (proj1 (Forall_forall _ _) Hall s).
Qed.

(** X1: the two region tables say the same thing: a state maps to a region
    in [STATE_TO_REGION] exactly when [get_states_by_region] lists it under
    that region, so every state is listed under one region only. *)
Theorem region_tables_agree (s r : string) :
  (Regions.STATE_TO_REGION !! s = Some r ↔ s ∈ Regions.get_states_by_region r)
  ∧ (∀ r', s ∈ Regions.get_states_by_region r →
           s ∈ Regions.get_states_by_region r' → r = r').
Proof.
  split.
  - split; [apply state_listed_under_its_region
           |apply listed_state_has_the_region].
  - intros r' H1%listed_state_has_the_region H2%listed_state_has_the_region.
    congruence.
Qed.

(** X2: a state is valid exactly when it has a region; that region is one
    of the five valid ones and lists the state; case does not matter; and
    a region is valid exactly when it has states. *)
Theorem valid_states_have_valid_regions (s : string) :
  (Regions.is_valid_state s = true ↔ is_Some (Regions.get_region_by_state s))
  ∧ (∀ r, Regions.get_region_by_state s = Some r →
          Regions.is_valid_region r = true
          ∧ upper s ∈ Regions.get_states_by_region r)
  ∧ Regions.get_region_by_state (upper s) = Regions.get_region_by_state s
  ∧ Regions.is_valid_state (upper s) = Regions.is_valid_state s
  ∧ (∀ r, Regions.is_valid_region r = true ↔
          Regions.get_states_by_region r ≠ []).
Proof.
  split; [|split; [|split; [|split]]].
  - unfold Regions.is_valid_state, Regions.get_region_by_state.
    apply bool_decide_eq_true.
  - unfold Regions.get_region_by_state. intros r Hr. split.
    + apply elem_of_map_to_list in Hr.
      assert (Forall (λ p, Regions.is_valid_region p.2 = true)
                (map_to_list Regions.STATE_TO_REGION)) as HF.
      { apply (bool_decide_unpack _). by vm_compute. }
      by apply (proj1 (Forall_forall _ _) HF (upper s, r)).
    + by apply state_listed_under_its_region.
  - unfold Regions.get_region_by_state. by rewrite upper_idemp.
  - unfold Regions.is_valid_state. by rewrite upper_idemp.
  - intros r. unfold Regions.is_valid_region, Regions.get_states_by_region.
    rewrite bool_decide_eq_true. split.
    + intros Hr.
      assert (Forall (λ r, default [] (Regions.REGION_TO_STATES !! r) ≠ [])
                Regions.REGIONS) as HF.
      { apply (bool_decide_unpack _). by vm_compute. }
      by apply (proj1 (Forall_forall _ _) HF r).
    + destruct (Regions.REGION_TO_STATES !! r) as [l|] eqn:Hl; [|done].
      intros _. apply elem_of_map_to_list in Hl.
      assert (Forall (λ p, p.1 ∈ Regions.REGIONS)
                (map_to_list Regions.REGION_TO_STATES)) as HF.
      { apply (bool_decide_unpack _). by vm_compute. }
      by apply (proj1 (Forall_forall _ _) HF (r, l)).
Qed.

(** ** app/schemas/campaign.py and [create_campaign] *)

Lemma validate_regions_Forall v :
  CampaignBase.validate_regions v = true ↔
  Forall (λ r, Regions.is_valid_region r = true) v.
Proof.
  induction v as [|r v IH]; simpl.
  { split; [constructor|done]. }
  rewrite Forall_cons, <-IH.
  destruct (Regions.is_valid_region r); simpl; naive_solver.
Qed.

Lemma create_campaign_Returned payload id created_at rows entity rows' :
  CampaignsCrud.create_campaign payload id created_at rows
  = Returned (entity, rows') →
  Campaign.id entity = id
  ∧ Campaign.branches entity
    = CampaignsCrud.array (CampaignBase.branches payload)
  ∧ Campaign.regions entity
    = CampaignsCrud.array (CampaignBase.regions payload)
  ∧ Campaign.stations entity
    = CampaignsCrud.array (CampaignBase.stations payload)
  ∧ Campaign.is_deleted entity = Some false
  ∧ (id ∉ (Campaign.id <$> rows))
  ∧ rows' = rows ++ [entity].
Proof.
  unfold CampaignsCrud.create_campaign.
  destruct (CampaignsCrud.status_column _) as [status|]; [|done].
  case_bool_decide as Hid; [done|].
  destruct (CampaignsCrud.fits _); [|done]. by intros [= <- <-].
Qed.

(** X3: a campaign stored by [create_campaign] from a body that passed
    validation has valid regions, has branches whenever it has stations,
    and is decided for every known station by the very rule its
    targeting level names; an unknown station gets it only when the level
    is "global".  Its regions play no part once it has branches. *)
Theorem created_campaign_is_decided_by_the_rule_its_level_names
    (payload : CampaignBase.t) (id : N) (created_at : Z)
    (rows rows' : list Campaign.t) (entity : Campaign.t) :
  CampaignBase.validate payload = true →
  CampaignsCrud.create_campaign payload id created_at rows
  = Returned (entity, rows') →
  Forall (λ r, Regions.is_valid_region r = true) (CampaignBase.regions payload)
  ∧ (CampaignBase.stations payload ≠ [] → CampaignBase.branches payload ≠ [])
  ∧ (∀ st station_code,
       Campaigns.applies (Some st) (branch_code_of st) (region_of st)
         station_code entity
       = Ok (rule_named (Campaigns.targeting_level entity)
               (branch_code_of st) (region_of st) station_code payload))
  ∧ (∀ station_code,
       Campaigns.applies None None None station_code entity
       = Ok (String.eqb (Campaigns.targeting_level entity) "global")).
Proof.
  intros Hvalid (_ & Hb & Hr & Hs & _)%create_campaign_Returned.
  unfold CampaignBase.validate in Hvalid.
  apply andb_true_iff in Hvalid as [Hregions Hstations].
  split; [by apply validate_regions_Forall|].
  split.
  { destruct (CampaignBase.stations payload), (CampaignBase.branches payload);
      done. }
  unfold Campaigns.applies, Campaigns.targeting_level, rule_named.
  rewrite Hb, Hr, Hs. unfold CampaignsCrud.array.
  destruct (CampaignBase.stations payload) as [|s ss],
           (CampaignBase.branches payload) as [|b bs],
           (CampaignBase.regions payload) as [|r rs];
    try discriminate Hstations; simpl; split; intros; try reflexivity.
  all: by destruct (bool_decide (branch_code_of st ∈ _)).
Qed.

Lemma created_campaign_is_decided_by_the_rule_its_level_names_witness :
  Forall (λ r, Regions.is_valid_region r = true)
    (CampaignBase.regions Example.body)
  ∧ (CampaignBase.stations Example.body ≠ [] →
     CampaignBase.branches Example.body ≠ [])
  ∧ (∀ st station_code,
       Campaigns.applies (Some st) (branch_code_of st) (region_of st)
         station_code Example.created.1
       = Ok (rule_named "station" (branch_code_of st) (region_of st)
               station_code Example.body))
  ∧ (∀ station_code,
       Campaigns.applies None None None station_code Example.created.1
       = Ok false).
Proof.
  exact (created_campaign_is_decided_by_the_rule_its_level_names
           Example.body 5 5 [Scenario.A] Example.created.2 Example.created.1
           eq_refl eq_refl).
Defined.

(** ** [update_campaign], [list_campaigns], [get_campaign] *)

Lemma Orm_get_Some {A} (pk : A → N) id rows e :
  Orm.get pk id rows = Some e → e ∈ rows ∧ pk e = id.
Proof.
  unfold Orm.get. intros Hhd.
  assert (e ∈ List.filter (λ r, bool_decide (pk r = id)) rows) as Hin.
  { destruct (List.filter _ rows); simplify_eq/=. by left. }
  apply elem_of_List_filter in Hin as [Hin Hpk].
  by apply bool_decide_eq_true in Hpk.
Qed.

Lemma Orm_get_None {A} (pk : A → N) id rows :
  Orm.get pk id rows = None ↔ (id ∉ (pk <$> rows)).
Proof.
  unfold Orm.get. induction rows as [|r rows IH]; simpl.
  { split; [intros _ ?%elem_of_nil; done|done]. }
  rewrite not_elem_of_cons. case_bool_decide; simpl; [naive_solver|].
  rewrite IH. naive_solver.
Qed.

Lemma Orm_get_NoDup {A} (pk : A → N) id rows e :
  NoDup (pk <$> rows) → e ∈ rows → pk e = id → Orm.get pk id rows = Some e.
Proof.
  unfold Orm.get. induction rows as [|r rows IH]; simpl.
  { by intros _ ?%elem_of_nil. }
  intros [Hr Hnd]%NoDup_cons [->|Hin]%elem_of_cons Hpk.
  - by rewrite bool_decide_eq_true_2.
  - case_bool_decide as Hr'; simpl; [|by apply IH].
    exfalso. apply Hr. rewrite Hr', <-Hpk. by apply list_elem_of_fmap_2.
Qed.

Lemma elem_of_Orm_update {A} (pk : A → N) id f rows c :
  c ∈ Orm.update pk id f rows ↔
  ∃ r, r ∈ rows ∧ c = if decide (pk r = id) then f r else r.
Proof. unfold Orm.update. rewrite list_elem_of_fmap. naive_solver. Qed.

Lemma resolved_elem_of stations rows station_code now c :
  c ∈ resolved stations rows station_code now →
  c ∈ rows ∧ Campaigns.campaign_filter now c = true
  ∧ ∃ station,
      Campaigns.applies station (branch_code_at station) (region_at station)
        station_code c = Ok true.
Proof.
  intros (station & rows' & _ & [= <-] & Hin & Hc & Happ)%resolve_elem_of.
  eauto.
Qed.

Lemma resolved_tablet_eq stations rows station_code now :
  resolved_tablet stations rows station_code now
  = resolved stations rows station_code now.
Proof.
  unfold resolved_tablet, resolved.
  by destruct (resolve_agree (mkDb (Ok stations) (Ok rows) (Ok []))
                 station_code now) as (_ & _ & _ & ->).
Qed.

Lemma applies_stations_without_branches station branch_code region
    station_code c :
  truthy (Campaign.branches c) = false →
  truthy (Campaign.stations c) = true →
  Campaigns.applies station branch_code region station_code c = Ok false.
Proof.
  intros Hb Hs. unfold Campaigns.applies.
  rewrite !truthy_or_empty, Hb, Hs. simpl.
  rewrite !andb_false_r. by destruct station.
Qed.

Lemma storable_array_array ss :
  Forall (λ s, CampaignsCrud.storable s = true) ss →
  CampaignsCrud.storable_array (CampaignsCrud.array ss) = true.
Proof.
  unfold CampaignsCrud.storable_array, CampaignsCrud.array.
  induction 1 as [|s ss Hs _ IH]; [done|]. rewrite fmap_cons. simpl.
  by rewrite Hs, IH.
Qed.

Lemma strings_array ss :
  CampaignsCrud.strings (Some <$> ss) = Some ss.
Proof. induction ss as [|s ss IH]; [done|]. rewrite fmap_cons. simpl. by rewrite IH. Qed.

Lemma stations_without_branches_not_serializable entity ss :
  truthy (Campaign.branches entity) = false →
  Campaign.stations entity = CampaignsCrud.array ss → ss ≠ [] →
  CampaignsCrud.serializable entity = false.
Proof.
  intros Hb Hs Hss. unfold CampaignsCrud.serializable.
  rewrite Hs. unfold CampaignsCrud.array.
  destruct (Campaign.branches entity) as [|[|b bs]|n]; try done.
  destruct (Campaign.regions entity) as [|rs|]; try done. simpl.
  destruct (CampaignsCrud.strings rs) as [regions|]; [|done].
  rewrite strings_array. destruct ss; [done|]. simpl.
  by rewrite andb_false_r.
Qed.

(** X4: [update_campaign] accepts a body that names stations and leaves
    [branches] out, whatever the stored branches are (creation refuses the
    same combination).  On a campaign without branches the row is written
    with the stations, the answer is 500 all the same, the response model
    refusing the entity that was just stored, and from then on no station,
    known or unknown, is ever served the campaign, on either surface. *)
Theorem update_with_stations_alone_strands_the_campaign
    (rows : list Campaign.t) (id : N) (entity : Campaign.t)
    (ss : list string) :
  Orm.get Campaign.id id rows = Some entity →
  CampaignsCrud.deleted entity = false →
  CampaignsCrud.fits entity = true →
  truthy (Campaign.branches entity) = false →
  ss ≠ [] →
  Forall (λ s, CampaignsCrud.storable s = true) ss →
  CampaignUpdate.validate (only_stations ss) = true
  ∧ (∀ p, CampaignBase.branches p = [] → CampaignBase.stations p = ss →
          CampaignBase.validate p = false)
  ∧ ∃ rows',
      CampaignsCrud.update_campaign id (only_stations ss) rows
      = (rows', Unhandled)
      ∧ (∃ entity', entity' ∈ rows' ∧ Campaign.id entity' = id
                    ∧ Campaign.stations entity' = CampaignsCrud.array ss
                    ∧ Campaign.branches entity' = Campaign.branches entity)
      ∧ (∀ c, c ∈ rows' → Campaign.id c = id →
              Campaign.stations c = CampaignsCrud.array ss)
      ∧ ∀ stations station_code now,
          (id ∉ (Campaign.id <$> resolved stations rows' station_code now))
          ∧ (id ∉ (Campaign.id
                     <$> resolved_tablet stations rows' station_code now)).
Proof.
  intros Hget Hdel Hfits Hbr Hss Hstorable.
  split; [by destruct ss|]. split.
  { intros p Hb Hs. unfold CampaignBase.validate. rewrite Hb, Hs.
    destruct ss; [done|]. by rewrite andb_false_r. }
  apply Orm_get_Some in Hget as Hentity. destruct Hentity as [Hin Hid].
  set (entity' :=
         {| Campaign.id := Campaign.id entity;
            Campaign.name := Campaign.name entity;
            Campaign.status := Campaign.status entity;
            Campaign.start_date := Campaign.start_date entity;
            Campaign.end_date := Campaign.end_date entity;
            Campaign.default_display_time :=
              Campaign.default_display_time entity;
            Campaign.branches := Campaign.branches entity;
            Campaign.regions := Campaign.regions entity;
            Campaign.stations := CampaignsCrud.array ss;
            Campaign.priority := Campaign.priority entity;
            Campaign.is_deleted := Campaign.is_deleted entity;
            Campaign.created_at := Campaign.created_at entity |}).
  assert (CampaignsCrud.apply_update (only_stations ss) entity
          = Some entity') as Happly.
  { unfold CampaignsCrud.apply_update. simpl. fold entity'.
    replace (CampaignsCrud.fits entity') with true; [done|].
    symmetry. unfold CampaignsCrud.fits in Hfits |- *. simpl.
    repeat (apply andb_true_iff in Hfits as [Hfits ?]).
    repeat (apply andb_true_iff; split); try done.
    by apply storable_array_array. }
  unfold CampaignsCrud.update_campaign. rewrite Hget, Hdel, Happly.
  rewrite (stations_without_branches_not_serializable entity' ss)
    by done.
  eexists. split; [done|]. split; [|split].
  - exists entity'. split; [|by rewrite <-Hid].
    apply elem_of_Orm_update. exists entity. split; [done|].
    by rewrite decide_True.
  - intros c (r & _ & ->)%elem_of_Orm_update Hc.
    by destruct (decide (Campaign.id r = id)).
  - assert (∀ stations station_code now,
              id ∉ (Campaign.id
                      <$> resolved stations
                            (Orm.update Campaign.id id (λ _, entity') rows)
                            station_code now)) as Hnot.
    { intros stations station_code now (c & Hc & Hres)%list_elem_of_fmap.
      apply resolved_elem_of in Hres as (Hres & _ & station & Happ).
      apply elem_of_Orm_update in Hres as (r & _ & ->).
      destruct (decide (Campaign.id r = id)) as [_|Hne]; [|done].
      rewrite applies_stations_without_branches in Happ; [done|done|].
      simpl. by destruct ss. }
    intros stations station_code now. split; [apply Hnot|].
    rewrite resolved_tablet_eq. apply Hnot.
Qed.

Lemma update_with_stations_alone_strands_the_campaign_witness :
  ∃ rows',
    CampaignsCrud.update_campaign 1 (only_stations ["001"]) [Scenario.A]
    = (rows', Unhandled)
    ∧ (∃ entity', entity' ∈ rows' ∧ Campaign.id entity' = 1%N
                  ∧ Campaign.stations entity' = PyList [Some "001"]
                  ∧ Campaign.branches entity' = PyList [])
    ∧ (∀ c, c ∈ rows' → Campaign.id c = 1%N →
            Campaign.stations c = PyList [Some "001"])
    ∧ ∀ stations station_code now,
        (1%N ∉ (Campaign.id <$> resolved stations rows' station_code now))
        ∧ (1%N ∉ (Campaign.id
                    <$> resolved_tablet stations rows' station_code now)).
Proof.
  apply (update_with_stations_alone_strands_the_campaign
           [Scenario.A] 1 Scenario.A ["001"]);
    [reflexivity|reflexivity|reflexivity|reflexivity|discriminate|].
  by repeat constructor.
Defined.

Lemma responses_Some items result :
  CampaignsCrud.responses items = Some result →
  Forall (λ c, is_Some (CampaignsCrud.campaign_response c)) items
  ∧ CampaignResponse.id <$> result = Campaign.id <$> items
  ∧ CampaignResponse.created_at <$> result = Campaign.created_at <$> items.
Proof.
  revert result. induction items as [|c items IH]; intros result; simpl.
  { intros [= <-]. by repeat split. }
  destruct (CampaignsCrud.campaign_response c) as [r|] eqn:Hr; [|done].
  simpl. destruct (CampaignsCrud.responses items) as [rs|]; [|done].
  simpl. intros [= <-]. destruct (IH rs eq_refl) as (Hall & Hid & Hcr).
  split; [constructor; [by eexists|done]|].
  unfold CampaignsCrud.campaign_response in Hr.
  destruct (CampaignsCrud.list_of_str (Campaign.branches c)); [|done].
  destruct (CampaignsCrud.list_of_str (Campaign.regions c)); [|done].
  destruct (CampaignsCrud.list_of_str (Campaign.stations c)); [|done].
  simpl in Hr. case_match; [|done]. injection Hr as <-.
  by rewrite !fmap_cons, Hid, Hcr.
Qed.

Lemma responses_None items :
  CampaignsCrud.responses items = None ↔
  Exists (λ c, CampaignsCrud.campaign_response c = None) items.
Proof.
  induction items as [|c items IH]; simpl.
  { split; [done|by intros ?%Exists_nil]. }
  rewrite Exists_cons, <-IH.
  destruct (CampaignsCrud.campaign_response c); simpl; [|naive_solver].
  destruct (CampaignsCrud.responses items); simpl; naive_solver.
Qed.

Lemma campaign_response_stations_without_branches c :
  truthy (Campaign.stations c) = true →
  truthy (Campaign.branches c) = false →
  CampaignsCrud.campaign_response c = None.
Proof.
  intros Hs Hb. unfold CampaignsCrud.campaign_response, CampaignsCrud.list_of_str.
  unfold or_empty. rewrite Hs, Hb. simpl.
  destruct (match or_empty (Campaign.regions c) with
            | PyList xs => CampaignsCrud.strings xs
            | _ => None
            end) as [rs|] eqn:Hrs; unfold or_empty in Hrs; rewrite Hrs;
    simpl; [|done].
  destruct (Campaign.stations c) as [|[|[s|] xs]|n]; simpl in *; try done.
  destruct (CampaignsCrud.strings xs); simpl; [|done].
  by rewrite andb_false_r.
Qed.

Lemma Z_ltb_asym a b : (a <? b) = true → (b <? a) = false.
Proof. lia. Qed.

Lemma Z_ltb_negtrans a b c :
  (a <? b) = false → (b <? c) = false → (a <? c) = false.
Proof. lia. Qed.

(** X5: [list_campaigns] answers exactly when every campaign that is not
    deleted can be turned into a [CampaignResponse]; it then lists those
    campaigns, newest first.  One stored campaign with stations and no
    branches makes the whole listing fail, and [get_campaign] on it fails
    too instead of answering. *)
Theorem one_campaign_with_stations_and_no_branches_fails_the_listing
    (rows : list Campaign.t) :
  ((∃ result, CampaignsCrud.list_campaigns rows = Returned result) ↔
   ∀ c, c ∈ rows → CampaignsCrud.not_deleted c = true →
        is_Some (CampaignsCrud.campaign_response c))
  ∧ (∀ result,
       CampaignsCrud.list_campaigns rows = Returned result →
       CampaignResponse.id <$> result
       ≡ₚ Campaign.id <$> List.filter CampaignsCrud.not_deleted rows
       ∧ StronglySorted (λ a b, b ≤ a) (CampaignResponse.created_at <$> result))
  ∧ (∀ c, c ∈ rows → Campaign.is_deleted c = Some false →
          truthy (Campaign.stations c) = true →
          truthy (Campaign.branches c) = false →
          CampaignsCrud.list_campaigns rows = Unhandled
          ∧ (NoDup (Campaign.id <$> rows) →
             CampaignsCrud.get_campaign (Campaign.id c) rows = Unhandled)).
Proof.
  unfold CampaignsCrud.list_campaigns.
  set (items := sorted Z.ltb Campaign.created_at true
                  (List.filter CampaignsCrud.not_deleted rows)).
  assert (∀ c, c ∈ items ↔ c ∈ rows ∧ CampaignsCrud.not_deleted c = true)
    as Hitems.
  { intros c. unfold items. by rewrite elem_of_sorted, elem_of_List_filter. }
  split; [|split].
  - destruct (CampaignsCrud.responses items) as [result|] eqn:Hres.
    + apply responses_Some in Hres as (Hall & _ & _).
      split; [|by eauto]. intros _ c Hc Hnd.
      apply (proj1 (Forall_forall _ _) Hall). by apply Hitems.
    + apply responses_None, Exists_exists in Hres as (c & Hc & Hnone).
      apply Hitems in Hc as [Hc Hnd].
      split; [by intros [? ?]|]. intros Hall.
      specialize (Hall c Hc Hnd). rewrite Hnone in Hall. by destruct Hall.
  - intros result.
    destruct (CampaignsCrud.responses items) as [result'|] eqn:Hres; [|done].
    intros [= <-]. apply responses_Some in Hres as (_ & Hid & Hcr).
    rewrite Hid, Hcr. split.
    + unfold items. by rewrite sorted_Permutation.
    + apply (StronglySorted_fmap _ (ahead Z.ltb Campaign.created_at true)).
      { unfold ahead. intros x y. lia. }
      apply sorted_StronglySorted; [apply Z_ltb_asym|apply Z_ltb_negtrans].
  - intros c Hc Hdel Hs Hb.
    pose proof (campaign_response_stations_without_branches c Hs Hb) as Hnone.
    assert (CampaignsCrud.not_deleted c = true) as Hnd.
    { unfold CampaignsCrud.not_deleted. by rewrite Hdel. }
    split.
    + assert (CampaignsCrud.responses items = None) as ->; [|done].
      apply responses_None, Exists_exists. exists c. split; [|done].
      by apply Hitems.
    + intros Hnodup. unfold CampaignsCrud.get_campaign.
      assert (head (List.filter
                (λ c0, sql_where
                         (sql_and (sql_eq (Some (Campaign.id c0)) (Campaign.id c))
                            (sql_eq (Campaign.is_deleted c0) false))) rows)
              = Some c) as ->; [|by rewrite Hnone].
      clear Hitems items. induction rows as [|r rows IH]; simpl.
      { by apply elem_of_nil in Hc. }
      apply NoDup_cons in Hnodup as [Hr Hnodup].
      apply elem_of_cons in Hc as [<-|Hc].
      * unfold sql_eq. simpl. rewrite Hdel. simpl.
        by rewrite bool_decide_eq_true_2.
      * assert (Campaign.id r ≠ Campaign.id c) as Hne.
        { intros Heq. apply Hr. rewrite Heq. by apply list_elem_of_fmap_2. }
        unfold sql_eq at 1. simpl. rewrite bool_decide_eq_false_2; [|done].
        simpl. destruct (sql_eq (Campaign.is_deleted r) false) as [[]|];
          simpl; by apply IH.
Qed.

(** ** [delete_campaign] *)

Section sorted_filter.
Context {A K : Type} (ltb : K → K → bool) (key : A → K).
Hypothesis ltb_asym : ∀ a b, ltb a b = true → ltb b a = false.
Hypothesis ltb_negtrans :
  ∀ a b c, ltb a b = false → ltb b c = false → ltb a c = false.

Lemma Forall_List_filter (P : A → Prop) (p : A → bool) l :
  Forall P l → Forall P (List.filter p l).
Proof.
  rewrite !Forall_forall. intros H x [Hx _]%elem_of_List_filter. by apply H.
Qed.

Lemma insort_filter reverse (p : A → bool) x l :
  StronglySorted (ahead ltb key reverse) l →
  List.filter p (insort ltb key reverse x l)
  = if p x then insort ltb key reverse x (List.filter p l)
    else List.filter p l.
Proof.
  induction 1 as [|y l Hl IH Hy]; simpl; [by destruct (p x)|].
  destruct (if reverse then _ else _) eqn:Hcmp; simpl.
  - rewrite IH. destruct (p y), (p x); simpl; try done. by rewrite Hcmp.
  - destruct (p x) eqn:Hpx; [|done]. symmetry. apply insort_tie.
    apply (Forall_List_filter _ p (y :: l)). constructor.
    + unfold ahead. by destruct reverse.
    + eapply Forall_impl; [exact Hy|]. intros z Hz. unfold ahead in *.
      destruct reverse; eauto.
Qed.

(** A stable sort and a filter commute. *)
Lemma sorted_filter reverse (p : A → bool) l :
  List.filter p (sorted ltb key reverse l)
  = sorted ltb key reverse (List.filter p l).
Proof.
  induction l as [|x l IH]; simpl; [done|].
  rewrite insort_filter by by apply sorted_StronglySorted.
  rewrite IH. by destruct (p x).
Qed.

End sorted_filter.


Lemma filter_applicable_filter station branch_code region station_code
    (p : Campaign.t → bool) l out :
  Campaigns.filter_applicable station branch_code region station_code l
  = Ok out →
  Campaigns.filter_applicable station branch_code region station_code
    (List.filter p l) = Ok (List.filter p out).
Proof.
  intros [Hall ->]%filter_applicable_Ok. apply filter_applicable_Ok.
  split; [|apply List_filter_comm].
  rewrite Forall_forall in Hall. apply Forall_forall.
  intros c [Hc _]%elem_of_List_filter. by apply Hall.
Qed.

Lemma unique_loop_seen_absent id seen l :
  Forall (λ c, Campaign.id c ≠ id) l →
  Campaigns.unique_loop ({[id]} ∪ seen) l = Campaigns.unique_loop seen l.
Proof.
  intros Hl. revert seen. induction Hl as [|c l Hc Hl IH]; intros seen; simpl.
  { done. }
  destruct (decide (Campaign.id c ∈ seen)) as [Hin|Hin].
  - rewrite decide_True by set_solver. apply IH.
  - rewrite decide_False by set_solver. f_equal.
    rewrite <-(IH ({[Campaign.id c]} ∪ seen)). f_equal. set_solver.
Qed.

Lemma unique_loop_filter_other id seen l :
  Campaigns.unique_loop seen (List.filter (other_than id) l)
  = List.filter (other_than id) (Campaigns.unique_loop seen l).
Proof.
  revert seen. induction l as [|c l IH]; intros seen; simpl; [done|].
  unfold other_than at 1. case_bool_decide as Hc; simpl.
  - destruct (decide _); [apply IH|]. simpl.
    unfold other_than at 2. rewrite bool_decide_eq_true_2 by done.
    by rewrite IH.
  - destruct (decide _) as [Hin|Hin]; [apply IH|].
    simpl. unfold other_than at 2. rewrite bool_decide_eq_false_2 by naive_solver.
    rewrite <-IH, Hc. symmetry. apply unique_loop_seen_absent.
    apply Forall_forall. intros c' [_ Hc']%elem_of_List_filter.
    by apply bool_decide_eq_true in Hc'.
Qed.



Lemma campaign_filter_deleted now c :
  CampaignsCrud.deleted c = true → Campaigns.campaign_filter now c = false.
Proof.
  unfold CampaignsCrud.deleted, Campaigns.campaign_filter.
  by destruct (Campaign.is_deleted c) as [[]|].
Qed.

Lemma candidates_after_delete now id rows :
  NoDup (Campaign.id <$> rows) →
  List.filter (Campaigns.campaign_filter now)
    (CampaignsCrud.delete_campaign id rows)
  = List.filter (other_than id)
      (List.filter (Campaigns.campaign_filter now) rows).
Proof.
  intros Hnd. unfold CampaignsCrud.delete_campaign.
  destruct (Orm.get Campaign.id id rows) as [entity|] eqn:Hget.
  - apply Orm_get_Some in Hget as [Hin Hid].
    destruct (CampaignsCrud.deleted entity) eqn:Hdel.
    + symmetry. apply List_filter_all, Forall_forall.
      intros c [Hc Hcand]%elem_of_List_filter.
      apply bool_decide_eq_true. intros Hc'.
      assert (c = entity) as -> by (eapply NoDup_fmap_eq; [done..|congruence]).
      by rewrite campaign_filter_deleted in Hcand.
    + clear. unfold Orm.update.
      induction rows as [|r rows IH]; [done|].
      rewrite fmap_cons. cbn [List.filter]. rewrite IH. clear IH.
      unfold other_than. destruct (decide (Campaign.id r = id)) as [Hr|Hr].
      * rewrite campaign_filter_deleted by done.
        destruct (Campaigns.campaign_filter now r); cbn [List.filter]; [|done].
        by rewrite bool_decide_eq_false_2 by naive_solver.
      * destruct (Campaigns.campaign_filter now r); cbn [List.filter]; [|done].
        by rewrite bool_decide_eq_true_2.
  - apply Orm_get_None in Hget. symmetry.
    apply List_filter_all, Forall_forall.
    intros c [Hc _]%elem_of_List_filter. apply bool_decide_eq_true.
    intros Hc'. apply Hget. rewrite <-Hc'. by apply list_elem_of_fmap_2.
Qed.

Lemma applies_well_typed station branch_code region station_code c :
  well_typed c →
  returns (Campaigns.applies station branch_code region station_code c).
Proof.
  intros ([bs Hb] & [rs Hr] & [ss Hs]).
  apply array_of_inv in Hb as [Hb Hbt], Hr as [Hr Hrt], Hs as [Hs Hst].
  unfold Campaigns.applies. rewrite Hb, Hr, Hs. simpl.
  destruct bs, rs, ss, station; simpl; try done;
    by destruct (bool_decide (branch_code ∈ _)).
Qed.

Lemma station_query_tables stations campaigns images station_code :
  Campaigns.station_query (mkDb (Ok stations) campaigns images) station_code
  = Ok (head (List.filter (Campaigns.station_filter station_code) stations)).
Proof. done. Qed.

Lemma resolved_without stations rows rows' id station_code now :
  Forall well_typed rows →
  List.filter (Campaigns.campaign_filter now) rows'
  = List.filter (other_than id)
      (List.filter (Campaigns.campaign_filter now) rows) →
  resolved stations rows' station_code now
  = List.filter (other_than id) (resolved stations rows station_code now).
Proof.
  intros Htyped Hcand. unfold resolved.
  set (station := head (List.filter (Campaigns.station_filter station_code)
                          stations)).
  set (all := List.filter (Campaigns.campaign_filter now) rows).
  assert (Campaigns.filter_applicable station (branch_code_at station)
            (region_at station) station_code all
          = Ok (List.filter
                  (λ c, kept (Campaigns.applies station (branch_code_at station)
                                (region_at station) station_code c)) all))
    as Hf.
  { apply filter_applicable_Ok. split; [|done].
    apply Forall_List_filter. eapply Forall_impl; [exact Htyped|].
    intros c. apply applies_well_typed. }
  rewrite (resolve_Ok (mkDb (Ok stations) (Ok rows) (Ok [])) station_code now
             station all _ eq_refl eq_refl Hf).
  pose proof (filter_applicable_filter _ _ _ _ (other_than id) _ _ Hf) as Hf'.
  assert (Campaigns.campaign_query (mkDb (Ok stations) (Ok rows') (Ok [])) now
          = Ok (List.filter (other_than id) all)) as Hc'.
  { unfold Campaigns.campaign_query. simpl. by rewrite Hcand. }
  rewrite (resolve_Ok (mkDb (Ok stations) (Ok rows') (Ok [])) station_code now
             station _ _ eq_refl Hc' Hf').
  simpl. unfold Campaigns.unique_campaigns.
  rewrite <-unique_loop_filter_other. f_equal.
  symmetry. apply sorted_filter.
  - apply tuple_ltb_asym.
  - apply tuple_ltb_negtrans.
Qed.

Lemma deleted_after_delete id rows e :
  NoDup (Campaign.id <$> rows) →
  e ∈ CampaignsCrud.delete_campaign id rows → Campaign.id e = id →
  CampaignsCrud.deleted e = true.
Proof.
  intros Hnd. unfold CampaignsCrud.delete_campaign.
  destruct (Orm.get Campaign.id id rows) as [entity|] eqn:Hget.
  - apply Orm_get_Some in Hget as [Hin Hid].
    destruct (CampaignsCrud.deleted entity) eqn:Hdel.
    + intros He Heid.
      assert (e = entity) as -> by
        (apply (NoDup_fmap_eq Campaign.id rows); [done..|congruence]).
      done.
    + intros (r & _ & ->)%elem_of_Orm_update.
      by destruct (decide (Campaign.id r = id)).
  - apply Orm_get_None in Hget. intros He Heid. exfalso. apply Hget.
    rewrite <-Heid. by apply list_elem_of_fmap_2.
Qed.

Lemma delete_campaign_ids id rows :
  Campaign.id <$> CampaignsCrud.delete_campaign id rows
  = Campaign.id <$> rows.
Proof.
  unfold CampaignsCrud.delete_campaign.
  destruct (Orm.get Campaign.id id rows) as [entity|]; [|done].
  destruct (CampaignsCrud.deleted entity); [done|].
  unfold Orm.update. rewrite <-list_fmap_compose.
  apply list_fmap_ext. intros i r _. simpl. by destruct (decide _).
Qed.

(** X6: once [delete_campaign] has run for a campaign, no station is ever
    served that campaign again, on either surface, whatever the time,
    whatever else the tables hold and in whatever order a later scan
    returns the rows; deleting it again changes nothing; and the table
    still holds the same ids (the row is kept). *)
Theorem deleted_campaign_is_never_served
    (rows : list Campaign.t) (id : N) :
  NoDup (Campaign.id <$> rows) →
  (∀ table stations station_code now,
     table ≡ₚ CampaignsCrud.delete_campaign id rows →
     (id ∉ (Campaign.id <$> resolved stations table station_code now))
     ∧ (id ∉ (Campaign.id
                <$> resolved_tablet stations table station_code now)))
  ∧ (∀ table,
       table ≡ₚ CampaignsCrud.delete_campaign id rows →
       CampaignsCrud.delete_campaign id table = table)
  ∧ Campaign.id <$> CampaignsCrud.delete_campaign id rows
    ≡ₚ Campaign.id <$> rows.
Proof.
  intros Hnd.
  assert (∀ table stations station_code now,
            table ≡ₚ CampaignsCrud.delete_campaign id rows →
            id ∉ (Campaign.id
                    <$> resolved stations table station_code now)) as Hnot.
  { intros table stations station_code now Htable
      (c & Hid & Hin)%list_elem_of_fmap.
    apply resolved_elem_of in Hin as (Hin & Hcand & _).
    rewrite Htable in Hin.
    apply (deleted_after_delete _ _ _ Hnd) in Hin; [|done].
    by rewrite campaign_filter_deleted in Hcand. }
  split; [|split].
  - intros table stations station_code now Htable.
    split; [by apply Hnot|].
    rewrite resolved_tablet_eq. by apply Hnot.
  - intros table Htable. unfold CampaignsCrud.delete_campaign.
    destruct (Orm.get Campaign.id id table) as [e|] eqn:Hget; [|done].
    apply Orm_get_Some in Hget as [He Hid]. rewrite Htable in He.
    by rewrite (deleted_after_delete _ _ _ Hnd He Hid).
  - by rewrite delete_campaign_ids.
Qed.

Lemma deleted_campaign_is_never_served_witness :
  5%N ∉ (Campaign.id
           <$> resolved [Scenario.station_001]
                 (reverse
                    (CampaignsCrud.delete_campaign 5 [Scenario.A; Scenario.E]))
                 "001" Scenario.now).
Proof.
  apply (deleted_campaign_is_never_served [Scenario.A; Scenario.E] 5).
  - by_evaluation.
  - apply reverse_Permutation.
Defined.

(** X7: on tables typed as the ORM declares them, [delete_campaign] takes
    exactly that campaign out of every station's resolved list and leaves
    the others where they were, in the same order, on both surfaces. *)
Theorem delete_campaign_leaves_the_other_campaigns_in_place
    (rows : list Campaign.t) (id : N)
    (stations : list Station.t) (station_code : string) (now : Z) :
  NoDup (Campaign.id <$> rows) →
  Forall well_typed rows →
  resolved stations (CampaignsCrud.delete_campaign id rows) station_code now
  = List.filter (other_than id) (resolved stations rows station_code now)
  ∧ resolved_tablet stations (CampaignsCrud.delete_campaign id rows)
      station_code now
    = List.filter (other_than id)
        (resolved_tablet stations rows station_code now).
Proof.
  intros Hnd Htyped.
  assert (resolved stations (CampaignsCrud.delete_campaign id rows)
            station_code now
          = List.filter (other_than id)
              (resolved stations rows station_code now)) as H.
  { apply resolved_without; [done|]. by apply candidates_after_delete. }
  split; [done|]. by rewrite !resolved_tablet_eq.
Qed.

Lemma delete_campaign_leaves_the_other_campaigns_in_place_witness :
  resolved [Scenario.station_001]
    (CampaignsCrud.delete_campaign 5 [Scenario.A; Scenario.E])
    "001" Scenario.now
  = List.filter (other_than 5)
      (resolved [Scenario.station_001] [Scenario.A; Scenario.E]
         "001" Scenario.now).
Proof.
  apply (delete_campaign_leaves_the_other_campaigns_in_place
           [Scenario.A; Scenario.E] 5 [Scenario.station_001] "001"
           Scenario.now).
  - by_evaluation.
  - repeat constructor; by eexists.
Defined.

(** ** [get_tablet_image]: the access checks *)

Lemma head_filter_exists {A} (p : A → bool) l x :
  x ∈ l → p x = true →
  ∃ y, head (List.filter p l) = Some y ∧ y ∈ l ∧ p y = true.
Proof.
  intros Hx Hp.
  assert (x ∈ List.filter p l) as Hin by by apply elem_of_List_filter.
  destruct (List.filter p l) as [|y l'] eqn:Hl; [by apply elem_of_nil in Hin|].
  exists y. split; [done|].
  apply elem_of_List_filter. rewrite Hl. by left.
Qed.

Lemma head_filter_unique {A B} (f : A → B) (p : A → bool) l x :
  NoDup (f <$> l) → x ∈ l → p x = true →
  (∀ y, p y = true → f y = f x) →
  head (List.filter p l) = Some x.
Proof.
  intros Hnd Hx Hp Hf.
  destruct (head_filter_exists p l x Hx Hp) as (y & Hhd & Hy & Hpy).
  rewrite Hhd. f_equal. eapply NoDup_fmap_eq; eauto.
Qed.

Lemma image_lookup_spec image_id img :
  TabletImage.image_lookup image_id img = true ↔
  CampaignImage.id img = image_id ∧ CampaignImage.active img = Some true.
Proof.
  unfold TabletImage.image_lookup, sql_eq. simpl.
  destruct (CampaignImage.active img) as [[]|]; simpl;
    case_bool_decide; split; try done; by intros [? ?].
Qed.

Lemma tablet_campaign_lookup_spec image c :
  TabletImage.campaign_lookup image c = true ↔
  Campaign.id c = CampaignImage.campaign_id image
  ∧ Campaign.is_deleted c = Some false ∧ Campaign.status c = Some ACTIVE.
Proof.
  unfold TabletImage.campaign_lookup, sql_eq. simpl.
  destruct (Campaign.is_deleted c) as [[]|], (Campaign.status c) as [[]|];
    simpl; case_bool_decide; split; try done; by intros (? & ? & ?).
Qed.

Lemma access_granted images campaigns image c :
  NoDup (CampaignImage.id <$> images) →
  image ∈ images → CampaignImage.active image = Some true →
  c ∈ campaigns → Campaign.id c = CampaignImage.campaign_id image →
  Campaign.is_deleted c = Some false → Campaign.status c = Some ACTIVE →
  ∃ campaign,
    TabletImage.get_tablet_image_access (CampaignImage.id image) images
      campaigns = Returned (image, campaign)
    ∧ Campaign.id campaign = Campaign.id c.
Proof.
  intros Hnd Himg Hact Hc Hid Hdel Hst.
  unfold TabletImage.get_tablet_image_access.
  rewrite (head_filter_unique CampaignImage.id _ images image); try done.
  - destruct (head_filter_exists (TabletImage.campaign_lookup image)
                campaigns c Hc) as (c' & -> & _ & Hc').
    { by apply tablet_campaign_lookup_spec. }
    exists c'. split; [done|].
    apply tablet_campaign_lookup_spec in Hc' as (-> & _ & _). done.
  - by apply image_lookup_spec.
  - by intros y [? _]%image_lookup_spec.
Qed.

(** X8: every image the tablet response lists can be fetched: against the
    same tables the image endpoint finds it (no 404) and finds its
    campaign active and not deleted (no 403). *)
Theorem listed_images_pass_the_download_checks
    (db : Db) (station_code : string) (now : Z)
    (campaigns : list Campaign.t) (images : list CampaignImage.t)
    (resp : Tablets.Response.t) (it : Tablets.Item.t) (fi : Tablets.Image.t) :
  q_campaigns db = Ok campaigns → q_images db = Ok images →
  NoDup (CampaignImage.id <$> images) →
  Tablets.get_active_for_station db station_code now = Ok resp →
  it ∈ Tablets.Response.campaigns resp →
  fi ∈ Tablets.Item.images it →
  ∃ image campaign,
    TabletImage.get_tablet_image_access (Tablets.Image.id fi) images campaigns
    = Returned (image, campaign)
    ∧ CampaignImage.id image = Tablets.Image.id fi
    ∧ Campaign.id campaign = Tablets.Item.id it.
Proof.
  intros Hcs Himgs Hnd Hresp Hit Hfi.
  rewrite get_active_for_station_unfold in Hresp. simpl in Hresp.
  destruct (Tablets.campaigns_with_images db _) as [items|e] eqn:Hitems;
    [|discriminate Hresp].
  simpl in Hresp.
  destruct (Campaigns.if_station _ _ (Campaigns.Locals.branch_code _));
    [|discriminate Hresp].
  destruct (Campaigns.if_station _ _ (Campaigns.Locals.region _));
    [|discriminate Hresp].
  injection Hresp as <-. simpl in Hit.
  destruct (campaigns_with_images_inv _ _ _ _ Hitems Hit)
    as (c & rows & Hc & Himg & ->).
  rewrite Himgs in Himg. injection Himg as <-. simpl in Hfi.
  apply list_elem_of_fmap in Hfi as (img & -> & Himg).
  apply elem_of_listed_images in Himg as (Himg & Hcid & Hact).
  apply resolve_elem_of in Hc
    as (station & rows' & _ & Hrows & Hin & Hcand & _).
  rewrite Hcs in Hrows. injection Hrows as <-.
  apply campaign_filter_candidate in Hcand as (Hdel & Hst & _).
  destruct (access_granted images campaigns img c) as (c' & Hacc & Hid);
    try done.
  exists img, c'. by repeat split.
Qed.

Lemma listed_images_pass_the_download_checks_witness :
  ∃ image campaign,
    TabletImage.get_tablet_image_access 11 Scenario.images Example.campaigns
    = Returned (image, campaign)
    ∧ CampaignImage.id image = 11%N
    ∧ Campaign.id campaign = 3%N.
Proof.
  refine (listed_images_pass_the_download_checks
            Scenario.db "001" Scenario.now Example.campaigns Scenario.images _
            (Tablets.item Scenario.C
               [Tablets.Image.mk 12 3 1 None;
                Tablets.Image.mk 11 3 2 (Some 8000)])
            (Tablets.Image.mk 11 3 2 (Some 8000))
            eq_refl eq_refl _ eq_refl _ _).
  - by_evaluation.
  - apply list_elem_of_In. right. left. reflexivity.
  - apply list_elem_of_In. right. left. reflexivity.
Defined.

(** X9: the image endpoint never looks at the campaign's dates: an active
    image of a campaign stored as active and not deleted passes the checks
    at any time, also outside the campaign's window, when no station is
    served the campaign. *)
Theorem image_access_ignores_the_campaign_window
    (images : list CampaignImage.t) (campaigns : list Campaign.t)
    (image : CampaignImage.t) (c : Campaign.t) :
  NoDup (CampaignImage.id <$> images) →
  image ∈ images → CampaignImage.active image = Some true →
  c ∈ campaigns → Campaign.id c = CampaignImage.campaign_id image →
  Campaign.is_deleted c = Some false → Campaign.status c = Some ACTIVE →
  (∃ campaign,
     TabletImage.get_tablet_image_access (CampaignImage.id image) images
       campaigns = Returned (image, campaign)
     ∧ Campaign.id campaign = Campaign.id c)
  ∧ (∀ now stations station_code,
       now < Campaign.start_date c ∨ Campaign.end_date c < now →
       (c ∉ resolved stations campaigns station_code now)
       ∧ (c ∉ resolved_tablet stations campaigns station_code now)).
Proof.
  intros Hnd Himg Hact Hc Hid Hdel Hst.
  split; [by apply access_granted|].
  intros now stations station_code Hout.
  assert (c ∉ resolved stations campaigns station_code now) as Hnot.
  { intros (_ & Hcand & _)%resolved_elem_of.
    apply campaign_filter_candidate in Hcand as (_ & _ & Hwin). lia. }
  split; [done|]. by rewrite resolved_tablet_eq.
Qed.

Lemma image_access_ignores_the_campaign_window_witness :
  (∃ campaign,
     TabletImage.get_tablet_image_access 11 Scenario.images [Example.ended]
     = Returned (Scenario.image 11 3 2 (Some 8000) true, campaign)
     ∧ Campaign.id campaign = 3%N)
  ∧ (Example.ended ∉ resolved [Scenario.station_001] [Example.ended] "001"
                       Scenario.now).
Proof.
  destruct (image_access_ignores_the_campaign_window
              Scenario.images [Example.ended]
              (Scenario.image 11 3 2 (Some 8000) true) Example.ended)
    as [Haccess Hserved].
  - by_evaluation.
  - apply list_elem_of_In. left. reflexivity.
  - reflexivity.
  - apply list_elem_of_In. left. reflexivity.
  - reflexivity.
  - reflexivity.
  - reflexivity.
  - split; [exact Haccess|].
    apply (Hserved Scenario.now [Scenario.station_001] "001").
    right. vm_compute. reflexivity.
Defined.

(** ** app/routes/images.py *)

Lemma images_campaign_lookup_spec campaign_id c :
  Images.campaign_lookup campaign_id c = true ↔
  Campaign.id c = campaign_id ∧ Campaign.is_deleted c = Some false.
Proof.
  unfold Images.campaign_lookup, sql_eq. simpl.
  destruct (Campaign.is_deleted c) as [[]|]; simpl;
    case_bool_decide; split; try done; by intros [? ?].
Qed.

Lemma listed_images_active_images rows c :
  listed_images rows c = Images.active_images (Campaign.id c) rows.
Proof. reflexivity. Qed.

(** X10: for a campaign of the tablet response the dashboard's image list
    holds the same images in the same order with the same [order] values;
    the display time the dashboard shows for an image is the tablet's
    value when that is set and not zero, and the campaign's default
    otherwise. *)
Theorem dashboard_image_list_matches_the_tablet
    (db : Db) (station_code : string) (now : Z)
    (campaigns : list Campaign.t) (images : list CampaignImage.t)
    (resp : Tablets.Response.t) (it : Tablets.Item.t) :
  q_campaigns db = Ok campaigns → q_images db = Ok images →
  NoDup (Campaign.id <$> campaigns) →
  Tablets.get_active_for_station db station_code now = Ok resp →
  it ∈ Tablets.Response.campaigns resp →
  ∃ listing,
    Images.list_campaign_images (Tablets.Item.id it) campaigns images
    = Returned listing
    ∧ Images.Entry.id <$> Images.Listing.images listing
      = Tablets.Image.id <$> Tablets.Item.images it
    ∧ Images.Entry.order <$> Images.Listing.images listing
      = Tablets.Image.order_index <$> Tablets.Item.images it
    ∧ Images.Entry.display_time <$> Images.Listing.images listing
      = (λ fi, match Tablets.Image.display_time fi with
               | Some t => if t =? 0
                           then Tablets.Item.default_display_time it
                           else Some t
               | None => Tablets.Item.default_display_time it
               end) <$> Tablets.Item.images it.
Proof.
  intros Hcs Himgs Hnd Hresp Hit.
  rewrite get_active_for_station_unfold in Hresp. simpl in Hresp.
  destruct (Tablets.campaigns_with_images db _) as [items|e] eqn:Hitems;
    [|discriminate Hresp].
  simpl in Hresp.
  destruct (Campaigns.if_station _ _ (Campaigns.Locals.branch_code _));
    [|discriminate Hresp].
  destruct (Campaigns.if_station _ _ (Campaigns.Locals.region _));
    [|discriminate Hresp].
  injection Hresp as <-. simpl in Hit.
  destruct (campaigns_with_images_inv _ _ _ _ Hitems Hit)
    as (c & rows & Hc & Himg & ->).
  rewrite Himgs in Himg. injection Himg as <-.
  apply resolve_elem_of in Hc
    as (station & rows' & _ & Hrows & Hin & Hcand & _).
  rewrite Hcs in Hrows. injection Hrows as <-.
  apply campaign_filter_candidate in Hcand as (Hdel & _ & _).
  unfold Images.list_campaign_images. simpl.
  rewrite (head_filter_unique Campaign.id _ campaigns c); try done.
  - eexists. split; [done|]. simpl.
    rewrite <-!list_fmap_compose. by repeat split.
  - by apply images_campaign_lookup_spec.
  - by intros y [? _]%images_campaign_lookup_spec.
Qed.

Lemma dashboard_image_list_matches_the_tablet_witness :
  ∃ listing,
    Images.list_campaign_images 3 Example.campaigns Scenario.images
    = Returned listing
    ∧ Images.Entry.id <$> Images.Listing.images listing = [12%N; 11%N]
    ∧ Images.Entry.order <$> Images.Listing.images listing = [1; 2]
    ∧ Images.Entry.display_time <$> Images.Listing.images listing
      = [Some 5000; Some 8000].
Proof.
  refine (dashboard_image_list_matches_the_tablet
            Scenario.db "001" Scenario.now Example.campaigns Scenario.images _
            (Tablets.item Scenario.C
               [Tablets.Image.mk 12 3 1 None;
                Tablets.Image.mk 11 3 2 (Some 8000)])
            eq_refl eq_refl _ eq_refl _).
  - by_evaluation.
  - apply list_elem_of_In. right. left. reflexivity.
Defined.

(** ** [delete_image] *)

Lemma new_order_None idx remaining id :
  id ∉ (CampaignImage.id <$> remaining) → new_order idx remaining id = None.
Proof.
  revert idx. induction remaining as [|x rest IH]; intros idx Hid; simpl.
  { done. }
  rewrite fmap_cons in Hid. apply not_elem_of_cons in Hid as [Hx Hid].
  rewrite decide_False by done. by apply IH.
Qed.

Lemma renumber_reordered idx remaining tbl :
  NoDup (CampaignImage.id <$> remaining) →
  Images.renumber idx remaining tbl = reordered idx remaining <$> tbl.
Proof.
  revert idx tbl. induction remaining as [|x rest IH]; intros idx tbl Hnd.
  { simpl. rewrite <-(list_fmap_id tbl) at 1. apply list_fmap_ext. by intros. }
  rewrite fmap_cons in Hnd. apply NoDup_cons in Hnd as [Hx Hnd].
  simpl. rewrite IH by done. unfold Orm.update.
  rewrite <-list_fmap_compose. apply list_fmap_ext. intros i r _. simpl.
  unfold reordered. simpl.
  destruct (decide (CampaignImage.id r = CampaignImage.id x)) as [Heq|Hne].
  - simpl. rewrite new_order_None by by rewrite Heq.
    by rewrite decide_True.
  - by rewrite decide_False by done.
Qed.

Lemma reordered_numbered idx remaining :
  NoDup (CampaignImage.id <$> remaining) →
  reordered idx remaining <$> remaining = numbered idx remaining.
Proof.
  revert idx. induction remaining as [|x rest IH]; intros idx Hnd; [done|].
  rewrite fmap_cons in Hnd. apply NoDup_cons in Hnd as [Hx Hnd].
  rewrite fmap_cons. simpl. f_equal.
  - unfold reordered. simpl. by rewrite decide_True.
  - rewrite <-IH by done. apply list_fmap_ext. intros i r Hr.
    unfold reordered. simpl. rewrite decide_False; [done|].
    intros Heq. apply Hx. rewrite Heq.
    apply list_elem_of_fmap_2. by eapply list_elem_of_lookup_2.
Qed.

Lemma numbered_ids idx l :
  CampaignImage.id <$> numbered idx l = CampaignImage.id <$> l.
Proof.
  revert idx. induction l as [|x l IH]; intros idx; [done|].
  cbn [numbered]. by rewrite !fmap_cons, IH.
Qed.

Lemma numbered_orders idx l :
  CampaignImage.order <$> numbered idx l
  = (λ i : nat, idx + Z.of_nat i + 1) <$> seq 0 (length l).
Proof.
  revert idx. induction l as [|x l IH]; intros idx; [done|].
  cbn [numbered length seq]. rewrite !fmap_cons, IH. simpl. f_equal; [lia|].
  rewrite <-fmap_S_seq, <-list_fmap_compose.
  apply list_fmap_ext. intros i n _. simpl. lia.
Qed.

Lemma numbered_bound idx l x :
  x ∈ numbered idx l → idx < CampaignImage.order x.
Proof.
  revert idx. induction l as [|y l IH]; intros idx; simpl.
  { by intros ?%elem_of_nil. }
  intros [->|Hx]%elem_of_cons; simpl; [lia|].
  apply IH in Hx. lia.
Qed.

Lemma numbered_sorted idx l :
  StronglySorted (λ a b, CampaignImage.order a < CampaignImage.order b)
    (numbered idx l).
Proof.
  revert idx. induction l as [|y l IH]; intros idx; simpl; constructor.
  - apply IH.
  - apply Forall_forall. intros x Hx%numbered_bound. simpl. lia.
Qed.

Lemma StronglySorted_lt_inj l x y :
  StronglySorted (λ a b, CampaignImage.order a < CampaignImage.order b) l →
  x ∈ l → y ∈ l → CampaignImage.order x = CampaignImage.order y → x = y.
Proof.
  induction 1 as [|z l Hl IH Hz]; [by intros ?%elem_of_nil|].
  rewrite Forall_forall in Hz.
  intros [->|Hx]%elem_of_cons [->|Hy]%elem_of_cons Heq; try done.
  - apply Hz in Hy. lia.
  - apply Hz in Hx. lia.
  - by apply IH.
Qed.

(** A listing: what sorting by [order] gives when the rows are, up to
    their place in the table, a list of strictly increasing orders. *)
Lemma sorted_by_order_is l t :
  l ≡ₚ t →
  StronglySorted (λ a b, CampaignImage.order a < CampaignImage.order b) t →
  sorted Z.ltb CampaignImage.order false l = t.
Proof.
  intros Hperm Ht.
  rewrite (sorted_unique Z.ltb CampaignImage.order Z_ltb_asym Z_ltb_negtrans
             false l t); [| |by intros; rewrite Hperm in *; eapply StronglySorted_lt_inj|done].
  - apply sorted_fixed.
    eapply (StronglySorted_fmap id) in Ht; [by rewrite list_fmap_id in Ht|].
    unfold ahead. intros x y. simpl. lia.
  - intros a b. lia.
Qed.

Lemma List_filter_fmap_ext {A} (p : A → bool) (f : A → A) l :
  (∀ r, r ∈ l → p (f r) = p r ∧ (p r = true → f r = r)) →
  List.filter p (f <$> l) = List.filter p l.
Proof.
  induction l as [|r l IH]; intros H; [done|].
  rewrite fmap_cons. cbn [List.filter].
  destruct (H r) as [Hp Hf]; [by left|]. rewrite Hp.
  rewrite IH by (intros; apply H; by right).
  destruct (p r); [|done]. by rewrite Hf.
Qed.

Lemma List_filter_fmap {A} (p : A → bool) (f : A → A) l :
  (∀ r, p (f r) = p r) →
  List.filter p (f <$> l) = f <$> List.filter p l.
Proof.
  intros H. induction l as [|r l IH]; [done|].
  rewrite fmap_cons. cbn [List.filter]. rewrite H, IH. by destruct (p r).
Qed.

Lemma active_of_spec campaign_id img :
  Images.active_of campaign_id img = true ↔
  CampaignImage.campaign_id img = campaign_id
  ∧ CampaignImage.active img = Some true.
Proof.
  unfold Images.active_of, sql_eq. simpl.
  destruct (CampaignImage.active img) as [[]|]; simpl;
    case_bool_decide; split; try done; by intros [? ?].
Qed.

Lemma reordered_id idx remaining r :
  CampaignImage.id (reordered idx remaining r) = CampaignImage.id r.
Proof. unfold reordered. by destruct (new_order _ _ _). Qed.

Lemma reordered_active_of idx remaining campaign_id r :
  Images.active_of campaign_id (reordered idx remaining r)
  = Images.active_of campaign_id r.
Proof. unfold reordered. by destruct (new_order _ _ _). Qed.

Lemma active_images_after_deactivation campaign_id image_id images :
  List.filter (Images.active_of campaign_id)
    (Orm.update CampaignImage.id image_id (Images.set_active (Some false))
       images)
  = List.filter (other_image image_id)
      (List.filter (Images.active_of campaign_id) images).
Proof.
  unfold Orm.update. induction images as [|r images IH]; [done|].
  rewrite fmap_cons. cbn [List.filter]. rewrite IH. clear IH.
  unfold other_image.
  destruct (decide (CampaignImage.id r = image_id)) as [Hr|Hr].
  - replace (Images.active_of campaign_id (Images.set_active (Some false) r))
      with false.
    2:{ unfold Images.active_of, sql_eq. simpl. by case_bool_decide. }
    destruct (Images.active_of campaign_id r); cbn [List.filter]; [|done].
    by rewrite bool_decide_eq_false_2 by naive_solver.
  - destruct (Images.active_of campaign_id r); cbn [List.filter]; [|done].
    by rewrite bool_decide_eq_true_2.
Qed.

Lemma NoDup_ids_filter (p : CampaignImage.t → bool) l :
  NoDup (CampaignImage.id <$> l) →
  NoDup (CampaignImage.id <$> List.filter p l).
Proof.
  induction l as [|r l IH]; [done|]. rewrite fmap_cons.
  intros [Hr Hnd]%NoDup_cons. cbn [List.filter].
  destruct (p r); [|by apply IH]. rewrite fmap_cons. apply NoDup_cons.
  split; [|by apply IH].
  intros (y & Hy & [Hin _]%elem_of_List_filter)%list_elem_of_fmap.
  apply Hr. rewrite Hy. by apply list_elem_of_fmap_2.
Qed.

Lemma active_images_NoDup campaign_id images :
  NoDup (CampaignImage.id <$> images) →
  NoDup (CampaignImage.id <$> Images.active_images campaign_id images).
Proof.
  intros Hnd. unfold Images.active_images.
  rewrite (sorted_Permutation Z.ltb CampaignImage.order false).
  by apply NoDup_ids_filter.
Qed.

Lemma numbered_length idx l : length (numbered idx l) = length l.
Proof.
  revert idx. induction l as [|x l IH]; intros idx; [done|].
  simpl. by rewrite IH.
Qed.

(** The listing of a campaign once a renumbering has been written. *)
Lemma active_images_renumbered campaign_id tbl :
  NoDup (CampaignImage.id <$> tbl) →
  Images.active_images campaign_id
    (Images.renumber 0 (Images.active_images campaign_id tbl) tbl)
  = numbered 0 (Images.active_images campaign_id tbl).
Proof.
  intros Hnd. set (remaining := Images.active_images campaign_id tbl).
  assert (NoDup (CampaignImage.id <$> remaining)) as Hrem
    by by apply active_images_NoDup.
  rewrite renumber_reordered by done.
  unfold Images.active_images at 1.
  rewrite List_filter_fmap by (intros; apply reordered_active_of).
  apply sorted_by_order_is; [|apply numbered_sorted].
  rewrite <-reordered_numbered by done.
  apply fmap_Permutation. unfold remaining, Images.active_images.
  by rewrite sorted_Permutation.
Qed.

(** Images of another campaign are left as they were. *)
Lemma renumber_other_campaign campaign_id other tbl remaining :
  NoDup (CampaignImage.id <$> tbl) →
  (∀ r, r ∈ remaining → r ∈ tbl ∧ CampaignImage.campaign_id r = campaign_id) →
  NoDup (CampaignImage.id <$> remaining) →
  other ≠ campaign_id →
  List.filter (Images.active_of other) (Images.renumber 0 remaining tbl)
  = List.filter (Images.active_of other) tbl.
Proof.
  intros Hnd Hrem Hnd' Hne. rewrite renumber_reordered by done.
  apply List_filter_fmap_ext. intros r Hr.
  split; [apply reordered_active_of|].
  intros [Hcid _]%active_of_spec. unfold reordered.
  rewrite new_order_None; [done|].
  intros (x & Hid & Hx)%list_elem_of_fmap.
  destruct (Hrem x Hx) as [Hx' Hcx].
  assert (r = x) as ->
    by by apply (NoDup_fmap_eq CampaignImage.id tbl).
  congruence.
Qed.

(** X11: [delete_image] takes the image out of its campaign's listing and
    renumbers what is left 1, 2, ... in the order it was listed, keeping
    each image's other columns; the listings of the other campaigns do not
    change. *)
Theorem delete_image_renumbers_the_remaining_images
    (campaign_id image_id : N) (campaigns : list Campaign.t)
    (images images' : list CampaignImage.t) (n : nat) :
  NoDup (CampaignImage.id <$> images) →
  Images.delete_image campaign_id image_id campaigns images
  = Returned (images', n) →
  let before := Images.active_images campaign_id images in
  let after := Images.active_images campaign_id images' in
  image_id ∈ (CampaignImage.id <$> before)
  ∧ after = numbered 0 (List.filter (other_image image_id) before)
  ∧ CampaignImage.id <$> after
    = List.filter (λ i, bool_decide (i ≠ image_id)) (CampaignImage.id <$> before)
  ∧ CampaignImage.order <$> after = (λ i : nat, Z.of_nat i + 1) <$> seq 0 n
  ∧ n = length after
  ∧ (∀ other, other ≠ campaign_id →
       Images.active_images other images' = Images.active_images other images).
Proof.
  intros Hnd. unfold Images.delete_image.
  destruct (head (List.filter (Images.campaign_lookup campaign_id) campaigns));
    [|done].
  destruct (head (List.filter _ images)) as [image|] eqn:Himage; [|done].
  intros [= <- <-].
  assert (image ∈ images ∧ CampaignImage.id image = image_id
          ∧ Images.active_of campaign_id image = true) as (Hin & Hid & Hact).
  { assert (image ∈ List.filter
              (λ img, sql_where
                 (sql_and
                    (sql_and (sql_eq (Some (CampaignImage.id img)) image_id)
                       (sql_eq (Some (CampaignImage.campaign_id img))
                          campaign_id))
                    (sql_eq (CampaignImage.active img) true))) images) as H.
    { destruct (List.filter _ images); simplify_eq/=. by left. }
    apply elem_of_List_filter in H as [H1 H2]. split; [done|].
    unfold Images.active_of, sql_eq in *. simpl in *.
    destruct (CampaignImage.active image) as [[]|]; simpl in *;
      repeat case_bool_decide; simpl in *; done. }
  rewrite Hid.
  set (tbl := Orm.update CampaignImage.id image_id
                (Images.set_active (Some false)) images).
  assert (CampaignImage.id <$> tbl = CampaignImage.id <$> images) as Hids.
  { unfold tbl, Orm.update. rewrite <-list_fmap_compose.
    apply list_fmap_ext. intros i r _. simpl. by destruct (decide _). }
  assert (NoDup (CampaignImage.id <$> tbl)) as Hnd' by by rewrite Hids.
  assert (Images.active_images campaign_id tbl
          = List.filter (other_image image_id)
              (Images.active_images campaign_id images)) as Hrem.
  { unfold Images.active_images, tbl.
    rewrite active_images_after_deactivation.
    symmetry. apply sorted_filter; [apply Z_ltb_asym|apply Z_ltb_negtrans]. }
  assert (Images.active_images campaign_id
            (Images.renumber 0 (Images.active_images campaign_id tbl) tbl)
          = numbered 0 (List.filter (other_image image_id)
                          (Images.active_images campaign_id images))) as Hafter.
  { rewrite active_images_renumbered by done. by rewrite Hrem. }
  simpl. split; [|split; [done|split; [|split; [|split]]]].
  - apply list_elem_of_fmap. exists image. split; [done|].
    unfold Images.active_images. rewrite elem_of_sorted.
    by apply elem_of_List_filter.
  - rewrite Hafter, numbered_ids. clear.
    induction (Images.active_images campaign_id images) as [|r l IH]; [done|].
    rewrite fmap_cons. cbn [List.filter]. unfold other_image at 1.
    rewrite <-IH. by case_bool_decide; simpl.
  - rewrite Hafter, numbered_orders, <-Hrem.
    apply list_fmap_ext. intros i k _. lia.
  - by rewrite Hafter, numbered_length, Hrem.
  - intros other Hne. unfold Images.active_images. f_equal.
    rewrite (renumber_other_campaign campaign_id); [|done| |by apply active_images_NoDup|done].
    + unfold tbl. apply List_filter_fmap_ext. intros r Hr.
      destruct (decide (CampaignImage.id r = image_id)) as [Heq|]; [|done].
      assert (r = image) as ->
        by (apply (NoDup_fmap_eq CampaignImage.id images); [done..|congruence]).
      apply active_of_spec in Hact as [Hc _].
      split.
      * unfold Images.active_of, sql_eq. simpl.
        rewrite Hc. by rewrite !bool_decide_eq_false_2 by done.
      * intros [? _]%active_of_spec. congruence.
    + intros r. unfold Images.active_images. rewrite elem_of_sorted.
      intros [Hr [Hc _]%active_of_spec]%elem_of_List_filter. done.
Qed.

Lemma delete_image_renumbers_the_remaining_images_witness :
  CampaignImage.id <$> Images.active_images 3 Example.after_delete.1 = [11%N]
  ∧ CampaignImage.order <$> Images.active_images 3 Example.after_delete.1 = [1]
  ∧ Images.active_images 2 Example.after_delete.1
    = Images.active_images 2 Scenario.images.
Proof.
  destruct (delete_image_renumbers_the_remaining_images
              3 12 Example.campaigns Scenario.images
              Example.after_delete.1 Example.after_delete.2)
    as (_ & _ & Hids & Horders & _ & Hother).
  - by_evaluation.
  - reflexivity.
  - split; [exact Hids|]. split; [exact Horders|].
    apply Hother. discriminate.
Defined.

(** ** [ImageService.reorder_images] *)

Lemma position_None idx ids id : id ∉ ids → position idx ids id = None.
Proof.
  revert idx. induction ids as [|i rest IH]; intros idx Hid; [done|].
  apply not_elem_of_cons in Hid as [Hi Hid]. simpl.
  rewrite decide_False by done. by apply IH.
Qed.

Lemma position_Some idx ids id o :
  position idx ids id = Some o → id ∈ ids ∧ idx ≤ o.
Proof.
  revert idx. induction ids as [|i rest IH]; intros idx; [done|]. simpl.
  destruct (decide (i = id)) as [->|Hne].
  - intros [= <-]. split; [by left|lia].
  - intros [Hin Hle]%IH. split; [by right|lia].
Qed.

Lemma position_elem_of idx ids id :
  id ∈ ids → is_Some (position idx ids id).
Proof.
  revert idx. induction ids as [|i rest IH]; intros idx;
    [by intros ?%elem_of_nil|].
  simpl. destruct (decide (i = id)) as [->|Hne]; [by eexists|].
  intros [?|Hin]%elem_of_cons; [done|]. by apply IH.
Qed.

Lemma reorder_loop_placed campaign_id idx ids tbl :
  NoDup ids →
  Images.reorder_loop campaign_id idx ids tbl
  = placed campaign_id idx ids <$> tbl.
Proof.
  revert idx tbl. induction ids as [|i rest IH]; intros idx tbl Hnd.
  { simpl. rewrite <-(list_fmap_id tbl) at 1. apply list_fmap_ext.
    intros ? r _. unfold placed. simpl. by destruct (decide _). }
  apply NoDup_cons in Hnd as [Hi Hnd].
  simpl. rewrite IH by done. unfold Orm.update.
  rewrite <-list_fmap_compose. apply list_fmap_ext. intros ? r _. simpl.
  unfold placed. simpl.
  destruct (decide (CampaignImage.id r = i)) as [<-|Hne].
  - destruct (decide (CampaignImage.campaign_id r = campaign_id)) as [Hc|Hc].
    + simpl. rewrite decide_True by done. rewrite position_None by done.
      by rewrite decide_True.
    + by rewrite decide_False.
  - destruct (decide (CampaignImage.campaign_id r = campaign_id)); [|done].
    by rewrite decide_False by done.
Qed.

Lemma placed_id campaign_id idx ids r :
  CampaignImage.id (placed campaign_id idx ids r) = CampaignImage.id r.
Proof.
  unfold placed. destruct (decide _); [|done]. by destruct (position _ _ _).
Qed.

Lemma placed_active_of campaign_id idx ids other r :
  Images.active_of other (placed campaign_id idx ids r)
  = Images.active_of other r.
Proof.
  unfold placed. destruct (decide _); [|done]. by destruct (position _ _ _).
Qed.

Lemma pick_bound idx ids l x : x ∈ pick idx ids l → idx ≤ CampaignImage.order x.
Proof.
  revert idx. induction ids as [|i rest IH]; intros idx; simpl.
  { by intros ?%elem_of_nil. }
  destruct (Orm.get CampaignImage.id i l).
  - intros [->|Hx%IH]%elem_of_cons; simpl; lia.
  - intros Hx%IH. lia.
Qed.

Lemma pick_sorted idx ids l :
  StronglySorted (λ a b, CampaignImage.order a < CampaignImage.order b)
    (pick idx ids l).
Proof.
  revert idx. induction ids as [|i rest IH]; intros idx; simpl; [constructor|].
  destruct (Orm.get CampaignImage.id i l); [|apply IH].
  constructor; [apply IH|].
  apply Forall_forall. intros x Hx%pick_bound. simpl. lia.
Qed.

Lemma pick_ids idx ids l :
  CampaignImage.id <$> pick idx ids l
  = List.filter (λ i, bool_decide (i ∈ (CampaignImage.id <$> l))) ids.
Proof.
  revert idx. induction ids as [|i rest IH]; intros idx; [done|].
  cbn [pick List.filter].
  destruct (Orm.get CampaignImage.id i l) as [r|] eqn:Hget.
  - apply Orm_get_Some in Hget as [Hr Hid].
    rewrite bool_decide_eq_true_2
      by (rewrite <-Hid; by apply list_elem_of_fmap_2).
    rewrite fmap_cons, IH. simpl. by rewrite Hid.
  - apply Orm_get_None in Hget. rewrite bool_decide_eq_false_2 by done.
    apply IH.
Qed.

Lemma pick_elem_of idx ids l x :
  NoDup ids →
  x ∈ pick idx ids l ↔
  ∃ r o, Orm.get CampaignImage.id (CampaignImage.id r) l = Some r
         ∧ position idx ids (CampaignImage.id r) = Some o
         ∧ x = Images.set_order o r.
Proof.
  revert idx. induction ids as [|i rest IH]; intros idx Hnd.
  { simpl. split; [by intros ?%elem_of_nil|by intros (? & ? & _ & ? & _)]. }
  apply NoDup_cons in Hnd as [Hi Hnd]. cbn [pick position].
  assert (x ∈ pick (idx + 1) rest l ↔
          ∃ r o, Orm.get CampaignImage.id (CampaignImage.id r) l = Some r
                 ∧ CampaignImage.id r ≠ i
                 ∧ position (idx + 1) rest (CampaignImage.id r) = Some o
                 ∧ x = Images.set_order o r) as Hrest.
  { rewrite IH by done. split.
    - intros (r & o & Hget & Hpos & ->). exists r, o. repeat split; try done.
      intros <-. apply position_Some in Hpos as [? _]. done.
    - intros (r & o & Hget & _ & Hpos & ->). by exists r, o. }
  destruct (Orm.get CampaignImage.id i l) as [r0|] eqn:Hget0.
  - pose proof (Orm_get_Some _ _ _ _ Hget0) as [_ Hid0].
    rewrite elem_of_cons, Hrest. split.
    + intros [->|(r & o & Hget & Hne & Hpos & ->)].
      * exists r0, idx. rewrite Hid0, decide_True by done. by rewrite Hget0.
      * exists r, o. by rewrite decide_False by done.
    + intros (r & o & Hget & Hpos & ->).
      destruct (decide (i = CampaignImage.id r)) as [->|Hne].
      * left. injection Hpos as <-. congruence.
      * right. exists r, o. by repeat split.
  - rewrite Hrest. split.
    + intros (r & o & Hget & Hne & Hpos & ->).
      exists r, o. by rewrite decide_False by done.
    + intros (r & o & Hget & Hpos & ->).
      destruct (decide (i = CampaignImage.id r)) as [->|Hne]; [congruence|].
      exists r, o. by repeat split.
Qed.

Lemma NoDup_List_filter {A} (p : A → bool) (l : list A) :
  NoDup l → NoDup (List.filter p l).
Proof.
  induction 1 as [|x l Hx _ IH]; simpl; [constructor|].
  destruct (p x); [|done]. constructor; [|done].
  by intros [? _]%elem_of_List_filter.
Qed.

Lemma placed_pick campaign_id idx ids l :
  NoDup ids → NoDup (CampaignImage.id <$> l) →
  (∀ r, r ∈ l → CampaignImage.campaign_id r = campaign_id
                ∧ CampaignImage.id r ∈ ids) →
  placed campaign_id idx ids <$> l ≡ₚ pick idx ids l.
Proof.
  intros Hids Hnd Hl. apply NoDup_Permutation.
  - apply (NoDup_fmap_1 CampaignImage.id). rewrite <-list_fmap_compose.
    erewrite list_fmap_ext; [exact Hnd|]. intros ? r _. apply placed_id.
  - apply (NoDup_fmap_1 CampaignImage.id). rewrite pick_ids.
    by apply NoDup_List_filter.
  - intros x. rewrite pick_elem_of by done. rewrite list_elem_of_fmap. split.
    + intros (r & -> & Hr). destruct (Hl r Hr) as [Hc Hin].
      destruct (position_elem_of idx ids _ Hin) as [o Ho].
      exists r, o. split; [by apply Orm_get_NoDup|]. split; [done|].
      unfold placed. by rewrite decide_True, Ho.
    + intros (r & o & Hget & Hpos & ->).
      apply Orm_get_Some in Hget as [Hr _]. exists r. split; [|done].
      destruct (Hl r Hr) as [Hc _]. unfold placed.
      by rewrite decide_True, Hpos.
Qed.

(** X12: when [reorder_images] is given each id once and every listed
    image of the campaign is among them, the campaign's listing afterwards
    follows the given order: its ids are the given ids that belong to
    listed images, in the order given (an exact enumeration is reproduced
    as it is); the listings of the other campaigns do not change. *)
Theorem reorder_images_sets_the_listed_order
    (campaign_id : N) (ordered_ids : list N) (images : list CampaignImage.t) :
  NoDup (CampaignImage.id <$> images) →
  NoDup ordered_ids →
  (∀ img, img ∈ Images.active_images campaign_id images →
          CampaignImage.id img ∈ ordered_ids) →
  let before := Images.active_images campaign_id images in
  let after :=
    Images.active_images campaign_id
      (Images.reorder_images campaign_id ordered_ids images) in
  CampaignImage.id <$> after
  = List.filter (λ i, bool_decide (i ∈ (CampaignImage.id <$> before)))
      ordered_ids
  ∧ (ordered_ids ≡ₚ CampaignImage.id <$> before →
     CampaignImage.id <$> after = ordered_ids)
  ∧ (∀ other, other ≠ campaign_id →
       Images.active_images other
         (Images.reorder_images campaign_id ordered_ids images)
       = Images.active_images other images).
Proof.
  intros Hnd Hids Hcover before after.
  set (l := List.filter (Images.active_of campaign_id) images).
  assert (∀ r, r ∈ l ↔ r ∈ before) as Hl.
  { intros r. unfold before, Images.active_images. by rewrite elem_of_sorted. }
  assert (after = pick 0 ordered_ids l) as Hafter.
  { unfold after, Images.reorder_images, Images.active_images.
    rewrite reorder_loop_placed by done.
    rewrite List_filter_fmap by (intros; apply placed_active_of).
    apply sorted_by_order_is; [|apply pick_sorted].
    apply placed_pick; [done|by apply NoDup_ids_filter|].
    intros r Hr. split.
    - by apply elem_of_List_filter in Hr as [_ [? _]%active_of_spec].
    - apply Hcover. by apply Hl. }
  assert (CampaignImage.id <$> after
          = List.filter (λ i, bool_decide (i ∈ (CampaignImage.id <$> before)))
              ordered_ids) as Hidsafter.
  { rewrite Hafter, pick_ids.
    assert (∀ i, bool_decide (i ∈ (CampaignImage.id <$> l))
                 = bool_decide (i ∈ (CampaignImage.id <$> before))) as Hext.
    { intros i. apply bool_decide_ext. rewrite !list_elem_of_fmap.
      split; intros (r & ? & ?); exists r; (split; [done|]); by apply Hl. }
    clear -Hext. induction ordered_ids as [|i rest IH]; [done|].
    cbn [List.filter]. by rewrite Hext, IH. }
  split; [done|]. split.
  - intros Hperm. rewrite Hidsafter. apply List_filter_all, Forall_forall.
    intros i Hi. apply bool_decide_eq_true. by rewrite <-Hperm.
  - intros other Hne. unfold Images.reorder_images, Images.active_images.
    f_equal. rewrite reorder_loop_placed by done.
    apply List_filter_fmap_ext. intros r _.
    split; [apply placed_active_of|].
    intros [Hc _]%active_of_spec. unfold placed.
    rewrite decide_False; [done|congruence].
Qed.

Lemma reorder_images_sets_the_listed_order_witness :
  CampaignImage.id
    <$> Images.active_images 3
          (Images.reorder_images 3 [11%N; 12%N] Scenario.images)
  = [11%N; 12%N].
Proof.
  apply (reorder_images_sets_the_listed_order 3 [11%N; 12%N] Scenario.images).
  - by_evaluation.
  - by_evaluation.
  - intros img Himg. vm_compute in Himg.
    apply list_elem_of_In in Himg.
    destruct Himg as [<-|[<-|[]]]; apply list_elem_of_In; simpl; auto.
  - vm_compute. apply Permutation_swap.
Defined.

(** ** [ImageService.upload_image] *)

Lemma sorted_app_least {A K} (ltb : K → K → bool) (key : A → K) l x :
  Forall (λ y, ltb (key x) (key y) = true) l →
  sorted ltb key false (l ++ [x]) = x :: sorted ltb key false l.
Proof.
  induction 1 as [|y l Hy _ IH]; [done|].
  cbn [app sorted foldr]. fold (sorted ltb key false (l ++ [x])).
  fold (sorted ltb key false l). rewrite IH. simpl. by rewrite Hy.
Qed.

(** X13: the row [upload_image] adds is active, has order 0 and no display
    time of its own; when the campaign's listed images all have a positive
    order, as [delete_image] leaves them, the new image is listed first and
    the others follow as before.  Other campaigns' listings do not
    change. *)
Theorem uploaded_image_is_listed_first
    (campaign_id id : N) (campaigns : list Campaign.t)
    (images images' : list CampaignImage.t) :
  Images.upload_image campaign_id id campaigns images = Returned images' →
  Forall (λ img, 0 < CampaignImage.order img)
    (Images.active_images campaign_id images) →
  let new := {| CampaignImage.id := id;
                CampaignImage.campaign_id := campaign_id;
                CampaignImage.order := 0;
                CampaignImage.display_time := None;
                CampaignImage.active := Some true |} in
  (id ∉ (CampaignImage.id <$> images))
  ∧ Images.active_images campaign_id images'
    = new :: Images.active_images campaign_id images
  ∧ (∀ other, other ≠ campaign_id →
       Images.active_images other images' = Images.active_images other images).
Proof.
  unfold Images.upload_image.
  destruct (Orm.get Campaign.id campaign_id campaigns) as [campaign|] eqn:Hget;
    [|done].
  apply Orm_get_Some in Hget as [_ ->].
  case_bool_decide as Hid; [done|]. intros [= <-] Hpos. simpl.
  split; [done|]. unfold Images.active_images.
  assert (∀ other img, CampaignImage.campaign_id img = campaign_id →
            CampaignImage.active img = Some true →
            Images.active_of other img
            = bool_decide (other = campaign_id)) as Hnew.
  { intros other img Hc Ha. unfold Images.active_of, sql_eq.
    rewrite Hc, Ha. simpl.
    repeat case_bool_decide; simplify_eq; done. }
  split.
  - rewrite List.filter_app. cbn [List.filter].
    rewrite Hnew by done. rewrite bool_decide_eq_true_2 by done.
    apply sorted_app_least.
    unfold Images.active_images in Hpos.
    rewrite Forall_forall in Hpos. apply Forall_forall. intros y Hy.
    simpl. apply Z.ltb_lt, Hpos. by apply elem_of_sorted.
  - intros other Hne. f_equal. rewrite List.filter_app. cbn [List.filter].
    rewrite Hnew by done. rewrite bool_decide_eq_false_2 by done.
    by rewrite app_nil_r.
Qed.

Lemma uploaded_image_is_listed_first_witness :
  CampaignImage.id <$> Images.active_images 3 Example.after_upload
  = [15%N; 11%N].
Proof.
  destruct (uploaded_image_is_listed_first 3 15 Example.campaigns
              Example.after_delete.1 Example.after_upload)
    as (_ & Hlisted & _).
  - reflexivity.
  - vm_compute. repeat constructor.
  - by rewrite Hlisted.
Defined.

(** ** app/routes/stations.py *)






Lemma campaign_filter_live now c :
  Campaigns.campaign_filter now c = true →
  Campaign.status c = Some ACTIVE ∧ Campaign.is_deleted c = Some false.
Proof.
  unfold Campaigns.campaign_filter, sql_eq.
  destruct (Campaign.status c) as [st|], (Campaign.is_deleted c) as [[]|];
    simpl; try done; repeat case_bool_decide; simpl;
    repeat (destruct (_ <=? _)); repeat (destruct (_ >=? _)); naive_solver.
Qed.

Lemma applies_names_the_station st branch_code region station_code c :
  truthy (Campaign.stations c) = true →
  Campaigns.applies (Some st) branch_code region station_code c = Ok true →
  ∃ bs ss, Campaign.branches c = PyList bs ∧ Campaign.stations c = PyList ss
           ∧ branch_code ∈ bs ∧ Some station_code ∈ ss.
Proof.
  intros Hs. unfold Campaigns.applies.
  rewrite !truthy_or_empty, Hs. simpl. rewrite !andb_false_r.
  destruct (truthy (Campaign.branches c)) eqn:Hb; simpl; [|done].
  unfold or_empty. rewrite Hb, Hs.
  destruct (Campaign.branches c) as [|bs|]; simpl; try done.
  case_bool_decide as Hin; simpl; [|done].
  destruct (Campaign.stations c) as [|ss|]; simpl; try done.
  intros [= Hin'%bool_decide_eq_true]. eauto 10.
Qed.

(** X15: a station cannot be deactivated while the resolver serves it a
    campaign that names stations: whenever a lookup of the code resolves to
    the station and the resolved list holds a campaign with a station list,
    [delete_station] answers 409 and changes nothing. *)
Theorem station_serving_a_station_level_campaign_is_not_deactivated
    (stations : list Station.t) (campaigns : list Campaign.t)
    (station_code : string) (now : Z) (st : Station.t) (branch : Branch.t)
    (c : Campaign.t) :
  NoDup (Station.id <$> stations) →
  head (List.filter (Campaigns.station_filter station_code) stations)
  = Some st →
  Station.branch st = Some branch →
  c ∈ resolved stations campaigns station_code now →
  truthy (Campaign.stations c) = true →
  Stations.delete_station (Station.id st) stations campaigns
  = HTTPException 409.
Proof.
  intros Hnd Hst Hbr Hc Hs.
  apply resolve_elem_of in Hc as (station & rows & Hq & [= <-] & Hin & Hf & Ha).
  rewrite station_query_tables, Hst in Hq. injection Hq as <-.
  apply head_List_filter_Some in Hst as [Hst [Hcode _]%station_filter_spec].
  apply (applies_names_the_station _ _ _ _ _ Hs) in Ha
    as (bs & ss & Hbs & Hss & Hb & Hsc).
  unfold branch_code_at, branch_code_of in Hb. simpl in Hb.
  rewrite Hbr in Hb. simpl in Hb.
  apply campaign_filter_live in Hf as [Hstatus Hdel].
  unfold Stations.delete_station.
  rewrite (Orm_get_NoDup Station.id _ stations st Hnd Hst eq_refl), Hbr.
  assert (Stations.referenced (Branch.code branch) (Station.code st) c = true)
    as Href.
  { unfold Stations.referenced, Stations.sql_any.
    rewrite Hstatus, Hdel, Hbs, Hss, Hcode. simpl.
    by rewrite !bool_decide_eq_true_2. }
  assert (c ∈ List.filter
                (Stations.referenced (Branch.code branch) (Station.code st))
                campaigns) as Hmem by by apply elem_of_List_filter.
  destruct (List.filter _ campaigns); [by apply elem_of_nil in Hmem|done].
Qed.

Lemma station_serving_a_station_level_campaign_is_not_deactivated_witness :
  Stations.delete_station 1 [Scenario.station_001]
    [Scenario.A; Scenario.E]
  = HTTPException 409.
Proof.
  apply (station_serving_a_station_level_campaign_is_not_deactivated
           [Scenario.station_001] [Scenario.A; Scenario.E] "001" Scenario.now
           Scenario.station_001 Scenario.SP01 Scenario.E).
  - by_evaluation.
  - reflexivity.
  - reflexivity.
  - vm_compute. apply list_elem_of_In. simpl. auto.
  - reflexivity.
Defined.

Lemma station_filter_set_inactive station_code s :
  Campaigns.station_filter station_code (Stations.set_inactive s) = false.
Proof.
  unfold Campaigns.station_filter, sql_eq. simpl. by case_bool_decide.
Qed.

(** X16: once [delete_station] has deactivated a station no lookup
    resolves to it any more, under any code, and every lookup finds what it
    would find in a table without the station: the first active station of
    the code among the others.  The row stays in the table: the ids are the
    same, in whatever order. *)
Theorem deactivated_station_is_skipped_by_the_lookup
    (station_id : N) (stations stations' : list Station.t)
    (campaigns : list Campaign.t) (station_code : string) :
  Stations.delete_station station_id stations campaigns = Returned stations' →
  List.filter (Campaigns.station_filter station_code) stations'
  = List.filter (λ s, bool_decide (Station.id s ≠ station_id))
      (List.filter (Campaigns.station_filter station_code) stations)
  ∧ (∀ st, head (List.filter (Campaigns.station_filter station_code) stations')
           = Some st → Station.id st ≠ station_id)
  ∧ Station.id <$> stations' ≡ₚ Station.id <$> stations.
Proof.
  unfold Stations.delete_station.
  destruct (Orm.get _ _ stations) as [station|]; [|done].
  destruct (Station.branch station) as [branch|]; [|done].
  destruct (0 <? _)%nat; [done|]. intros [= <-].
  assert (List.filter (Campaigns.station_filter station_code)
            (Orm.update Station.id station_id Stations.set_inactive stations)
          = List.filter (λ s, bool_decide (Station.id s ≠ station_id))
              (List.filter (Campaigns.station_filter station_code) stations))
    as Heq.
  { unfold Orm.update. induction stations as [|s l IH]; [done|].
    rewrite fmap_cons. cbn [List.filter]. rewrite IH.
    destruct (decide (Station.id s = station_id)) as [Hs|Hs].
    - rewrite station_filter_set_inactive.
      destruct (Campaigns.station_filter station_code s); [|done].
      cbn [List.filter]. by rewrite bool_decide_eq_false_2 by naive_solver.
    - destruct (Campaigns.station_filter station_code s); [|done].
      cbn [List.filter]. by rewrite bool_decide_eq_true_2. }
  split; [done|]. split.
  - rewrite Heq. intros st [_ Hne]%head_List_filter_Some.
    by apply bool_decide_eq_true in Hne.
  - assert (Station.id
              <$> Orm.update Station.id station_id Stations.set_inactive
                    stations
            = Station.id <$> stations) as ->; [|done].
    unfold Orm.update. rewrite <-list_fmap_compose. apply list_fmap_ext.
    intros i s _. simpl. by destruct (decide _).
Qed.

Lemma deactivated_station_is_skipped_by_the_lookup_witness :
  head (List.filter (Campaigns.station_filter "001")
          Example.stations_after_delete)
  = Some Scenario.station_001_of_020202
  ∧ Station.id <$> Example.stations_after_delete ≡ₚ [1%N; 2%N].
Proof.
  destruct (deactivated_station_is_skipped_by_the_lookup 1
              [Scenario.station_001; Scenario.station_001_of_020202]
              Example.stations_after_delete
              [Scenario.A; Scenario.F] "001")
    as (Hfilter & _ & Hids).
  - reflexivity.
  - split; [by rewrite Hfilter|exact Hids].
Defined.

(** ** [get_all_active] *)

Lemma items_Permutation now rows :
  ActiveAll.items now rows ≡ₚ List.filter (Campaigns.campaign_filter now) rows.
Proof. apply sorted_Permutation. Qed.

(** X17: both [get_all_active] handlers answer from the cache when it
    holds a listing, whatever the tables hold at that time.  When it holds
    none the two handlers list the same campaigns in the same order,
    [total] is their number, and the listing bounds the resolvers:
    whatever either resolver serves to any station code at that moment is
    in the listing, and a listed campaign is a stored row inside its
    window that is active and not deleted. *)
Theorem active_listing_holds_every_served_campaign
    (stations : list Station.t) (rows : list Campaign.t) (now : Z) :
  let listing := ActiveAll.campaigns_get_all_active None now rows in
  (∀ cached, ActiveAll.campaigns_get_all_active (Some cached) now rows
             = cached)
  ∧ (∀ cached, ActiveAll.tablets_get_all_active (Some cached) now rows
               = cached)
  ∧ ActiveAll.id <$> ActiveAll.tablets_get_all_active None now rows
    = ActiveAll.id <$> listing.1
  ∧ listing.2 = length listing.1
  ∧ (∀ station_code c,
       c ∈ resolved stations rows station_code now
       ∨ c ∈ resolved_tablet stations rows station_code now →
       ActiveAll.campaigns_entry c ∈ listing.1)
  ∧ (∀ e, e ∈ listing.1 →
       ∃ c, c ∈ rows ∧ candidate now c ∧ e = ActiveAll.campaigns_entry c).
Proof.
  simpl. split; [done|]. split; [done|]. split; [|split; [|split]].
  - unfold ActiveAll.tablets_get_all_active. simpl.
    rewrite <-!list_fmap_compose. by apply list_fmap_ext.
  - by rewrite length_fmap.
  - intros station_code c Hc. rewrite resolved_tablet_eq in Hc.
    assert (c ∈ resolved stations rows station_code now) as Hc'
      by by destruct Hc.
    apply resolved_elem_of in Hc' as (Hin & Hf & _).
    apply list_elem_of_fmap_2. rewrite items_Permutation.
    by apply elem_of_List_filter.
  - intros e (c & -> & Hc)%list_elem_of_fmap.
    rewrite items_Permutation in Hc.
    apply elem_of_List_filter in Hc as [Hin Hf].
    exists c. split; [done|]. split; [|done].
    by apply campaign_filter_candidate.
Qed.

(** ** The display time of an image, across the image handlers *)

Lemma Forall_Orm_update {A} (P : A → Prop) (pk : A → N) id f rows :
  (∀ r, P r → P (f r)) →
  Forall P rows → Forall P (Orm.update pk id f rows).
Proof.
  intros Hf Hrows. unfold Orm.update. apply Forall_fmap.
  eapply Forall_impl; [done|]. intros r Hr. simpl.
  destruct (decide _); auto.
Qed.

Lemma renumber_display_times idx remaining images :
  Forall (λ img, display_time_in_bounds (CampaignImage.display_time img))
    images →
  Forall (λ img, display_time_in_bounds (CampaignImage.display_time img))
    (Images.renumber idx remaining images).
Proof.
  revert idx images. induction remaining as [|img rest IH];
    intros idx images Himages; simpl; [done|].
  apply IH. by apply Forall_Orm_update.
Qed.

Lemma reorder_loop_display_times campaign_id idx ordered_ids images :
  Forall (λ img, display_time_in_bounds (CampaignImage.display_time img))
    images →
  Forall (λ img, display_time_in_bounds (CampaignImage.display_time img))
    (Images.reorder_loop campaign_id idx ordered_ids images).
Proof.
  revert idx images. induction ordered_ids as [|img_id rest IH];
    intros idx images Himages; simpl; [done|].
  apply IH. apply Forall_Orm_update; [|done].
  intros r Hr. by destruct (decide _).
Qed.

Lemma image_step_display_times images images' :
  image_step images images' →
  Forall (λ img, display_time_in_bounds (CampaignImage.display_time img))
    images →
  Forall (λ img, display_time_in_bounds (CampaignImage.display_time img))
    images'.
Proof.
  intros [campaign_id id campaigns ? Hup
         |image_id update_data campaigns shown ? Hup
         |campaign_id image_id campaigns ? n Hdel
         |campaign_id ordered_ids] Himages.
  - unfold Images.upload_image in Hup.
    destruct (Orm.get _ _ campaigns); [|done].
    case_bool_decide; [done|]. injection Hup as <-.
    apply Forall_app. split; [done|]. by repeat constructor.
  - unfold Images.update_image in Hup.
    destruct (Orm.get _ _ images) as [image|]; [|done].
    destruct (ImageUpdate.display_time update_data) as [|[t|]] eqn:Ht;
      simpl in Hup.
    + injection Hup as _ <-. apply Forall_Orm_update; [|done].
      intros r Hr. unfold Images.apply_update. simpl. by rewrite Ht.
    + destruct ((t <? 1000) || (t >? 60000)) eqn:Hb; [done|].
      injection Hup as _ <-. apply Forall_Orm_update; [|done].
      intros r Hr. unfold Images.apply_update. simpl. rewrite Ht. simpl. lia.
    + injection Hup as _ <-. apply Forall_Orm_update; [|done].
      intros r Hr. unfold Images.apply_update. simpl. by rewrite Ht.
  - unfold Images.delete_image in Hdel.
    destruct (head (List.filter _ campaigns)); [|done].
    destruct (head (List.filter _ images)) as [image|]; [|done].
    injection Hdel as <- _.
    apply renumber_display_times. by apply Forall_Orm_update.
  - by apply reorder_loop_display_times.
Qed.

(** X18: the image handlers never store a display time outside 1000 to
    60000 ms.  Whatever sequence of successful uploads, updates, deletions
    and reorderings built the image table from an empty one, every stored
    image has no display time of its own or one within the bounds, and so
    has every image the tablet endpoint lists. *)
Theorem image_display_times_stay_within_bounds
    (images : list CampaignImage.t) :
  rtc image_step [] images →
  Forall (λ img, display_time_in_bounds (CampaignImage.display_time img))
    images
  ∧ ∀ db station_code now resp it fi,
      q_images db = Ok images →
      Tablets.get_active_for_station db station_code now = Ok resp →
      it ∈ Tablets.Response.campaigns resp →
      fi ∈ Tablets.Item.images it →
      display_time_in_bounds (Tablets.Image.display_time fi).
Proof.
  intros Hsteps.
  assert (Forall (λ img,
            display_time_in_bounds (CampaignImage.display_time img)) images)
    as Hall.
  { revert images Hsteps. apply rtc_ind_r; [done|].
    intros mid images _ Hstep IH.
    by apply (image_step_display_times mid). }
  split; [done|].
  intros db station_code now resp it fi Himages Hresp Hit Hfi.
  unfold Tablets.get_active_for_station in Hresp.
  destruct (Tablets.campaigns_with_images db _) as [items|e] eqn:Hitems;
    [|discriminate Hresp].
  simpl in Hresp.
  destruct (Tablets.if_station _ _ (Tablets.Locals.branch_code _));
    [|discriminate Hresp].
  destruct (Tablets.if_station _ _ (Tablets.Locals.region _));
    [|discriminate Hresp].
  injection Hresp as <-. simpl in Hit.
  destruct (campaigns_with_images_inv _ _ _ _ Hitems Hit)
    as (c & rows & Hc & Himg & ->).
  rewrite Himages in Himg. injection Himg as <-. simpl in Hfi.
  apply list_elem_of_fmap in Hfi as (img & -> & Himg).
  apply elem_of_listed_images in Himg as (Himg & _).
  rewrite Forall_forall in Hall. simpl. by apply Hall.
Qed.

Lemma image_display_times_stay_within_bounds_witness :
  Forall (λ img, display_time_in_bounds (CampaignImage.display_time img))
    Example.built.
Proof.
  apply (image_display_times_stay_within_bounds Example.built).
  apply (rtc_l image_step [] [Scenario.image 11 3 0 None true]).
  - by apply (step_upload [] 3 11 Example.campaigns).
  - apply rtc_once.
    by apply (step_update _ 11 Example.eight_seconds Example.campaigns
                (Some 8000)).
Defined.
